(** * NYC congestion-pricing audit pipeline: a shallow embedding of
    [src/pipeline/pipeline.py]

    The pipeline is a Python driver around an embedded SQL engine.  The
    embedding has two layers.

    - The relational layer gives every SQL text of the driver a denotation
      as a function on lists of rows: three-valued logic for [WHERE],
      [CASE] and [HAVING], [COALESCE], [GREATEST], grouping, ordering,
      outer join.  Columns of type DOUBLE are exact rationals ([Q]), so
      their rounding is left out; the two FLOAT columns of the leakage
      query are rounded to single precision, as the engine does; integer
      columns and [COUNT] are [Z]; a nullable column is an [option].  A
      query without [ORDER BY] returns
      its rows in the order this denotation happens to produce; nothing
      below depends on that order.
    - The driver layer is a state-and-exception monad over a [world]: the
      files on disk, the catalog of the connection, the number of random
      values drawn, and one trace of what was printed, submitted to the
      engine, requested from the network and written.  What lies outside
      the program (remote archives, random draws, engine faults, the
      statistics library) is an oracle in the [environment].  Python
      [try]/[except] is [try_except]; [try]/[finally] is [try_finally].
      A statement that fails leaves no output file behind, and writing a
      local file does not fail. *)

From Stdlib Require Import ZArith QArith Qminmax Qabs Qpower Ascii String List Lia Lqa.
From stdpp Require Import gmap strings list fin_maps pretty sorting.

Open Scope Z_scope.

(* ===================================================================== *)
(** ** Single precision *)
(* ===================================================================== *)

(** The nearest integer, ties to even. *)
Definition round_half_even (x : Q) : Z :=
  let n := Qnum x in
  let d := Zpos (Qden x) in
  let fl := n / d in
  let r := n mod d in
  if 2 * r <? d then fl
  else if d <? 2 * r then fl + 1
  else if Z.even fl then fl else fl + 1.

(** The binade of a positive number: the exponent [e] with
    [2^e <= x < 2^(e+1)]. *)
Definition binade (x : Q) : Z :=
  let e := Z.log2 (Qnum x) - Z.log2 (Zpos (Qden x)) in
  if Qle_bool (2 ^ e) x then e else e - 1.

(** The value of type FLOAT nearest to [x]: a significand of 24 bits, ties
    to even, and below [2^-126] the spacing of the smallest normal
    numbers.  The numbers rounded here are counts of rows, which the
    engine holds in 64 bits, and numbers between 0 and 1: none is near the
    largest FLOAT, so overflow is left out. *)
Definition to_float32 (x : Q) : Q :=
  if Qeq_bool x 0 then 0%Q
  else
    let ulp := (2 ^ (Z.max (binade (Qabs x)) (-126) - 23))%Q in
    (inject_Z (round_half_even (x / ulp)) * ulp)%Q.

(* ===================================================================== *)
(** ** SQL scalars *)
(* ===================================================================== *)

Module Sql.

(** A SQL truth value: [Some true], [Some false] or NULL. *)
Definition and3 (a b : option bool) : option bool :=
  match a, b with
  | Some false, _ => Some false
  | _, Some false => Some false
  | Some true, Some true => Some true
  | _, _ => None
  end.

Definition or3 (a b : option bool) : option bool :=
  match a, b with
  | Some true, _ => Some true
  | _, Some true => Some true
  | Some false, Some false => Some false
  | _, _ => None
  end.

Definition not3 (a : option bool) : option bool :=
  match a with
  | Some b => Some (negb b)
  | None => None
  end.

(** [WHERE], [HAVING] and [CASE WHEN] take a row only on TRUE. *)
Definition holds (a : option bool) : bool :=
  match a with
  | Some true => true
  | _ => false
  end.

Definition lift2 {A B C} (f : A -> B -> C) (a : option A) (b : option B)
  : option C :=
  match a, b with
  | Some x, Some y => Some (f x y)
  | _, _ => None
  end.

Definition Qlt_bool (x y : Q) : bool := negb (Qle_bool y x).

(** Comparisons of DOUBLE/DECIMAL values. *)
Definition gt (a b : option Q) : option bool := lift2 (fun x y => Qlt_bool y x) a b.
Definition lt (a b : option Q) : option bool := lift2 Qlt_bool a b.
Definition le (a b : option Q) : option bool := lift2 Qle_bool a b.
Definition eq (a b : option Q) : option bool := lift2 Qeq_bool a b.

(** Comparisons of BIGINT values. *)
Definition gtz (a b : option Z) : option bool := lift2 Z.gtb a b.
Definition lez (a b : option Z) : option bool := lift2 Z.leb a b.
Definition eqz (a b : option Z) : option bool := lift2 Z.eqb a b.

(** BIGINT to DOUBLE. *)
Definition of_int (a : option Z) : option Q := option_map inject_Z a.

Definition sub (a b : option Q) : option Q := lift2 Qminus a b.
Definition mul (a b : option Q) : option Q := lift2 Qmult a b.

(** Division; a zero divisor gives NULL. *)
Definition div (a b : option Q) : option Q :=
  match a, b with
  | Some x, Some y => if Qeq_bool y 0 then None else Some (x / y)%Q
  | _, _ => None
  end.

(** [CAST(a AS FLOAT)], and the division and subtraction of two FLOAT
    operands: the exact result, rounded. *)
Definition to_float (a : option Q) : option Q := option_map to_float32 a.
Definition divf (a b : option Q) : option Q := to_float (div a b).
Definition subf (a b : option Q) : option Q := to_float (sub a b).

(** [GREATEST(a, b)] skips NULL arguments. *)
Definition greatest (a b : option Q) : option Q :=
  match a, b with
  | Some x, Some y => Some (Qmax x y)
  | Some x, None => Some x
  | None, b => b
  end.

Definition coalesce {A} (a : option A) (d : A) : A :=
  match a with
  | Some x => x
  | None => d
  end.

(** [x IN (v1, ..., vn)] over a list of non-NULL literals. *)
Definition in_list (a : option Z) (l : list Z) : option bool :=
  match a with
  | Some x => Some (existsb (Z.eqb x) l)
  | None => None
  end.

End Sql.

(* ===================================================================== *)
(** ** Timestamps *)
(* ===================================================================== *)

(** A TIMESTAMP value by its civil fields. *)
Record timestamp := mk_timestamp {
  year : Z;
  month : Z;
  day : Z;
  hour : Z;
  minute : Z;
  second : Z
}.

(** A DATE value: (year, month, day). *)
Definition date : Type := Z * Z * Z.

Definition date_of (t : timestamp) : date := (year t, month t, day t).

(** Midnight of a date literal such as ['2025-01-05']. *)
Definition midnight (y m d : Z) : timestamp := mk_timestamp y m d 0 0 0.

(** Days since 1970-01-01 of a civil date (proleptic Gregorian). *)
Definition days_from_civil (y m d : Z) : Z :=
  let y' := if m <=? 2 then y - 1 else y in
  let era := y' / 400 in
  let yoe := y' - era * 400 in
  let mp := (m + 9) mod 12 in
  let doy := (153 * mp + 2) / 5 + d - 1 in
  let doe := yoe * 365 + yoe / 4 - yoe / 100 + doy in
  era * 146097 + doe - 719468.

(** Minutes since the epoch, seconds dropped. *)
Definition epoch_minute (t : timestamp) : Z :=
  (days_from_civil (year t) (month t) (day t) * 24 + hour t) * 60 + minute t.

Definition epoch_second (t : timestamp) : Z :=
  epoch_minute t * 60 + second t.

(** [date_diff('minute', a, b)]: minute boundaries crossed from [a] to [b]. *)
Definition date_diff_minute (a b : option timestamp) : option Z :=
  Sql.lift2 (fun x y => epoch_minute y - epoch_minute x) a b.

Definition ts_ge (a b : option timestamp) : option bool :=
  Sql.lift2 (fun x y => epoch_second y <=? epoch_second x) a b.

Definition ts_lt (a b : option timestamp) : option bool :=
  Sql.lift2 (fun x y => epoch_second x <? epoch_second y) a b.

(** [dayofweek(t)]: 0 is Sunday. *)
Definition dayofweek (t : timestamp) : Z :=
  (days_from_civil (year t) (month t) (day t) + 4) mod 7.

Definition is_leap (y : Z) : bool :=
  ((y mod 4 =? 0) && negb (y mod 100 =? 0)) || (y mod 400 =? 0).

(** [t + INTERVAL n YEAR]: same civil fields in year [y + n]; the 29th of
    February falls back to the 28th in a common year. *)
Definition add_years (n : Z) (t : timestamp) : timestamp :=
  let y := year t + n in
  let d := if (month t =? 2) && (day t =? 29) && negb (is_leap y)
           then 28 else day t in
  mk_timestamp y (month t) d (hour t) (minute t) (second t).

(* ===================================================================== *)
(** ** Configuration *)
(* ===================================================================== *)

Inductive taxi := yellow | green.

Definition TAXI_TYPES : list taxi := [yellow; green].

Definition taxi_name (t : taxi) : string :=
  match t with
  | yellow => "yellow"
  | green => "green"
  end.

Definition CONGESTION_ZONE_IDS : list Z := [
    4; 12; 13; 24; 41; 42; 43; 45; 48; 50; 68; 74; 75; 87; 88; 90; 100; 103;
    104; 105; 107; 113; 114; 116; 120; 125; 127; 128; 137; 140; 142; 143; 144;
    148; 151; 152; 153; 158; 161; 162; 163; 164; 166; 170; 186; 194; 202; 209;
    211; 212; 213; 214; 216; 217; 224; 229; 230; 231; 232; 233; 234; 235; 236;
    237; 238; 239; 240; 241; 242; 243; 244; 245; 246; 249; 250
  ].

Definition GHOST_SPEED_LIMIT : Q := 65.
Definition GHOST_I_TELEPORTER_TIME : Q := 1.
Definition GHOST_I_TELEPORTER_FARE : Q := 20.
Definition GHOST_I_STATIONARY_DIST : Q := 0.

(* ===================================================================== *)
(** ** Relational operators *)
(* ===================================================================== *)

Section Relational.
Context {A : Type}.

(** [GROUP BY key]: one group per distinct key, with its rows. *)
Definition group_by {K} `{EqDecision K} (key : A -> K) (rows : list A)
  : list (K * list A) :=
  map (fun k => (k, filter (fun r => key r = k) rows))
      (remove_dups (map key rows)).

(** [ORDER BY]: [before x y] says that [x] may come before [y]; rows
    that compare equal keep their order. *)
Fixpoint insert_sorted (before : A -> A -> bool) (x : A) (l : list A) : list A :=
  match l with
  | [] => [x]
  | y :: l' => if before x y then x :: y :: l' else y :: insert_sorted before x l'
  end.

Definition order_by (before : A -> A -> bool) (l : list A) : list A :=
  foldr (insert_sorted before) [] l.

(** [LIMIT n]. *)
Definition limit (n : nat) (l : list A) : list A := firstn n l.

(** [COUNT( * )]. *)
Definition count_star (l : list A) : Z := Z.of_nat (length l).

End Relational.

(** [SUM] and [AVG] of a DOUBLE expression: NULL inputs are skipped, and
    the result is NULL when no input is left. *)
Definition sql_sum (l : list (option Q)) : option Q :=
  match omap id l with
  | [] => None
  | x :: xs => Some (fold_left Qplus xs x)
  end.

Definition sql_avg (l : list (option Q)) : option Q :=
  match omap id l with
  | [] => None
  | x :: xs => Some (fold_left Qplus xs x / inject_Z (Z.of_nat (length (x :: xs))))%Q
  end.

(* ===================================================================== *)
(** ** Trip files and the unified view *)
(* ===================================================================== *)

(** A row of a monthly trip file, restricted to the columns the pipeline
    names.  The two timestamp columns are [tpep_*] in a yellow file and
    [lpep_*] in a green file. *)
Module Raw.
Record row := mk_row {
  VendorID : option Z;
  pickup_datetime : option timestamp;
  dropoff_datetime : option timestamp;
  PULocationID : option Z;
  DOLocationID : option Z;
  trip_distance : option Q;
  fare_amount : option Q;
  total_amount : option Q;
  congestion_surcharge : option Q
}.
End Raw.

(** A row of the view [all_trips_2025]. *)
Record trip := mk_trip {
  VendorID : option Z;
  type : taxi;
  pickup_time : option timestamp;
  dropoff_time : option timestamp;
  pickup_loc : option Z;
  dropoff_loc : option Z;
  trip_distance : option Q;
  fare : option Q;
  total_amount : option Q;
  congestion_surcharge : option Q
}.

(** One branch of the [UNION ALL] of [query_view]. *)
Definition view_select (t : taxi) (r : Raw.row) : trip :=
  {| VendorID := Raw.VendorID r;
     type := t;
     pickup_time := Raw.pickup_datetime r;
     dropoff_time := Raw.dropoff_datetime r;
     pickup_loc := Raw.PULocationID r;
     dropoff_loc := Raw.DOLocationID r;
     trip_distance := Raw.trip_distance r;
     fare := Raw.fare_amount r;
     total_amount := Raw.total_amount r;
     congestion_surcharge := Some (Sql.coalesce (Raw.congestion_surcharge r) 0%Q) |}.

Definition query_view (yellow_rows green_rows : list Raw.row) : list trip :=
  map (view_select yellow) yellow_rows ++ map (view_select green) green_rows.

(* ===================================================================== *)
(** ** Phase 2: the ghost-trip audit query *)
(* ===================================================================== *)

Inductive flag := ImpossiblePhysics | Teleporter | StationaryRide | OK.

Definition flag_label (f : flag) : string :=
  match f with
  | ImpossiblePhysics => "Impossible Physics"
  | Teleporter => "Teleporter"
  | StationaryRide => "Stationary Ride"
  | OK => "OK"
  end.

(** A row of [ghost_trip_audit.csv]: the view row ([SELECT *]) and the
    three computed columns. *)
Record audit_row := mk_audit_row {
  audit_trip : trip;
  duration_min : option Z;
  speed_mph : option Q;
  fraud_flag : flag
}.

Definition minutes (t : trip) : option Z :=
  date_diff_minute (pickup_time t) (dropoff_time t).

(** The [CASE] of the column [speed_mph]. *)
Definition speed_mph_case (t : trip) : option Q :=
  if Sql.holds (Sql.lez (minutes t) (Some 0))
  then Some 0%Q
  else Sql.div (trip_distance t) (Sql.div (Sql.of_int (minutes t)) (Some 60%Q)).

(** The [CASE] of the column [fraud_flag]. *)
Definition fraud_flag_case (t : trip) : flag :=
  if Sql.holds
       (Sql.gt (Sql.div (trip_distance t)
                  (Sql.div (Sql.greatest (Sql.of_int (minutes t)) (Some (1 # 10)%Q))
                           (Some 60%Q)))
               (Some GHOST_SPEED_LIMIT))
  then ImpossiblePhysics
  else if Sql.holds
       (Sql.and3 (Sql.lt (Sql.of_int (minutes t)) (Some GHOST_I_TELEPORTER_TIME))
                 (Sql.gt (fare t) (Some GHOST_I_TELEPORTER_FARE)))
  then Teleporter
  else if Sql.holds
       (Sql.and3 (Sql.eq (trip_distance t) (Some GHOST_I_STATIONARY_DIST))
                 (Sql.gt (fare t) (Some 0%Q)))
  then StationaryRide
  else OK.

(** The [WHERE] clause of the audit query. *)
Definition audit_where (t : trip) : option bool :=
  Sql.or3
    (Sql.or3
       (Sql.gt (Sql.div (trip_distance t)
                  (Sql.div (Sql.greatest (Sql.of_int (minutes t)) (Some (1 # 10)%Q))
                           (Some 60%Q)))
               (Some GHOST_SPEED_LIMIT))
       (Sql.and3 (Sql.lt (Sql.of_int (minutes t)) (Some GHOST_I_TELEPORTER_TIME))
                 (Sql.gt (fare t) (Some GHOST_I_TELEPORTER_FARE))))
    (Sql.and3 (Sql.eq (trip_distance t) (Some GHOST_I_STATIONARY_DIST))
              (Sql.gt (fare t) (Some 0%Q))).

Definition audit_select (t : trip) : audit_row :=
  {| audit_trip := t;
     duration_min := minutes t;
     speed_mph := speed_mph_case t;
     fraud_flag := fraud_flag_case t |}.

Definition audit_query (all_trips_2025 : list trip) : list audit_row :=
  map audit_select (filter (fun t => Sql.holds (audit_where t) = true) all_trips_2025).

(** [vendor_query]: flagged rows per [VendorID], largest count first, five
    rows at most. *)
Definition vendor_query (audit : list audit_row) : list (option Z * Z) :=
  limit 5
    (order_by (fun a b => snd b <=? snd a)
       (map (fun g => (fst g, count_star (snd g)))
            (group_by (fun r => VendorID (audit_trip r)) audit))).

(* ===================================================================== *)
(** ** Phase 3: the aggregation queries *)
(* ===================================================================== *)

(** The toll start date, [start_date = '2025-01-05']. *)
Definition start_date : option timestamp := Some (midnight 2025 1 5).

(** *** Revenue *)

Definition rev_query (all_trips_2025 : list trip) : option Q :=
  sql_sum
    (map congestion_surcharge
       (filter
          (fun t => Sql.holds
             (Sql.and3 (ts_ge (pickup_time t) start_date)
                (Sql.or3 (Sql.in_list (pickup_loc t) CONGESTION_ZONE_IDS)
                         (Sql.in_list (dropoff_loc t) CONGESTION_ZONE_IDS))) = true)
          all_trips_2025)).

(** *** Leakage *)

Record leakage_row := mk_leakage_row {
  leak_pickup_loc : option Z;
  total_trips : Z;
  compliant_trips : option Z;
  compliance_rate : option Q;
  leakage_rate : option Q
}.

(** [SUM] of an integer expression; NULL over no rows. *)
Definition sql_sum_int (l : list Z) : option Z :=
  match l with
  | [] => None
  | _ => Some (fold_right Z.add 0 l)
  end.

(** [SUM(CASE WHEN congestion_surcharge > 0 THEN 1 ELSE 0 END)]. *)
Definition sum_compliant (g : list trip) : option Z :=
  sql_sum_int
    (map (fun t => if Sql.holds (Sql.gt (congestion_surcharge t) (Some 0%Q))
                   then 1 else 0) g).

Definition leakage_where (t : trip) : option bool :=
  Sql.and3
    (Sql.and3 (ts_ge (pickup_time t) start_date)
              (Sql.not3 (Sql.in_list (pickup_loc t) CONGESTION_ZONE_IDS)))
    (Sql.in_list (dropoff_loc t) CONGESTION_ZONE_IDS).

(** The select list.  [CAST(SUM(...) AS FLOAT) / COUNT( * )] divides two
    FLOAT operands, the count being converted to FLOAT first, and
    [1.0 - ...] subtracts from the literal converted to FLOAT: both rates
    are single-precision values. *)
Definition leakage_select (g : option Z * list trip) : leakage_row :=
  {| leak_pickup_loc := fst g;
     total_trips := count_star (snd g);
     compliant_trips := sum_compliant (snd g);
     compliance_rate :=
       Sql.divf (Sql.to_float (Sql.of_int (sum_compliant (snd g))))
                (Sql.to_float (Some (inject_Z (count_star (snd g)))));
     leakage_rate :=
       Sql.subf (Sql.to_float (Some 1%Q))
                (Sql.divf (Sql.to_float (Sql.of_int (sum_compliant (snd g))))
                          (Sql.to_float (Some (inject_Z (count_star (snd g)))))) |}.

(** Descending order on a nullable DOUBLE key, NULLs last. *)
Definition desc_nulls_last (a b : option Q) : bool :=
  match a, b with
  | Some x, Some y => Qle_bool y x
  | Some _, None => true
  | None, Some _ => false
  | None, None => true
  end.

Definition leakage_query (all_trips_2025 : list trip) : list leakage_row :=
  limit 20
    (order_by (fun a b => desc_nulls_last (leakage_rate a) (leakage_rate b))
       (map leakage_select
          (filter (fun g => (count_star (snd g) >? 100) = true)
             (group_by pickup_loc
                (filter (fun t => Sql.holds (leakage_where t) = true)
                        all_trips_2025))))).

(** *** Q1 volume *)

Definition month_of (t : option timestamp) : option Z := option_map month t.

(** The query [q_zone] of [get_q1_count(year)]: both branches of its
    [UNION ALL] project [(dropoff, DOLocationID)]. *)
Definition q_zone (y : Z) (yellow_rows green_rows : list Raw.row) : Z :=
  count_star
    (filter
       (fun r : option timestamp * option Z => Sql.holds
          (Sql.and3
             (Sql.and3
                (Sql.and3 (Sql.in_list (month_of (fst r)) [1; 2; 3])
                          (ts_ge (fst r) (Some (midnight y 1 1))))
                (ts_lt (fst r) (Some (midnight y 4 1))))
             (Sql.in_list (snd r) CONGESTION_ZONE_IDS)) = true)
       (map (fun r => (Raw.dropoff_datetime r, Raw.DOLocationID r)) yellow_rows
        ++ map (fun r => (Raw.dropoff_datetime r, Raw.DOLocationID r)) green_rows)).

(** [diff = (q1_2025 - q1_2024) / q1_2024 * 100 if q1_2024 > 0 else 0]. *)
Definition q1_pct_change (q1_2024 q1_2025 : Z) : Q :=
  if q1_2024 >? 0
  then (inject_Z (q1_2025 - q1_2024) / inject_Z q1_2024 * 100)%Q
  else 0%Q.

(** *** Velocity heatmap *)

Record velocity_row := mk_velocity_row {
  dow : option Z;
  vel_hour : option Z;
  avg_speed : option Q
}.

Definition velocity_speed (r : Raw.row) : option Q :=
  Sql.div (Raw.trip_distance r)
    (Sql.div
       (Sql.greatest
          (Sql.of_int (date_diff_minute (Raw.pickup_datetime r) (Raw.dropoff_datetime r)))
          (Some 1%Q))
       (Some 60%Q)).

Definition velocity_where (r : Raw.row) : option bool :=
  Sql.and3
    (Sql.and3
       (Sql.and3
          (Sql.and3 (Sql.in_list (month_of (Raw.pickup_datetime r)) [1; 2; 3])
                    (Sql.in_list (Raw.DOLocationID r) CONGESTION_ZONE_IDS))
          (Sql.gtz (date_diff_minute (Raw.pickup_datetime r) (Raw.dropoff_datetime r))
                   (Some 1)))
       (Sql.gt (Raw.trip_distance r) (Some (1 # 10)%Q)))
    (Sql.lt (velocity_speed r) (Some 100%Q)).

Definition velocity_query (yellow_rows : list Raw.row) : list velocity_row :=
  map (fun g : (option Z * option Z) * list Raw.row =>
         {| dow := fst (fst g);
            vel_hour := snd (fst g);
            avg_speed := sql_avg (map velocity_speed (snd g)) |})
      (group_by (fun r => (option_map dayofweek (Raw.pickup_datetime r),
                           option_map hour (Raw.pickup_datetime r)))
         (filter (fun r => Sql.holds (velocity_where r) = true) yellow_rows)).

(** *** Border effect *)

Record border_row := mk_border_row {
  location_id : option Z;
  count_2024 : Z;
  count_2025 : Z;
  border_diff : Z;
  pct_change : option Q
}.

(** The common table expressions [q1_2024] and [q1_2025]: Q1 drop-offs per
    [DOLocationID] in the yellow files of one year, as rows [(loc, cnt)]. *)
Definition q1_dropoffs (yellow_rows : list Raw.row) : list (option Z * Z) :=
  map (fun g => (fst g, count_star (snd g)))
      (group_by Raw.DOLocationID
         (filter (fun r => Sql.holds
                    (Sql.in_list (month_of (Raw.dropoff_datetime r)) [1; 2; 3]) = true)
                 yellow_rows)).

(** [a FULL OUTER JOIN b ON a.loc = b.loc].  A side that found no partner
    is [None]: all its columns read NULL. *)
Definition full_outer_join (a b : list (option Z * Z))
  : list (option (option Z * Z) * option (option Z * Z)) :=
  flat_map
    (fun x =>
       match filter (fun y => Sql.holds (Sql.eqz (fst x) (fst y)) = true) b with
       | [] => [(Some x, None)]
       | ys => map (fun y => (Some x, Some y)) ys
       end) a
  ++ map (fun y => (None, Some y))
       (filter (fun y =>
                  filter (fun x => Sql.holds (Sql.eqz (fst x) (fst y)) = true) a = [])
               b).

Definition side_loc (s : option (option Z * Z)) : option Z :=
  match s with
  | Some x => fst x
  | None => None
  end.

Definition side_cnt (s : option (option Z * Z)) : option Z := option_map snd s.

Definition border_select (j : option (option Z * Z) * option (option Z * Z))
  : border_row :=
  let a := fst j in
  let b := snd j in
  {| location_id := match side_loc a with Some l => Some l | None => side_loc b end;
     count_2024 := Sql.coalesce (side_cnt a) 0;
     count_2025 := Sql.coalesce (side_cnt b) 0;
     border_diff := Sql.coalesce (side_cnt b) 0 - Sql.coalesce (side_cnt a) 0;
     pct_change :=
       if Sql.coalesce (side_cnt a) 0 >? 0
       then Sql.div
              (Some (inject_Z (Sql.coalesce (side_cnt b) 0 - Sql.coalesce (side_cnt a) 0)%Z
                     * 100)%Q)
              (Sql.of_int (side_cnt a))
       else Some 0%Q |}.

Definition border_query (yellow_2024 yellow_2025 : list Raw.row) : list border_row :=
  map border_select
      (full_outer_join (q1_dropoffs yellow_2024) (q1_dropoffs yellow_2025)).

(* ===================================================================== *)
(** ** Phase 4: daily trips, tip economics, weather join *)
(* ===================================================================== *)

(** Ascending order on a nullable integer-like key, NULLs last. *)
Definition asc_nulls_last {K} (leb : K -> K -> bool) (a b : option K) : bool :=
  match a, b with
  | Some x, Some y => leb x y
  | Some _, None => true
  | None, Some _ => false
  | None, None => true
  end.

Definition date_leb (a b : date) : bool :=
  match a, b with
  | (y1, m1, d1), (y2, m2, d2) =>
      (y1 <? y2) || ((y1 =? y2) && ((m1 <? m2) || ((m1 =? m2) && (d1 <=? d2))))
  end.

Definition daily_trips_query (all_trips_2025 : list trip) : list (option date * Z) :=
  order_by (fun a b => asc_nulls_last date_leb (fst a) (fst b))
    (map (fun g => (fst g, count_star (snd g)))
         (group_by (fun t => option_map date_of (pickup_time t)) all_trips_2025)).

Record tips_row := mk_tips_row {
  tips_month : option Z;
  avg_surcharge : option Q;
  avg_tip_pct : option Q
}.

(** [CASE WHEN fare > 0 THEN (total_amount - fare) / fare ELSE 0 END]. *)
Definition tip_ratio (t : trip) : option Q :=
  if Sql.holds (Sql.gt (fare t) (Some 0%Q))
  then Sql.div (Sql.sub (total_amount t) (fare t)) (fare t)
  else Some 0%Q.

Definition tips_query (all_trips_2025 : list trip) : list tips_row :=
  order_by (fun a b => asc_nulls_last Z.leb (tips_month a) (tips_month b))
    (map (fun g : option Z * list trip =>
            {| tips_month := fst g;
               avg_surcharge := sql_avg (map congestion_surcharge (snd g));
               avg_tip_pct := Sql.mul (sql_avg (map tip_ratio (snd g))) (Some 100%Q) |})
         (group_by (fun t => month_of (pickup_time t)) all_trips_2025)).

(** [pd.merge(df_trips, df_weather, on='date')]: inner join on the [date]
    column, left order kept; then [dropna()] removes every row that has a
    missing value. *)
Definition merge_on_date (df_trips : list (option date * Z))
  (df_weather : list (option date * option Q))
  : list (option date * Z * option Q) :=
  flat_map
    (fun l => map (fun r => (fst l, snd l, snd r))
                  (filter (fun r => fst r = fst l) df_weather))
    df_trips.

Definition dropna (df : list (option date * Z * option Q)) : list (date * Z * Q) :=
  omap (fun r =>
          match r with
          | (Some d, n, Some p) => Some (d, n, p)
          | _ => None
          end) df.

(* ===================================================================== *)
(** ** The driver: files, oracles, world *)
(* ===================================================================== *)

(** The summary record dumped to [impact_stats.json]. *)
Record stats := mk_stats {
  revenue_2025 : Q;
  q1_2024_vol : Z;
  q1_2025_vol : Z;
  stats_q1_pct_change : Q;
  ghost_count : Z;
  suspicious_vendors : list (option Z * Z)
}.

(** What a file holds.  Tables are kept as their rows; [Blob] is any
    payload the pipeline never reads (the zone lookup table); a numeric
    result of the statistics library is an [option Q], [None] standing for
    [nan]. *)
Inductive content :=
| Parquet (rows : list Raw.row)
| Blob
| AuditCsv (rows : list audit_row)
| LeakageCsv (rows : list leakage_row)
| VelocityCsv (rows : list velocity_row)
| BorderCsv (rows : list border_row)
| DailyTripsCsv (rows : list (option date * Z))
| TipsCsv (rows : list tips_row)
| WeatherCsv (rows : list (option date * option Q))
| StatsJson (s : stats)
| ElasticityTxt (correlation slope : option Q).

Record file := mk_file {
  st_size : Z;
  data : content
}.

(** The statements the driver submits to the engine, one per call site. *)
Inductive query :=
| SetMemoryLimit
| SetThreads
| ImputeCopy (t : taxi)
| CreateView
| AuditCopy
| AuditCount
| VendorQuery
| RevQuery
| LeakageCopy
| QZone (y : Z)
| VelocityCopy (y : Z)
| BorderCopy
| DailyTripsCopy
| TipsCopy.

Inductive exn :=
| EngineError (q : query)
| NoFilesFound (glob : string)
| InvalidInput (path : string)
| CatalogError (name : string)
| ConnectionError
| RequestError (url : string)
| FileNotFoundError (path : string)
| ValueError.

(** What lies outside the program.
    - [http_get url]: the payload of a successful GET of the trip archive,
      [None] when the request or its status check raises.
    - [weather_archive]: the two arrays [daily.time] and
      [daily.precipitation_sum] of the weather API, [None] when the
      request raises.
    - [random n]: the [n]-th value drawn by the engine's [random()].
    - [engine_fault q]: the engine raises on statement [q] for a reason of
      its own (I/O, memory, schema).
    - [encoded_size c]: the byte size of [c] once written.
    - [PANDAS_AVAILABLE], [SCIPY_AVAILABLE]: the import flags.
    - [corr], [linregress]: the statistics library on the merged frame;
      [linregress] gives the slope, or [None] when it raises. *)
Record environment := mk_environment {
  http_get : string -> option file;
  weather_archive : option (list date * list (option Q));
  random : nat -> Q;
  engine_fault : query -> bool;
  encoded_size : content -> Z;
  PANDAS_AVAILABLE : bool;
  SCIPY_AVAILABLE : bool;
  corr : list (date * Z * Q) -> option Q;
  linregress : list (date * Z * Q) -> option (option Q)
}.

(** One line of console output per [print] site, with the values it shows. *)
Inductive message :=
| MsgDownloading (url name : string)
| MsgDownloaded (name : string)
| MsgDownloadFailed (url : string) (e : exn)
| MsgPhase1
| MsgCheckingDecember
| MsgAlreadyExists (name : string)
| MsgGenerating (t : taxi)
| MsgMissingSource (t : taxi)
| MsgSampling
| MsgImputed (name : string)
| MsgImputeError (t : taxi) (e : exn)
| MsgPhase2
| MsgViewError (e : exn)
| MsgExecutingAudit
| MsgFlagged (count : Z)
| MsgAuditingVendors
| MsgTopVendor (v : option (option Z))
| MsgPhase3
| MsgRevenue (revenue : Q)
| MsgLeakageSaved
| MsgCalculatingQ1
| MsgQ1 (q1_2024 q1_2025 : Z) (diff : Q)
| MsgGeneratingVelocity
| MsgVelocityFailed (y : Z) (e : exn)
| MsgGeneratingBorder
| MsgBorderFailed (e : exn)
| MsgPhase4
| MsgWeatherDownloaded
| MsgWeatherDownloadedManual
| MsgWeatherFailed (e : exn)
| MsgElasticity (correlation : option Q)
| MsgEconomicsError (e : exn)
| MsgBanner
| MsgStarting
| MsgInitializing
| MsgCritical (e : exn)
| MsgCompleted.

(** Observable actions, in the order they happen. *)
Inductive event :=
| Print (m : message)
| Execute (q : query)
| Request (url : string)
| Write (path : string)
| Unlink (path : string)
| Traceback (e : exn).

(** The state the driver runs in.  [connection] is [None] while no
    connection is open, and [Some v] for an open in-memory database whose
    catalog has the view [all_trips_2025] iff [v]; connections are used one
    after the other, so one slot is enough.  [draws] counts the values
    taken from [random]. *)
Record world := mk_world {
  env : environment;
  files : gmap string file;
  connection : option bool;
  draws : nat;
  trace : list event
}.

Definition set_files (f : gmap string file) (w : world) : world :=
  mk_world (env w) f (connection w) (draws w) (trace w).
Definition set_connection (c : option bool) (w : world) : world :=
  mk_world (env w) (files w) c (draws w) (trace w).
Definition set_draws (n : nat) (w : world) : world :=
  mk_world (env w) (files w) (connection w) n (trace w).
Definition set_trace (t : list event) (w : world) : world :=
  mk_world (env w) (files w) (connection w) (draws w) t.

(* ===================================================================== *)
(** ** The driver monad *)
(* ===================================================================== *)

Inductive result (A : Type) :=
| Ok (a : A) (w : world)
| Raise (e : exn) (w : world).
Arguments Ok {A} a w.
Arguments Raise {A} e w.

Definition M (A : Type) : Type := world -> result A.

Definition ret {A} (a : A) : M A := fun w => Ok a w.

Definition bind {A B} (m : M A) (k : A -> M B) : M B :=
  fun w =>
    match m w with
    | Ok a w' => k a w'
    | Raise e w' => Raise e w'
    end.

Definition raise {A} (e : exn) : M A := fun w => Raise e w.

(** [try: m except Exception as e: h e]. *)
Definition try_except {A} (m : M A) (h : exn -> M A) : M A :=
  fun w =>
    match m w with
    | Ok a w' => Ok a w'
    | Raise e w' => h e w'
    end.

(** [try: m finally: f]. *)
Definition try_finally {A} (m : M A) (f : M unit) : M A :=
  fun w =>
    match m w with
    | Ok a w' =>
        match f w' with
        | Ok _ w'' => Ok a w''
        | Raise e w'' => Raise e w''
        end
    | Raise e w' =>
        match f w' with
        | Ok _ w'' => Raise e w''
        | Raise e' w'' => Raise e' w''
        end
    end.

Declare Scope driver_scope.
Delimit Scope driver_scope with driver.
Notation "x <- m ;; k" := (bind m (fun x => k))
  (at level 100, m at next level, right associativity) : driver_scope.
Notation "m ;;; k" := (bind m (fun _ => k))
  (at level 100, right associativity) : driver_scope.
Open Scope driver_scope.

Definition get {A} (f : world -> A) : M A := fun w => Ok (f w) w.

Definition emit (e : event) : M unit :=
  fun w => Ok tt (set_trace (trace w ++ [e]) w).

Definition print (m : message) : M unit := emit (Print m).

(** [for x in l: body x]. *)
Fixpoint for_each {A} (l : list A) (body : A -> M unit) : M unit :=
  match l with
  | [] => ret tt
  | x :: l' => body x ;;; for_each l' body
  end.

(** The world and the value of a run, whichever way it ended. *)
Definition final {A} (r : result A) : world :=
  match r with
  | Ok _ w => w
  | Raise _ w => w
  end.

(* ===================================================================== *)
(** ** Paths *)
(* ===================================================================== *)

(** Paths are written relative to [BASE_DIR], with [/] as separator. *)
Definition DATA_DIR : string := "data_downloads".
Definition OUTPUT_DIR : string := "output".
Definition CACHE_DIR : string := "cache".

Definition TLC_BASE_URL : string := "https://d37ci6vzurychx.cloudfront.net/trip-data".

Definition join (dir name : string) : string := dir +:+ "/" +:+ name.

(** [f"{month:02d}"]. *)
Definition two_digits (n : Z) : string :=
  if (0 <=? n) && (n <? 10) then "0" +:+ pretty n else pretty n.

(** [f"{taxi}_tripdata_{year}-{month:02d}.parquet"]. *)
Definition trip_file_name (t : taxi) (y m : Z) : string :=
  taxi_name t +:+ "_tripdata_" +:+ pretty y +:+ "-" +:+ two_digits m +:+ ".parquet".

(** [DATA_DIR / str(year) / taxi]. *)
Definition trip_dir (y : Z) (t : taxi) : string :=
  join (join DATA_DIR (pretty y)) (taxi_name t).

Fixpoint strip_prefix (p s : string) : option string :=
  match p, s with
  | EmptyString, _ => Some s
  | String a p', String b s' => if Ascii.eqb a b then strip_prefix p' s' else None
  | String _ _, EmptyString => None
  end.

Definition ends_with (suffix s : string) : bool :=
  let n := String.length s in
  let k := String.length suffix in
  (k <=? n)%nat && String.eqb (substring (n - k) k s) suffix.

Fixpoint has_slash (s : string) : bool :=
  match s with
  | EmptyString => false
  | String c s' => Ascii.eqb c "/"%char || has_slash s'
  end.

(** The glob [dir/*.parquet]: the files directly in [dir] whose name ends
    in [.parquet]. *)
Definition glob_parquet (dir path : string) : bool :=
  match strip_prefix (dir +:+ "/") path with
  | Some name => negb (has_slash name) && ends_with ".parquet" name
  | None => false
  end.

(* ===================================================================== *)
(** ** Primitives of the driver *)
(* ===================================================================== *)

(** [path.exists()]. *)
Definition path_exists (path : string) : M bool :=
  get (fun w => bool_decide (is_Some (files w !! path))).

(** Creating or overwriting a file. *)
Definition write_file (path : string) (f : file) : M unit :=
  fun w => Ok tt (set_trace (trace w ++ [Write path]) (set_files (<[path := f]> (files w)) w)).

(** Writing a table or text produced by the program. *)
Definition write_content (path : string) (c : content) : M unit :=
  sz <- get (fun w => encoded_size (env w) c) ;;
  write_file path (mk_file sz c).

Definition unlink (path : string) : M unit :=
  fun w => Ok tt (set_trace (trace w ++ [Unlink path]) (set_files (delete path (files w)) w)).

(** [conn.execute(q)]: the statement is submitted on an open connection;
    the engine may fail on it for reasons of its own, and otherwise
    evaluates it. *)
Definition execute {A} (q : query) (eval : M A) : M A :=
  emit (Execute q) ;;;
  c <- get connection ;;
  match c with
  | None => raise ConnectionError
  | Some _ =>
      bad <- get (fun w => engine_fault (env w) q) ;;
      if bad then raise (EngineError q) else eval
  end.

(** The files a glob expands to, with their paths. *)
Definition expand_glob (dir : string) (fs : gmap string file) : list (string * file) :=
  filter (fun pf => glob_parquet dir (fst pf) = true) (map_to_list fs).

(** Rows of the files of a list, or the path of one that is not a trip
    file. *)
Fixpoint parquet_rows (l : list (string * file)) : string + list Raw.row :=
  match l with
  | [] => inr []
  | (path, f) :: l' =>
      match data f with
      | Parquet rows =>
          match parquet_rows l' with
          | inr rest => inr (rows ++ rest)
          | inl bad => inl bad
          end
      | _ => inl path
      end
  end.

(** What [read_parquet('dir/*.parquet', union_by_name=True)] finds on a
    disk: it fails when the glob matches no file. *)
Definition scan (dir : string) (fs : gmap string file) : exn + list Raw.row :=
  match expand_glob dir fs with
  | [] => inl (NoFilesFound (join dir "*.parquet"))
  | l =>
      match parquet_rows l with
      | inr rows => inr rows
      | inl bad => inl (InvalidInput bad)
      end
  end.

Definition read_parquet (dir : string) : M (list Raw.row) :=
  fs <- get files ;;
  match scan dir fs with
  | inr rows => ret rows
  | inl e => raise e
  end.

(** Reading one trip file by its path. *)
Definition read_parquet_file (path : string) : M (list Raw.row) :=
  fs <- get files ;;
  match fs !! path with
  | None => raise (FileNotFoundError path)
  | Some f =>
      match data f with
      | Parquet rows => ret rows
      | _ => raise (InvalidInput path)
      end
  end.

(** Scanning the view [all_trips_2025]: the view must be in the catalog,
    and its two globs are expanded again at each scan. *)
Definition all_trips_2025 : M (list trip) :=
  c <- get connection ;;
  match c with
  | Some true =>
      ys <- read_parquet (join DATA_DIR "2025/yellow") ;;
      gs <- read_parquet (join DATA_DIR "2025/green") ;;
      ret (query_view ys gs)
  | _ => raise (CatalogError "all_trips_2025")
  end.

(** [get_duckdb_conn()]: a fresh in-memory database and two settings. *)
Definition get_duckdb_conn : M unit :=
  (fun w => Ok tt (set_connection (Some false) w)) ;;;
  execute SetMemoryLimit (ret tt) ;;;
  execute SetThreads (ret tt).

(** [conn.close()]. *)
Definition close : M unit :=
  fun w => Ok tt (set_connection None w).

(* ===================================================================== *)
(** ** Phase 1: ingestion and imputation *)
(* ===================================================================== *)

(** [download_file(url, dest_path)], with [dest_path = dir / name].  A
    request that fails leaves no file at [dest_path]. *)
Definition download_file (url dir name : string) : M unit :=
  let dest_path := join dir name in
  fs <- get files ;;
  if match fs !! dest_path with
     | Some f => st_size f >? 1024
     | None => false
     end
  then ret tt
  else
    print (MsgDownloading url name) ;;;
    try_except
      (emit (Request url) ;;;
       response <- get (fun w => http_get (env w) url) ;;
       match response with
       | None => raise (RequestError url)
       | Some f => write_file dest_path f ;;; print (MsgDownloaded name)
       end)
      (fun e =>
         print (MsgDownloadFailed url e) ;;;
         there <- path_exists dest_path ;;
         if there then unlink dest_path else ret tt).

(** The [SELECT * REPLACE (...)] of the imputation: both timestamps moved
    forward by [n] years. *)
Definition shift_years (n : Z) (r : Raw.row) : Raw.row :=
  Raw.mk_row (Raw.VendorID r)
    (option_map (add_years n) (Raw.pickup_datetime r))
    (option_map (add_years n) (Raw.dropoff_datetime r))
    (Raw.PULocationID r) (Raw.DOLocationID r) (Raw.trip_distance r)
    (Raw.fare_amount r) (Raw.total_amount r) (Raw.congestion_surcharge r).

(** Rows kept by [WHERE random() < rate], the [i]-th row of the scan
    reading the draw of index [start + i]. *)
Fixpoint keep_random (rnd : nat -> Q) (rate : Q) (start : nat) (rows : list Raw.row)
  : list Raw.row :=
  match rows with
  | [] => []
  | r :: rows' =>
      if Sql.Qlt_bool (rnd start) rate
      then r :: keep_random rnd rate (S start) rows'
      else keep_random rnd rate (S start) rows'
  end.

Definition sample (rate : Q) (rows : list Raw.row) : M (list Raw.row) :=
  fun w =>
    Ok (keep_random (random (env w)) rate (draws w) rows)
       (set_draws (draws w + length rows)%nat w).

(** The [COPY (... UNION ALL ...) TO target] of the imputation. *)
Definition impute_copy (src_2023 src_2024 target_file : string) : M unit :=
  rows_2023 <- read_parquet_file src_2023 ;;
  rows_2024 <- read_parquet_file src_2024 ;;
  part_2023 <- sample (3 # 10)%Q rows_2023 ;;
  part_2024 <- sample (7 # 10)%Q rows_2024 ;;
  write_content target_file
    (Parquet (map (shift_years 2) part_2023 ++ map (shift_years 1) part_2024)).

Definition target_file (t : taxi) : string :=
  join (trip_dir 2025 t) (trip_file_name t 2025 12).

(** The body of the loop of [impute_december_data]. *)
Definition impute_taxi (t : taxi) : M unit :=
  there <- path_exists (target_file t) ;;
  if there then print (MsgAlreadyExists (trip_file_name t 2025 12))
  else
    print (MsgGenerating t) ;;;
    let src_2023 := join (trip_dir 2023 t) (trip_file_name t 2023 12) in
    let src_2024 := join (trip_dir 2024 t) (trip_file_name t 2024 12) in
    has_2023 <- path_exists src_2023 ;;
    has_2024 <- path_exists src_2024 ;;
    if negb has_2023 || negb has_2024 then print (MsgMissingSource t)
    else
      try_except
        (print MsgSampling ;;;
         execute (ImputeCopy t) (impute_copy src_2023 src_2024 (target_file t)) ;;;
         print (MsgImputed (trip_file_name t 2025 12)))
        (fun e => print (MsgImputeError t e)).

Definition impute_december_data : M unit :=
  get_duckdb_conn ;;;
  for_each TAXI_TYPES impute_taxi.

(** [required_downloads]: 2025 January to November, 2024 in full, and
    December 2023. *)
Definition required_downloads : list (Z * Z * taxi) :=
  flat_map (fun m => map (fun t => (2025, m, t)) TAXI_TYPES) (seqZ 1 11)
  ++ flat_map (fun m => map (fun t => (2024, m, t)) TAXI_TYPES) (seqZ 1 12)
  ++ map (fun t => (2023, 12, t)) TAXI_TYPES.

Definition ensure_data_available : M unit :=
  print MsgPhase1 ;;;
  download_file "https://d37ci6vzurychx.cloudfront.net/misc/taxi+_zone_lookup.csv"
    DATA_DIR "taxi_zone_lookup.csv" ;;;
  for_each required_downloads
    (fun d =>
       match d with
       | (y, m, t) =>
           download_file (join TLC_BASE_URL (trip_file_name t y m))
             (trip_dir y t) (trip_file_name t y m)
       end) ;;;
  print MsgCheckingDecember ;;;
  impute_december_data.

(* ===================================================================== *)
(** ** Phase 2: the ghost-trip audit *)
(* ===================================================================== *)

Definition audit_file : string := join OUTPUT_DIR "ghost_trip_audit.csv".

(** [CREATE OR REPLACE VIEW all_trips_2025 AS ...]: both globs are
    expanded when the view is bound. *)
Definition create_view : M unit :=
  execute CreateView
    (read_parquet (join DATA_DIR "2025/yellow") ;;;
     read_parquet (join DATA_DIR "2025/green") ;;;
     fun w => Ok tt (set_connection (Some true) w)).

(** Reading back the audit table by its path. *)
Definition read_audit_file : M (list audit_row) :=
  fs <- get files ;;
  match fs !! audit_file with
  | None => raise (FileNotFoundError audit_file)
  | Some f =>
      match data f with
      | AuditCsv rows => ret rows
      | _ => raise (InvalidInput audit_file)
      end
  end.

Definition run_ghost_trip_audit : M (Z * list (option Z * Z)) :=
  print MsgPhase2 ;;;
  built <- try_except (create_view ;;; ret true)
             (fun e => print (MsgViewError e) ;;; ret false) ;;
  if negb built then ret (0, [])
  else
    print MsgExecutingAudit ;;;
    execute AuditCopy
      (trips <- all_trips_2025 ;;
       write_content audit_file (AuditCsv (audit_query trips))) ;;;
    count <- execute AuditCount (rows <- read_audit_file ;; ret (count_star rows)) ;;
    print (MsgFlagged count) ;;;
    print MsgAuditingVendors ;;;
    vendors <- execute VendorQuery (rows <- read_audit_file ;; ret (vendor_query rows)) ;;
    print (MsgTopVendor (option_map fst (head vendors))) ;;;
    ret (count, vendors).

(* ===================================================================== *)
(** ** Phase 3: impact analysis *)
(* ===================================================================== *)

Definition leakage_file : string := join OUTPUT_DIR "leakage_analysis.csv".
Definition border_file : string := join OUTPUT_DIR "border_effect.csv".
Definition stats_file : string := join OUTPUT_DIR "impact_stats.json".
Definition velocity_file (y : Z) : string :=
  join OUTPUT_DIR ("velocity_" +:+ pretty y +:+ ".csv").

(** Job 1, revenue: [try: ... except: revenue = 0.0]. *)
Definition revenue_job : M Q :=
  try_except
    (fetched <- execute RevQuery (trips <- all_trips_2025 ;; ret (rev_query trips)) ;;
     let revenue := Sql.coalesce fetched 0%Q in
     print (MsgRevenue revenue) ;;;
     ret revenue)
    (fun _ => ret 0%Q).

(** Job 2, leakage: the [COPY] is not inside a [try]. *)
Definition leakage_job : M unit :=
  execute LeakageCopy
    (trips <- all_trips_2025 ;;
     write_content leakage_file (LeakageCsv (leakage_query trips))) ;;;
  print MsgLeakageSaved.

(** [get_q1_count(year)]: [try: return ... except: return 0]. *)
Definition get_q1_count (y : Z) : M Z :=
  try_except
    (execute (QZone y)
       (ys <- read_parquet (trip_dir y yellow) ;;
        gs <- read_parquet (trip_dir y green) ;;
        ret (q_zone y ys gs)))
    (fun _ => ret 0).

(** [export_velocity(year)]. *)
Definition export_velocity (y : Z) : M unit :=
  try_except
    (execute (VelocityCopy y)
       (ys <- read_parquet (trip_dir y yellow) ;;
        write_content (velocity_file y) (VelocityCsv (velocity_query ys))))
    (fun e => print (MsgVelocityFailed y e)).

(** Job 5, border effect. *)
Definition border_job : M unit :=
  try_except
    (execute BorderCopy
       (yg_2024 <- read_parquet (trip_dir 2024 yellow) ;;
        yg_2025 <- read_parquet (trip_dir 2025 yellow) ;;
        write_content border_file (BorderCsv (border_query yg_2024 yg_2025))))
    (fun e => print (MsgBorderFailed e)).

Definition run_impact_analysis (ghost_count : Z)
  (suspicious_vendors : list (option Z * Z)) : M unit :=
  print MsgPhase3 ;;;
  revenue <- revenue_job ;;
  leakage_job ;;;
  print MsgCalculatingQ1 ;;;
  q1_2024 <- get_q1_count 2024 ;;
  q1_2025 <- get_q1_count 2025 ;;
  let diff := q1_pct_change q1_2024 q1_2025 in
  print (MsgQ1 q1_2024 q1_2025 diff) ;;;
  write_content stats_file
    (StatsJson
       {| revenue_2025 := revenue;
          q1_2024_vol := q1_2024;
          q1_2025_vol := q1_2025;
          stats_q1_pct_change := diff;
          ghost_count := ghost_count;
          suspicious_vendors := suspicious_vendors |}) ;;;
  print MsgGeneratingVelocity ;;;
  export_velocity 2024 ;;;
  export_velocity 2025 ;;;
  print MsgGeneratingBorder ;;;
  border_job.

(* ===================================================================== *)
(** ** Phase 4: weather and economics *)
(* ===================================================================== *)

Definition weather_file : string := join CACHE_DIR "weather_2025.csv".
Definition out_trips : string := join OUTPUT_DIR "daily_trips_2025.csv".
Definition out_tips : string := join OUTPUT_DIR "tips_economics.csv".
Definition elasticity_file : string := join OUTPUT_DIR "elasticity.txt".

Definition weather_url : string := "https://archive-api.open-meteo.com/v1/archive".

Definition weather_rows (time : list date) (precipitation_sum : list (option Q))
  : list (option date * option Q) :=
  map (fun dp => (Some (fst dp), snd dp)) (combine time precipitation_sum).

(** Step 1: the weather series is fetched unless its file is there.  With
    pandas the two arrays must have one length.  The manual writer zips
    them, and ends each line with a backslash and the letter n instead of
    a line break: its file is a single header line, which reads back as a
    table without rows. *)
Definition fetch_weather : M unit :=
  there <- path_exists weather_file ;;
  if there then ret tt
  else
    try_except
      (emit (Request weather_url) ;;;
       response <- get (fun w => weather_archive (env w)) ;;
       match response with
       | None => raise (RequestError weather_url)
       | Some (time, precipitation_sum) =>
           pandas <- get (fun w => PANDAS_AVAILABLE (env w)) ;;
           if pandas
           then
             if (length time =? length precipitation_sum)%nat
             then write_content weather_file
                    (WeatherCsv (weather_rows time precipitation_sum)) ;;;
                  print MsgWeatherDownloaded
             else raise ValueError
           else
             write_content weather_file (WeatherCsv []) ;;;
             print MsgWeatherDownloadedManual
       end)
      (fun e => print (MsgWeatherFailed e)).

(** [pd.read_csv] of the two inputs of the elasticity step. *)
Definition read_daily_trips : M (list (option date * Z)) :=
  fs <- get files ;;
  match fs !! out_trips with
  | None => raise (FileNotFoundError out_trips)
  | Some f =>
      match data f with
      | DailyTripsCsv rows => ret rows
      | _ => raise (InvalidInput out_trips)
      end
  end.

Definition read_weather : M (list (option date * option Q)) :=
  fs <- get files ;;
  match fs !! weather_file with
  | None => raise (FileNotFoundError weather_file)
  | Some f =>
      match data f with
      | WeatherCsv rows => ret rows
      | _ => raise (InvalidInput weather_file)
      end
  end.

(** Step 4, elasticity. *)
Definition elasticity : M unit :=
  pandas <- get (fun w => PANDAS_AVAILABLE (env w)) ;;
  scipy <- get (fun w => SCIPY_AVAILABLE (env w)) ;;
  if pandas && scipy
  then
    try_except
      (df_trips <- read_daily_trips ;;
       df_weather <- read_weather ;;
       let df_merge := dropna (merge_on_date df_trips df_weather) in
       if Z.of_nat (length df_merge) >? 10
       then
         correlation <- get (fun w => corr (env w) df_merge) ;;
         fit <- get (fun w => linregress (env w) df_merge) ;;
         match fit with
         | None => raise ValueError
         | Some slope =>
             print (MsgElasticity correlation) ;;;
             write_content elasticity_file (ElasticityTxt correlation slope)
         end
       else ret tt)
      (fun e => print (MsgEconomicsError e))
  else ret tt.

Definition fetch_weather_and_analyze : M unit :=
  print MsgPhase4 ;;;
  fetch_weather ;;;
  execute DailyTripsCopy
    (trips <- all_trips_2025 ;;
     write_content out_trips (DailyTripsCsv (daily_trips_query trips))) ;;;
  execute TipsCopy
    (trips <- all_trips_2025 ;;
     write_content out_tips (TipsCsv (tips_query trips))) ;;;
  elasticity.

(* ===================================================================== *)
(** ** Main orchestrator *)
(* ===================================================================== *)

(** The body of the [try] of [main]. *)
Definition main_stages : M unit :=
  audited <- run_ghost_trip_audit ;;
  run_impact_analysis (fst audited) (snd audited) ;;;
  fetch_weather_and_analyze.

(** The [try] / [except] / [finally] of [main]. *)
Definition main_guarded : M unit :=
  try_finally
    (try_except main_stages
       (fun e => print (MsgCritical e) ;;; emit (Traceback e)))
    close.

Definition main : M unit :=
  print MsgBanner ;;;
  print MsgStarting ;;;
  print MsgBanner ;;;
  ensure_data_available ;;;
  print MsgInitializing ;;;
  get_duckdb_conn ;;;
  main_guarded ;;;
  print MsgCompleted.

(* ===================================================================== *)
(** ** The specification's wording, for comparison *)
(* ===================================================================== *)

Module Spec.

(** "speed_filter_mph = distance / (max(duration_min, 0.1) / 60)". *)
Definition speed_filter_mph (distance : Q) (duration_min : Z) : Q :=
  (distance / (Qmax (inject_Z duration_min) (1 # 10) / 60))%Q.

(** "speed_mph (reported) = 0 when duration_min <= 0, else
    distance / (duration_min / 60)". *)
Definition speed_mph (distance : Q) (duration_min : Z) : Q :=
  if duration_min <=? 0 then 0%Q else (distance / (inject_Z duration_min / 60))%Q.

(** The duration the filter divides by; a missing duration counts as the
    floor itself. *)
Definition floored (duration_min : option Z) : Q :=
  match duration_min with
  | Some d => Qmax (inject_Z d) (1 # 10)
  | None => (1 # 10)%Q
  end.

(** Rule 1: filter speed above 65 mph. *)
Definition impossible_physics (t : trip) : Prop :=
  exists dist, trip_distance t = Some dist /\
               (65 < dist / (floored (minutes t) / 60))%Q.

(** Rule 2: duration under a minute and fare above 20 dollars. *)
Definition teleporter (t : trip) : Prop :=
  exists d f, minutes t = Some d /\ fare t = Some f /\ d < 1 /\ (20 < f)%Q.

(** Rule 3: no distance and a positive fare. *)
Definition stationary_ride (t : trip) : Prop :=
  exists dist f, trip_distance t = Some dist /\ fare t = Some f /\
                 (dist == 0)%Q /\ (0 < f)%Q.

Definition flagged (t : trip) : Prop :=
  impossible_physics t \/ teleporter t \/ stationary_ride t.

(** "first match wins, else OK". *)
Definition classified (t : trip) (f : flag) : Prop :=
  match f with
  | ImpossiblePhysics => impossible_physics t
  | Teleporter => ~ impossible_physics t /\ teleporter t
  | StationaryRide => ~ impossible_physics t /\ ~ teleporter t /\ stationary_ride t
  | OK => ~ flagged t
  end.

(** "percent change = (laterYear - earlierYear) / earlierYear x 100". *)
Definition percent_change (earlier later : Z) : Q :=
  ((inject_Z later - inject_Z earlier) / inject_Z earlier * 100)%Q.

End Spec.

(* ===================================================================== *)
(** ** Console formats *)
(* ===================================================================== *)

(** [f"{x:.2f}"] on an exact value: two decimals, ties to even. *)
Definition format_2f (x : Q) : string :=
  let c := round_half_even (Qabs x * 100) in
  (if Sql.Qlt_bool x 0 then "-" else "") +:+
  pretty (c / 100) +:+ "." +:+ two_digits (c mod 100).

(* ===================================================================== *)
(** ** Observations on a run, and readings of the specification *)
(* ===================================================================== *)

(** The rows of the first testable property: no distance, a fare above 0
    and at most 20 dollars, at least one minute. *)
Definition plain_stationary (t : trip) : Prop :=
  exists dist f d,
    trip_distance t = Some dist /\ fare t = Some f /\ minutes t = Some d /\
    (dist == 0)%Q /\ (0 < f)%Q /\ (f <= 20)%Q /\ 1 <= d.

(** A zone has Q1 drop-offs in the yellow files of a year. *)
Definition drops_in_q1 (yellow_rows : list Raw.row) (z : Z) : Prop :=
  exists r, r ∈ yellow_rows /\ Raw.DOLocationID r = Some z /\
            Sql.holds (Sql.in_list (month_of (Raw.dropoff_datetime r)) [1; 2; 3]) = true.

(** Its number of Q1 drop-offs. *)
Definition q1_count_of (yellow_rows : list Raw.row) (z : Z) : Z :=
  count_star
    (filter (fun r => Raw.DOLocationID r = Some z)
       (filter (fun r => Sql.holds
                  (Sql.in_list (month_of (Raw.dropoff_datetime r)) [1; 2; 3]) = true)
               yellow_rows)).

(** The statements submitted along a trace. *)
Definition executed (t : list event) : list query :=
  omap (fun e => match e with Execute q => Some q | _ => None end) t.

(** Events that neither touch a file, nor reach the network, nor run an
    imputation. *)
Definition harmless (e : event) : Prop :=
  match e with
  | Write _ | Unlink _ | Request _ | Execute (ImputeCopy _) => False
  | _ => True
  end.

(** The reading under which a failure to build the view is fatal: the
    audit raises to its caller, and the guarded part of [main] submits no
    statement after [CREATE VIEW]. *)
Definition view_failure_is_fatal (w : world) : Prop :=
  expand_glob (trip_dir 2025 yellow) (files w) = [] \/
  expand_glob (trip_dir 2025 green) (files w) = [] ->
  (exists e w', run_ghost_trip_audit w = Raise e w') /\
  (forall q, q ∈ executed (trace (final (main_guarded w))) ->
             q ∈ executed (trace w) \/ q = CreateView).

(** A console line that shows a given exception. *)
Definition mentions (m : message) (e : exn) : Prop :=
  match m with
  | MsgDownloadFailed _ e' | MsgImputeError _ e' | MsgViewError e'
  | MsgVelocityFailed _ e' | MsgBorderFailed e' | MsgWeatherFailed e'
  | MsgEconomicsError e' | MsgCritical e' => e' = e
  | _ => False
  end.

(** The statements of the six aggregation jobs. *)
Definition job_statements : list query :=
  [RevQuery; LeakageCopy; QZone 2024; QZone 2025;
   VelocityCopy 2024; VelocityCopy 2025; BorderCopy; TipsCopy].

(** The reading under which every job is isolated: when the engine fails
    on the statement [q] of a job, the two stages that hold the jobs still
    return, a console line shows the exception, and the statement of every
    job has been submitted. *)
Definition job_failure_isolated (q : query) (w : world) : Prop :=
  engine_fault (env w) q = true ->
  exists w',
    (run_impact_analysis 0 [] ;;; fetch_weather_and_analyze) w = Ok tt w' /\
    (exists m, mentions m (EngineError q) /\ Print m ∈ trace w') /\
    (forall q', q' ∈ job_statements -> q' ∈ executed (trace w')).

(** The reading under which ten joined rows are enough: with both
    libraries there, the inputs readable and no report from before, a
    report is written iff at least 10 rows are joined. *)
Definition reports_from_ten_rows (w : world) : Prop :=
  forall df_trips df_weather,
    PANDAS_AVAILABLE (env w) = true -> SCIPY_AVAILABLE (env w) = true ->
    data <$> (files w !! out_trips) = Some (DailyTripsCsv df_trips) ->
    data <$> (files w !! weather_file) = Some (WeatherCsv df_weather) ->
    files w !! elasticity_file = None ->
    (10 <= length (dropna (merge_on_date df_trips df_weather)))%nat <->
    is_Some (files (final (elasticity w)) !! elasticity_file).

(* ===================================================================== *)
(** ** Sample data *)
(* ===================================================================== *)

(** An environment with no network, no engine fault, a constant draw of
    one half and no statistics to report. *)
Definition quiet_env : environment :=
  {| http_get := fun _ => None;
     weather_archive := None;
     random := fun _ => (1 # 2)%Q;
     engine_fault := fun _ => false;
     encoded_size := fun _ => 2048;
     PANDAS_AVAILABLE := true;
     SCIPY_AVAILABLE := true;
     corr := fun _ => None;
     linregress := fun _ => Some None |}.

(** A trip of 1 March 2025 from [h1:m1:00] to [h2:m2:00], picked up in
    zone 7 (outside the congestion zone) and dropped in zone 4 (inside). *)
Definition sample_row (vendor h1 m1 h2 m2 : Z) (distance fare : Q) : Raw.row :=
  {| Raw.VendorID := Some vendor;
     Raw.pickup_datetime := Some (mk_timestamp 2025 3 1 h1 m1 0);
     Raw.dropoff_datetime := Some (mk_timestamp 2025 3 1 h2 m2 0);
     Raw.PULocationID := Some 7;
     Raw.DOLocationID := Some 4;
     Raw.trip_distance := Some distance;
     Raw.fare_amount := Some fare;
     Raw.total_amount := Some (fare + 3)%Q;
     Raw.congestion_surcharge := None |}.

(** Five yellow trips: an honest one; one at 120 mph; one of two miles in
    zero minutes for 30 dollars (rules 1 and 2); one that did not move in
    five minutes; one that did not move in zero minutes for 45 dollars
    (rules 2 and 3). *)
Definition sample_yellow : list Raw.row :=
  [ sample_row 1 10 0 10 30 5 25;
    sample_row 2 10 0 10 1 2 8;
    sample_row 2 11 0 11 0 2 30;
    sample_row 3 12 0 12 5 0 10;
    sample_row 3 13 0 13 0 0 45 ].

Definition sample_green : list Raw.row :=
  [ sample_row 4 9 0 9 20 3 15 ].

Definition sample_files : gmap string file :=
  <["data_downloads/2025/yellow/yellow_tripdata_2025-03.parquet" :=
      mk_file 4096 (Parquet sample_yellow)]>
  (<["data_downloads/2025/green/green_tripdata_2025-03.parquet" :=
      mk_file 4096 (Parquet sample_green)]> ∅).

(** A fresh connection over the sample files. *)
Definition sample_world : world :=
  {| env := quiet_env;
     files := sample_files;
     connection := Some false;
     draws := 0;
     trace := [] |}.

(** Submitter 1 has three trips of five minutes, no distance and a fare of
    10 dollars; a green trip of another submitter is honest. *)
Definition scenario_yellow : list Raw.row :=
  [ sample_row 1 8 0 8 5 0 10;
    sample_row 1 9 0 9 5 0 10;
    sample_row 1 10 0 10 5 0 10 ].

Definition scenario_world : world :=
  {| env := quiet_env;
     files :=
       <["data_downloads/2025/yellow/yellow_tripdata_2025-03.parquet" :=
           mk_file 4096 (Parquet scenario_yellow)]>
       (<["data_downloads/2025/green/green_tripdata_2025-03.parquet" :=
           mk_file 4096 (Parquet sample_green)]> ∅);
     connection := Some false;
     draws := 0;
     trace := [] |}.

(** The sample trip with a surcharge of 2.50 dollars. *)
Definition paid_row (vendor h1 m1 h2 m2 : Z) (distance fare : Q) : Raw.row :=
  let r := sample_row vendor h1 m1 h2 m2 distance fare in
  Raw.mk_row (Raw.VendorID r) (Raw.pickup_datetime r) (Raw.dropoff_datetime r)
    (Raw.PULocationID r) (Raw.DOLocationID r) (Raw.trip_distance r)
    (Raw.fare_amount r) (Raw.total_amount r) (Some (5 # 2)%Q).

(** 120 yellow trips from zone 7 into the congestion zone, half of them
    with a surcharge, and one green trip without; the view is in the
    catalog. *)
Definition leakage_world : world :=
  {| env := quiet_env;
     files :=
       <["data_downloads/2025/yellow/yellow_tripdata_2025-03.parquet" :=
           mk_file 4096
             (Parquet (repeat (paid_row 1 10 0 10 30 5 25) 60
                       ++ repeat (sample_row 1 10 0 10 30 5 25) 60))]>
       (<["data_downloads/2025/green/green_tripdata_2025-03.parquet" :=
           mk_file 4096 (Parquet sample_green)]> ∅);
     connection := Some true;
     draws := 0;
     trace := [] |}.

(** A March trip of 2024 into zone 4, and the 2025 sample with a trip into
    zone 12 added: zone 12 has drop-offs in the later year only. *)
Definition border_2024 : list Raw.row :=
  [ Raw.mk_row (Some 1) (Some (mk_timestamp 2024 3 1 10 0 0))
      (Some (mk_timestamp 2024 3 1 10 30 0)) (Some 7) (Some 4)
      (Some 5%Q) (Some 25%Q) (Some 28%Q) None ].

Definition border_2025 : list Raw.row :=
  Raw.mk_row (Some 1) (Some (mk_timestamp 2025 2 1 10 0 0))
    (Some (mk_timestamp 2025 2 1 10 30 0)) (Some 7) (Some 12)
    (Some 5%Q) (Some 25%Q) (Some 28%Q) None
  :: sample_yellow.

(** A December trip of year [y]. *)
Definition december_row (y vendor d : Z) : Raw.row :=
  {| Raw.VendorID := Some vendor;
     Raw.pickup_datetime := Some (mk_timestamp y 12 d 10 0 0);
     Raw.dropoff_datetime := Some (mk_timestamp y 12 d 10 20 0);
     Raw.PULocationID := Some 7;
     Raw.DOLocationID := Some 4;
     Raw.trip_distance := Some 3%Q;
     Raw.fare_amount := Some 15%Q;
     Raw.total_amount := Some 18%Q;
     Raw.congestion_surcharge := None |}.

(** The four December sources, four trips each, no target yet; the draws
    cycle through 0, 1/4, 1/2, 3/4. *)
Definition december_world : world :=
  let src y := Parquet (map (december_row y 1) [1; 2; 3; 4]) in
  {| env :=
       {| http_get := fun _ => None;
          weather_archive := None;
          random := fun n => (inject_Z (Z.of_nat n mod 4) / 4)%Q;
          engine_fault := fun _ => false;
          encoded_size := fun _ => 2048;
          PANDAS_AVAILABLE := true;
          SCIPY_AVAILABLE := true;
          corr := fun _ => None;
          linregress := fun _ => Some None |};
     files :=
       <["data_downloads/2023/yellow/yellow_tripdata_2023-12.parquet" := mk_file 4096 (src 2023)]>
       (<["data_downloads/2024/yellow/yellow_tripdata_2024-12.parquet" := mk_file 4096 (src 2024)]>
       (<["data_downloads/2023/green/green_tripdata_2023-12.parquet" := mk_file 4096 (src 2023)]>
       (<["data_downloads/2024/green/green_tripdata_2024-12.parquet" := mk_file 4096 (src 2024)]>
        ∅)));
     connection := None;
     draws := 0;
     trace := [] |}.

(** An empty disk without network, before any connection is opened, and
    the same right after [get_duckdb_conn]. *)
Definition bare_world : world :=
  {| env := quiet_env; files := ∅; connection := None; draws := 0; trace := [] |}.

Definition bare_connected : world :=
  {| env := quiet_env; files := ∅; connection := Some false; draws := 0; trace := [] |}.

(** The leakage sample with an engine that fails on chosen statements. *)
Definition with_faults (bad : query -> bool) (w : world) : world :=
  {| env :=
       {| http_get := http_get (env w);
          weather_archive := weather_archive (env w);
          random := random (env w);
          engine_fault := bad;
          encoded_size := encoded_size (env w);
          PANDAS_AVAILABLE := PANDAS_AVAILABLE (env w);
          SCIPY_AVAILABLE := SCIPY_AVAILABLE (env w);
          corr := corr (env w);
          linregress := linregress (env w) |};
     files := files w;
     connection := connection w;
     draws := draws w;
     trace := trace w |}.

Definition leakage_fails : world :=
  with_faults (fun q => match q with LeakageCopy => true | _ => false end) leakage_world.

Definition tips_fails : world :=
  with_faults (fun q => match q with TipsCopy => true | _ => false end) leakage_world.

Definition revenue_fails : world :=
  with_faults (fun q => match q with RevQuery => true | _ => false end) leakage_world.

(** The engine fails on every statement of a job that has a handler. *)
Definition guarded_fail : world :=
  with_faults (fun q => match q with
                        | RevQuery | QZone _ | VelocityCopy _ | BorderCopy => true
                        | _ => false
                        end) leakage_world.

(** A statistics library that answers with fixed values. *)
Definition stats_env : environment :=
  {| http_get := fun _ => None;
     weather_archive := None;
     random := fun _ => (1 # 2)%Q;
     engine_fault := fun _ => false;
     encoded_size := fun _ => 2048;
     PANDAS_AVAILABLE := true;
     SCIPY_AVAILABLE := true;
     corr := fun _ => Some (-(1 # 2))%Q;
     linregress := fun _ => Some (Some (-(3 # 1))%Q) |}.

(** One yellow trip on each of the first [n] days of March 2025. *)
Definition trips_on_days (n : nat) : list Raw.row :=
  map (fun d =>
         Raw.mk_row (Some 1) (Some (mk_timestamp 2025 3 d 10 0 0))
           (Some (mk_timestamp 2025 3 d 10 30 0)) (Some 7) (Some 4)
           (Some 5%Q) (Some 25%Q) (Some 28%Q) None)
      (seqZ 1 (Z.of_nat n)).

(** Precipitation for the first twenty days of March 2025, and a day
    without a reading. *)
Definition march_weather : list (option date * option Q) :=
  map (fun d => (Some (2025, 3, d), Some (inject_Z d / 10)%Q)) (seqZ 1 20)
  ++ [(Some (2025, 3, 21), None)].

(** Trips on [n] days, the weather series cached, the view in the
    catalog. *)
Definition weather_world (n : nat) : world :=
  {| env := stats_env;
     files :=
       <["data_downloads/2025/yellow/yellow_tripdata_2025-03.parquet" :=
           mk_file 4096 (Parquet (trips_on_days n))]>
       (<["data_downloads/2025/green/green_tripdata_2025-03.parquet" :=
           mk_file 4096 (Parquet [])]>
       (<["cache/weather_2025.csv" := mk_file 512 (WeatherCsv march_weather)]> ∅));
     connection := Some true;
     draws := 0;
     trace := [] |}.

(** The disk of [weather_world 10] once the daily counts are written. *)
Definition ten_days_joined : world :=
  final (execute DailyTripsCopy
           (trips <- all_trips_2025 ;;
            write_content out_trips (DailyTripsCsv (daily_trips_query trips)))
           (weather_world 10)).

(* ===================================================================== *)
(** ** Further observations *)
(* ===================================================================== *)

(** The URLs requested along a trace. *)
Definition requested (t : list event) : list string :=
  omap (fun e => match e with Request u => Some u | _ => None end) t.

(** The paths written along a trace. *)
Definition written (t : list event) : list string :=
  omap (fun e => match e with Write p => Some p | _ => None end) t.

(** One round of the download loop of [ensure_data_available], and where
    it stores its file. *)
Definition download_required (d : Z * Z * taxi) : M unit :=
  match d with
  | (y, m, t) =>
      download_file (join TLC_BASE_URL (trip_file_name t y m))
        (trip_dir y t) (trip_file_name t y m)
  end.

Definition download_dest (d : Z * Z * taxi) : string :=
  match d with
  | (y, m, t) => join (trip_dir y t) (trip_file_name t y m)
  end.

Definition lookup_dest : string := join DATA_DIR "taxi_zone_lookup.csv".

(** A path holds a file that [download_file] accepts as complete. *)
Definition settled (w : world) (p : string) : Prop :=
  exists f, files w !! p = Some f /\ 1024 < st_size f.

(** Every request succeeds with a payload of more than 1024 bytes. *)
Definition working_archive (e : environment) : Prop :=
  forall url, exists f, http_get e url = Some f /\ 1024 < st_size f.

(** An archive that serves one trip file of 4096 bytes under every URL. *)
Definition archive_env : environment :=
  {| http_get := fun _ => Some (mk_file 4096 (Parquet sample_green));
     weather_archive := None;
     random := fun _ => (1 # 2)%Q;
     engine_fault := fun _ => false;
     encoded_size := fun _ => 2048;
     PANDAS_AVAILABLE := true;
     SCIPY_AVAILABLE := true;
     corr := fun _ => None;
     linregress := fun _ => Some None |}.

Definition archive_world : world :=
  {| env := archive_env; files := ∅; connection := None; draws := 0; trace := [] |}.

(** The files the three analysis stages may write. *)
Definition analysis_outputs : list string :=
  [audit_file; leakage_file; stats_file; velocity_file 2024; velocity_file 2025;
   border_file; weather_file; out_trips; out_tips; elasticity_file].

(* ===================================================================== *)
(** ** Facts about SQL scalars *)
(* ===================================================================== *)

Lemma Qlt_bool_iff (x y : Q) : Sql.Qlt_bool x y = true <-> (x < y)%Q.
Proof.
  unfold Sql.Qlt_bool. rewrite negb_true_iff.
  split.
  - intros H. apply Qnot_le_lt. intros Hle.
    apply Qle_bool_iff in Hle. congruence.
  - intros H. destruct (Qle_bool y x) eqn:E; [|reflexivity].
    apply Qle_bool_iff in E. exfalso. apply (Qlt_not_le _ _ H E).
Qed.

Lemma holds_gt (a b : option Q) :
  Sql.holds (Sql.gt a b) = true <-> exists x y, a = Some x /\ b = Some y /\ (y < x)%Q.
Proof.
  destruct a as [x|], b as [y|]; simpl.
  - destruct (Sql.Qlt_bool y x) eqn:E.
    + apply Qlt_bool_iff in E. split; [eauto 6|reflexivity].
    + split; [discriminate|].
      intros (x' & y' & [= <-] & [= <-] & H). apply Qlt_bool_iff in H. congruence.
  - split; [discriminate|]. intros (? & ? & _ & [=] & _).
  - split; [discriminate|]. intros (? & ? & [=] & _).
  - split; [discriminate|]. intros (? & ? & [=] & _).
Qed.

Lemma holds_lt (a b : option Q) :
  Sql.holds (Sql.lt a b) = true <-> exists x y, a = Some x /\ b = Some y /\ (x < y)%Q.
Proof.
  destruct a as [x|], b as [y|]; simpl.
  - destruct (Sql.Qlt_bool x y) eqn:E.
    + apply Qlt_bool_iff in E. split; [eauto 6|reflexivity].
    + split; [discriminate|].
      intros (x' & y' & [= <-] & [= <-] & H). apply Qlt_bool_iff in H. congruence.
  - split; [discriminate|]. intros (? & ? & _ & [=] & _).
  - split; [discriminate|]. intros (? & ? & [=] & _).
  - split; [discriminate|]. intros (? & ? & [=] & _).
Qed.

Lemma holds_eq (a b : option Q) :
  Sql.holds (Sql.eq a b) = true <-> exists x y, a = Some x /\ b = Some y /\ (x == y)%Q.
Proof.
  destruct a as [x|], b as [y|]; simpl.
  - destruct (Qeq_bool x y) eqn:E.
    + apply Qeq_bool_iff in E. split; [eauto 6|reflexivity].
    + split; [discriminate|].
      intros (x' & y' & [= <-] & [= <-] & H). apply Qeq_bool_iff in H. congruence.
  - split; [discriminate|]. intros (? & ? & _ & [=] & _).
  - split; [discriminate|]. intros (? & ? & [=] & _).
  - split; [discriminate|]. intros (? & ? & [=] & _).
Qed.

Lemma holds_and3 (a b : option bool) :
  Sql.holds (Sql.and3 a b) = true <-> Sql.holds a = true /\ Sql.holds b = true.
Proof. destruct a as [[]|], b as [[]|]; simpl; intuition congruence. Qed.

Lemma holds_or3 (a b : option bool) :
  Sql.holds (Sql.or3 a b) = true <-> Sql.holds a = true \/ Sql.holds b = true.
Proof. destruct a as [[]|], b as [[]|]; simpl; intuition congruence. Qed.

Lemma div_nonzero (x y : Q) :
  ~ (y == 0)%Q -> Sql.div (Some x) (Some y) = Some (x / y)%Q.
Proof.
  intros H. unfold Sql.div. destruct (Qeq_bool y 0) eqn:E; [|reflexivity].
  apply Qeq_bool_iff in E. contradiction.
Qed.

Lemma floored_pos (m : option Z) : (0 < Spec.floored m / 60)%Q.
Proof.
  apply Qlt_shift_div_l; [reflexivity|].
  destruct m as [d|]; simpl; [|reflexivity].
  apply Qlt_le_trans with (1 # 10)%Q; [reflexivity|apply Q.le_max_r].
Qed.

(** The divisor of the filter speed is never zero: the speed is NULL only
    when the distance is. *)
Lemma filter_speed_value (t : trip) :
  Sql.div (trip_distance t)
    (Sql.div (Sql.greatest (Sql.of_int (minutes t)) (Some (1 # 10)%Q)) (Some 60%Q))
  = option_map (fun dist => (dist / (Spec.floored (minutes t) / 60))%Q) (trip_distance t).
Proof.
  assert (H60 : ~ (60 == 0)%Q) by discriminate.
  assert (Hg : Sql.greatest (Sql.of_int (minutes t)) (Some (1 # 10)%Q)
               = Some (Spec.floored (minutes t))).
  { destruct (minutes t); reflexivity. }
  rewrite Hg, (div_nonzero _ _ H60).
  destruct (trip_distance t) as [dist|]; [|reflexivity].
  simpl option_map. apply div_nonzero.
  intros E. pose proof (floored_pos (minutes t)) as Hp. rewrite E in Hp.
  revert Hp. apply Qlt_irrefl.
Qed.

(* ===================================================================== *)
(** ** The fraud rules: [WHERE] and [CASE] against the written rules *)
(* ===================================================================== *)

Lemma rule1_iff (t : trip) :
  Sql.holds
    (Sql.gt (Sql.div (trip_distance t)
               (Sql.div (Sql.greatest (Sql.of_int (minutes t)) (Some (1 # 10)%Q))
                        (Some 60%Q)))
            (Some GHOST_SPEED_LIMIT)) = true
  <-> Spec.impossible_physics t.
Proof.
  rewrite filter_speed_value, holds_gt. unfold Spec.impossible_physics.
  split.
  - intros (x & y & Hx & [= <-] & Hlt).
    destruct (trip_distance t) as [dist|]; [|discriminate].
    injection Hx as <-. exists dist. split; [reflexivity|exact Hlt].
  - intros (dist & -> & Hlt). simpl. eauto 6.
Qed.

Lemma rule2_iff (t : trip) :
  Sql.holds
    (Sql.and3 (Sql.lt (Sql.of_int (minutes t)) (Some GHOST_I_TELEPORTER_TIME))
              (Sql.gt (fare t) (Some GHOST_I_TELEPORTER_FARE))) = true
  <-> Spec.teleporter t.
Proof.
  rewrite holds_and3, holds_lt, holds_gt. unfold Spec.teleporter.
  split.
  - intros [(x & y & Hx & [= <-] & Hd) (f & y' & Hf & [= <-] & Hfare)].
    destruct (minutes t) as [d|]; [|discriminate].
    injection Hx as <-. exists d, f. repeat split; try assumption.
    rewrite (Zlt_Qlt d 1). exact Hd.
  - intros (d & f & -> & -> & Hd & Hf). split.
    + exists (inject_Z d), 1%Q. repeat split. rewrite (Zlt_Qlt d 1) in Hd. exact Hd.
    + exists f, 20%Q. repeat split. exact Hf.
Qed.

Lemma rule3_iff (t : trip) :
  Sql.holds
    (Sql.and3 (Sql.eq (trip_distance t) (Some GHOST_I_STATIONARY_DIST))
              (Sql.gt (fare t) (Some 0%Q))) = true
  <-> Spec.stationary_ride t.
Proof.
  rewrite holds_and3, holds_eq, holds_gt. unfold Spec.stationary_ride.
  split.
  - intros [(x & y & Hx & [= <-] & Hd) (f & y' & Hf & [= <-] & Hfare)].
    exists x, f. repeat split; assumption.
  - intros (dist & f & -> & -> & Hd & Hf). split.
    + exists dist, 0%Q. repeat split. exact Hd.
    + exists f, 0%Q. repeat split. exact Hf.
Qed.

(** The [WHERE] clause is TRUE exactly on the rows that match a rule. *)
Lemma audit_where_iff (t : trip) :
  Sql.holds (audit_where t) = true <-> Spec.flagged t.
Proof.
  unfold audit_where, Spec.flagged.
  rewrite !holds_or3, rule1_iff, rule2_iff, rule3_iff. tauto.
Qed.

(** The [CASE] picks the first rule that matches. *)
Lemma fraud_flag_case_classified (t : trip) :
  Spec.classified t (fraud_flag_case t).
Proof.
  unfold fraud_flag_case.
  destruct (Sql.holds (Sql.gt _ _)) eqn:E1.
  { apply rule1_iff. exact E1. }
  assert (N1 : ~ Spec.impossible_physics t).
  { intros H. apply rule1_iff in H. congruence. }
  destruct (Sql.holds (Sql.and3 (Sql.lt _ _) _)) eqn:E2.
  { split; [exact N1|]. apply rule2_iff. exact E2. }
  assert (N2 : ~ Spec.teleporter t).
  { intros H. apply rule2_iff in H. congruence. }
  destruct (Sql.holds (Sql.and3 (Sql.eq _ _) _)) eqn:E3.
  { repeat split; [exact N1|exact N2|]. apply rule3_iff. exact E3. }
  assert (N3 : ~ Spec.stationary_ride t).
  { intros H. apply rule3_iff in H. congruence. }
  simpl. unfold Spec.flagged. tauto.
Qed.

Lemma classified_unique (t : trip) (f g : flag) :
  Spec.classified t f -> Spec.classified t g -> f = g.
Proof.
  unfold Spec.flagged.
  destruct f, g; simpl; unfold Spec.flagged; try reflexivity; tauto.
Qed.

(** A persisted row never carries [OK]. *)
Lemma flagged_not_ok (t : trip) :
  Sql.holds (audit_where t) = true -> fraud_flag_case t <> OK.
Proof.
  intros H E. apply audit_where_iff in H.
  pose proof (fraud_flag_case_classified t) as C. rewrite E in C.
  exact (C H).
Qed.

(* ===================================================================== *)
(** ** Facts about the driver primitives *)
(* ===================================================================== *)

Lemma execute_run {A} (q : query) (m : M A) (w : world) :
  is_Some (connection w) ->
  engine_fault (env w) q = false ->
  execute q m w = m (set_trace (trace w ++ [Execute q]) w).
Proof.
  intros [c Hc] Hf. unfold execute, bind, emit, get. simpl.
  rewrite Hc. simpl. rewrite Hf. reflexivity.
Qed.

Lemma execute_fault {A} (q : query) (m : M A) (w : world) :
  is_Some (connection w) ->
  engine_fault (env w) q = true ->
  execute q m w = Raise (EngineError q) (set_trace (trace w ++ [Execute q]) w).
Proof.
  intros [c Hc] Hf. unfold execute, bind, emit, get. simpl.
  rewrite Hc. simpl. rewrite Hf. reflexivity.
Qed.

Lemma read_parquet_run (dir : string) (w : world) :
  read_parquet dir w =
  match scan dir (files w) with
  | inr rows => Ok rows w
  | inl e => Raise e w
  end.
Proof.
  unfold read_parquet, bind, get. destruct (scan dir (files w)); reflexivity.
Qed.

Lemma all_trips_2025_run (w : world) (ys gs : list Raw.row) :
  connection w = Some true ->
  scan (trip_dir 2025 yellow) (files w) = inr ys ->
  scan (trip_dir 2025 green) (files w) = inr gs ->
  all_trips_2025 w = Ok (query_view ys gs) w.
Proof.
  intros Hc Hy Hg. unfold all_trips_2025, bind, get. rewrite Hc.
  change (join DATA_DIR "2025/yellow") with (trip_dir 2025 yellow).
  change (join DATA_DIR "2025/green") with (trip_dir 2025 green).
  rewrite read_parquet_run, Hy, read_parquet_run, Hg. reflexivity.
Qed.

Lemma all_trips_2025_no_view (w : world) :
  connection w = Some false ->
  all_trips_2025 w = Raise (CatalogError "all_trips_2025") w.
Proof. intros Hc. unfold all_trips_2025, bind, get. rewrite Hc. reflexivity. Qed.

Lemma create_view_run (w : world) (ys gs : list Raw.row) :
  is_Some (connection w) ->
  engine_fault (env w) CreateView = false ->
  scan (trip_dir 2025 yellow) (files w) = inr ys ->
  scan (trip_dir 2025 green) (files w) = inr gs ->
  create_view w =
  Ok tt (set_connection (Some true) (set_trace (trace w ++ [Execute CreateView]) w)).
Proof.
  intros Hc Hf Hy Hg. unfold create_view. rewrite execute_run by assumption.
  unfold bind.
  change (join DATA_DIR "2025/yellow") with (trip_dir 2025 yellow).
  change (join DATA_DIR "2025/green") with (trip_dir 2025 green).
  rewrite read_parquet_run. simpl files.
  rewrite Hy, read_parquet_run. simpl files. rewrite Hg. reflexivity.
Qed.

(* ===================================================================== *)
(** ** C1: the persisted flagged set *)
(* ===================================================================== *)

(** The audit query is a partition of the view: what it keeps matches a
    rule, what it drops matches none. *)
Lemma audit_query_partition (view : list trip) :
  exists kept dropped,
    audit_query view = map audit_select kept /\
    view ≡ₚ kept ++ dropped /\
    Forall Spec.flagged kept /\
    Forall (fun t => ~ Spec.flagged t) dropped.
Proof.
  exists (filter (fun t => Sql.holds (audit_where t) = true) view),
         (filter (fun t => ~ (Sql.holds (audit_where t) = true)) view).
  split; [reflexivity|]. split.
  { symmetry. apply filter_app_complement. }
  split; apply Forall_forall; intros t Ht; apply list_elem_of_filter in Ht;
    destruct Ht as [Ht _].
  - apply audit_where_iff. exact Ht.
  - intros F. apply Ht. apply audit_where_iff. exact F.
Qed.

Lemma audit_rows_classified (kept : list trip) :
  Forall Spec.flagged kept ->
  Forall (fun r => Spec.classified (audit_trip r) (fraud_flag r) /\ fraud_flag r <> OK)
         (map audit_select kept).
Proof.
  intros H. apply Forall_map. eapply Forall_impl; [exact H|].
  intros t Ht. simpl. split.
  - apply fraud_flag_case_classified.
  - apply flagged_not_ok. apply audit_where_iff. exact Ht.
Qed.

(** Running the driver symbolically: the monad, the world updates and the
    record projections are unfolded, nothing else. *)
Ltac mstep :=
  cbv beta iota delta
      [bind ret get raise print emit try_except write_content write_file
       set_trace set_files set_connection set_draws negb];
  cbn [files env connection trace draws data st_size].

Ltac mside := mstep; first [assumption | eexists; reflexivity | reflexivity].

(** What [run_ghost_trip_audit] does when the view can be built and the
    engine does not fail. *)
Lemma run_ghost_trip_audit_run (w : world) (ys gs : list Raw.row) :
  is_Some (connection w) ->
  engine_fault (env w) CreateView = false ->
  engine_fault (env w) AuditCopy = false ->
  engine_fault (env w) AuditCount = false ->
  engine_fault (env w) VendorQuery = false ->
  scan (trip_dir 2025 yellow) (files w) = inr ys ->
  scan (trip_dir 2025 green) (files w) = inr gs ->
  let rows := audit_query (query_view ys gs) in
  exists w',
    run_ghost_trip_audit w = Ok (count_star rows, vendor_query rows) w' /\
    data <$> (files w' !! audit_file) = Some (AuditCsv rows) /\
    connection w' = Some true /\
    env w' = env w /\
    (forall p, p <> audit_file -> files w' !! p = files w !! p).
Proof.
  intros Hc F1 F2 F3 F4 Hy Hg rows.
  unfold run_ghost_trip_audit. mstep.
  rewrite (create_view_run _ ys gs) by mside. mstep.
  rewrite execute_run by mside. mstep.
  rewrite (all_trips_2025_run _ ys gs) by mside. mstep.
  fold rows.
  rewrite execute_run by mside.
  unfold read_audit_file. mstep. rewrite lookup_insert_eq. mstep.
  rewrite execute_run by mside. mstep.
  rewrite lookup_insert_eq. mstep.
  eexists. split; [reflexivity|]. mstep.
  rewrite lookup_insert_eq. repeat split.
  intros p Hp. rewrite lookup_insert_ne by congruence. reflexivity.
Qed.

(** C1. Once the view is built and the engine does not fail, the file
    [ghost_trip_audit.csv] holds exactly the rows of the view that match
    at least one of the three fraud rules (the view splits into the rows
    kept, which all match a rule, and the rows dropped, which match none);
    every persisted row carries the flag of the first rule it matches, in
    the order Impossible Physics, Teleporter, Stationary Ride, and none
    carries OK. *)
Theorem flagged_set_exact (w : world) (ys gs : list Raw.row) :
  is_Some (connection w) ->
  engine_fault (env w) CreateView = false ->
  engine_fault (env w) AuditCopy = false ->
  engine_fault (env w) AuditCount = false ->
  engine_fault (env w) VendorQuery = false ->
  scan (trip_dir 2025 yellow) (files w) = inr ys ->
  scan (trip_dir 2025 green) (files w) = inr gs ->
  exists w' kept dropped,
    (exists v, run_ghost_trip_audit w = Ok v w') /\
    data <$> (files w' !! audit_file) = Some (AuditCsv (map audit_select kept)) /\
    query_view ys gs ≡ₚ kept ++ dropped /\
    Forall Spec.flagged kept /\
    Forall (fun t => ~ Spec.flagged t) dropped /\
    Forall (fun r => Spec.classified (audit_trip r) (fraud_flag r) /\ fraud_flag r <> OK)
           (map audit_select kept).
Proof.
  intros Hc F1 F2 F3 F4 Hy Hg.
  destruct (run_ghost_trip_audit_run w ys gs Hc F1 F2 F3 F4 Hy Hg)
    as (w' & Hrun & Hfile & _).
  destruct (audit_query_partition (query_view ys gs))
    as (kept & dropped & Hq & Hperm & Hk & Hd).
  exists w', kept, dropped.
  split; [eauto|]. split; [rewrite <- Hq; exact Hfile|].
  split; [exact Hperm|]. split; [exact Hk|]. split; [exact Hd|].
  apply audit_rows_classified. exact Hk.
Qed.

Lemma flagged_set_exact_witness :
  exists w' kept dropped,
    (exists v, run_ghost_trip_audit sample_world = Ok v w') /\
    data <$> (files w' !! audit_file) = Some (AuditCsv (map audit_select kept)) /\
    query_view sample_yellow sample_green ≡ₚ kept ++ dropped /\
    Forall Spec.flagged kept /\
    Forall (fun t => ~ Spec.flagged t) dropped /\
    Forall (fun r => Spec.classified (audit_trip r) (fraud_flag r) /\ fraud_flag r <> OK)
           (map audit_select kept).
Proof.
  apply (flagged_set_exact sample_world sample_yellow sample_green).
  - eexists; reflexivity.
  - reflexivity.
  - reflexivity.
  - reflexivity.
  - reflexivity.
  - vm_compute. reflexivity.
  - vm_compute. reflexivity.
Defined.

(** The sample run end to end: four of the six rows are persisted, and a
    row that matches two rules is labelled by the first of them. *)
Example sample_audit :
  exists w',
    run_ghost_trip_audit sample_world = Ok (4, [(Some 2, 2); (Some 3, 2)]) w' /\
    option_map (fun f => match data f with
                         | AuditCsv rows => map fraud_flag rows
                         | _ => []
                         end) (files w' !! audit_file)
    = Some [ImpossiblePhysics; ImpossiblePhysics; StationaryRide; Teleporter].
Proof. eexists. split; vm_compute; reflexivity. Qed.

(* ===================================================================== *)
(** ** Facts about the relational operators *)
(* ===================================================================== *)

Lemma elem_of_map {A B} (f : A -> B) (l : list A) (y : B) :
  y ∈ map f l <-> exists x, y = f x /\ x ∈ l.
Proof.
  rewrite list_elem_of_In, in_map_iff. split.
  - intros (x & <- & H). exists x. split; [reflexivity|].
    apply list_elem_of_In. exact H.
  - intros (x & -> & H). exists x. split; [reflexivity|].
    apply list_elem_of_In. exact H.
Qed.

Section RelationalFacts.
Context {A : Type}.

Lemma insert_sorted_perm (before : A -> A -> bool) (x : A) (l : list A) :
  insert_sorted before x l ≡ₚ x :: l.
Proof.
  induction l as [|y l IH]; simpl; [reflexivity|].
  destruct (before x y); [reflexivity|].
  rewrite IH. apply Permutation_swap.
Qed.

(** Sorting keeps the rows. *)
Lemma order_by_perm (before : A -> A -> bool) (l : list A) :
  order_by before l ≡ₚ l.
Proof.
  unfold order_by. induction l as [|x l IH]; simpl; [reflexivity|].
  rewrite insert_sorted_perm, IH. reflexivity.
Qed.

Lemma elem_of_order_by (before : A -> A -> bool) (l : list A) (x : A) :
  x ∈ order_by before l <-> x ∈ l.
Proof. rewrite (order_by_perm before l). reflexivity. Qed.

Lemma elem_of_limit (n : nat) (l : list A) (x : A) :
  x ∈ limit n l -> x ∈ l.
Proof. unfold limit. apply subseteq_take. Qed.

(** A group is a key that occurs, with all the rows of that key. *)
Lemma elem_of_group_by {K} `{EqDecision K} (key : A -> K) (rows : list A)
      (k : K) (g : list A) :
  (k, g) ∈ group_by key rows <->
  g = filter (fun r => key r = k) rows /\ exists r, r ∈ rows /\ key r = k.
Proof.
  unfold group_by. rewrite elem_of_map. split.
  - intros (k' & [= -> ->] & Hk). split; [reflexivity|].
    apply elem_of_remove_dups, elem_of_map in Hk.
    destruct Hk as (r & -> & Hr). eauto.
  - intros (-> & r & Hr & <-). exists (key r). split; [reflexivity|].
    apply elem_of_remove_dups, elem_of_map. eauto.
Qed.

(** No two groups share a key. *)
Lemma group_by_keys_NoDup {K} `{EqDecision K} (key : A -> K) (rows : list A) :
  NoDup (map fst (group_by key rows)).
Proof.
  unfold group_by. rewrite map_map. simpl. rewrite map_id.
  apply NoDup_remove_dups.
Qed.

(** A group is never empty. *)
Lemma group_nonempty {K} `{EqDecision K} (key : A -> K) (rows : list A)
      (k : K) (g : list A) :
  (k, g) ∈ group_by key rows -> (0 < length g)%nat.
Proof.
  intros H. apply elem_of_group_by in H. destruct H as (-> & r & Hr & Hk).
  assert (Hin : r ∈ filter (fun r => key r = k) rows).
  { apply list_elem_of_filter. split; assumption. }
  destruct (filter _ rows); [inversion Hin|simpl; lia].
Qed.

End RelationalFacts.

(* ===================================================================== *)
(** ** C2: rows that only the stationary rule matches *)
(* ===================================================================== *)

Lemma plain_stationary_rules (t : trip) :
  plain_stationary t ->
  ~ Spec.impossible_physics t /\ ~ Spec.teleporter t /\ Spec.stationary_ride t.
Proof.
  intros (dist & f & d & Hdist & Hf & Hd & Hz & Hpos & Hle & Hmin).
  split; [|split].
  - intros (dist' & Hdist' & Hspeed). rewrite Hdist in Hdist'.
    injection Hdist' as <-.
    assert (E : (dist / (Spec.floored (minutes t) / 60) == 0)%Q).
    { unfold Qdiv at 1. rewrite Hz. ring. }
    rewrite E in Hspeed. discriminate Hspeed.
  - intros (d' & f' & Hd' & _ & Hlt & _). rewrite Hd in Hd'.
    injection Hd' as <-. lia.
  - exists dist, f. auto.
Qed.

Lemma plain_stationary_flag (t : trip) :
  plain_stationary t ->
  fraud_flag_case t = StationaryRide /\ Sql.holds (audit_where t) = true.
Proof.
  intros H. apply plain_stationary_rules in H. destruct H as (N1 & N2 & R3).
  split.
  - apply (classified_unique t); [apply fraud_flag_case_classified|].
    simpl. auto.
  - apply audit_where_iff. right. right. exact R3.
Qed.

(** The flagged rows of a submitter whose trips are all of that kind. *)
Lemma flagged_of_submitter (view : list trip) (A : option Z) :
  (forall t, t ∈ view -> VendorID t = A -> plain_stationary t) ->
  filter (fun r => VendorID (audit_trip r) = A) (audit_query view)
  = map audit_select (filter (fun t => VendorID t = A) view).
Proof.
  unfold audit_query. induction view as [|t view IH]; intros H; [reflexivity|].
  assert (IH' : forall t', t' ∈ view -> VendorID t' = A -> plain_stationary t').
  { intros t' Ht'. apply H. right. exact Ht'. }
  specialize (IH IH').
  destruct (decide (VendorID t = A)) as [E|N].
  - assert (W : Sql.holds (audit_where t) = true).
    { apply plain_stationary_flag. apply H; [left|exact E]. }
    rewrite (filter_cons_True _ t view W), (filter_cons_True _ t view E).
    simpl map. rewrite filter_cons_True by exact E.
    rewrite IH. reflexivity.
  - rewrite (filter_cons_False _ t view N).
    destruct (decide (Sql.holds (audit_where t) = true)) as [W|W].
    + rewrite (filter_cons_True _ t view W). simpl map.
      rewrite filter_cons_False by exact N. exact IH.
    + rewrite (filter_cons_False _ t view W). exact IH.
Qed.

(** An entry of the leaderboard shows the number of flagged rows of its
    submitter. *)
Lemma vendor_query_count (audit : list audit_row) (A : option Z) (n : Z) :
  (A, n) ∈ vendor_query audit ->
  n = count_star (filter (fun r => VendorID (audit_trip r) = A) audit).
Proof.
  unfold vendor_query. intros H.
  apply elem_of_limit, elem_of_order_by, elem_of_map in H.
  destruct H as ([k g] & [= -> ->] & Hg). simpl.
  apply elem_of_group_by in Hg. destruct Hg as [-> _]. reflexivity.
Qed.

(** C2. A row with no distance, a positive fare of at most 20 dollars and
    at least one minute is labelled Stationary Ride and persisted: neither
    the speed rule nor the teleporter rule matches it.  So, when all the
    trips of a submitter are of that kind, its flagged rows are its trips,
    all labelled Stationary Ride, and the leaderboard can only show that
    count for it.  In particular a submitter with three trips of five
    minutes, no distance and 10 dollars has a flagged count of 3. *)
Theorem stationary_ride_flag :
  (forall t, plain_stationary t ->
     fraud_flag (audit_select t) = StationaryRide /\
     Sql.holds (audit_where t) = true /\
     ~ Spec.impossible_physics t /\ ~ Spec.teleporter t) /\
  (forall view A,
     (forall t, t ∈ view -> VendorID t = A -> plain_stationary t) ->
     let mine := filter (fun t => VendorID t = A) view in
     let flagged := filter (fun r => VendorID (audit_trip r) = A) (audit_query view) in
     flagged = map audit_select mine /\
     Forall (fun r => fraud_flag r = StationaryRide) flagged /\
     count_star flagged = count_star mine /\
     (forall n, (A, n) ∈ vendor_query (audit_query view) -> n = count_star mine)) /\
  (exists w' rows,
     run_ghost_trip_audit scenario_world = Ok (3, [(Some 1, 3)]) w' /\
     data <$> (files w' !! audit_file) = Some (AuditCsv rows) /\
     map (fun r => (VendorID (audit_trip r), duration_min r, fraud_flag r)) rows
     = [(Some 1, Some 5, StationaryRide);
        (Some 1, Some 5, StationaryRide);
        (Some 1, Some 5, StationaryRide)]).
Proof.
  split; [|split].
  - intros t H. destruct (plain_stationary_flag t H) as [Hf Hw].
    destruct (plain_stationary_rules t H) as (N1 & N2 & _). auto.
  - intros view A H mine flagged.
    assert (E : flagged = map audit_select mine) by (apply flagged_of_submitter; exact H).
    split; [exact E|]. split; [|split].
    + rewrite E. apply Forall_map, Forall_forall. intros t Ht.
      unfold mine in Ht.
      apply list_elem_of_filter in Ht. destruct Ht as [HA Ht].
      apply plain_stationary_flag, H; assumption.
    + rewrite E. unfold count_star. rewrite length_map. reflexivity.
    + intros n Hn. apply vendor_query_count in Hn. fold flagged in Hn.
      rewrite Hn, E. unfold count_star. rewrite length_map. reflexivity.
  - eexists. eexists. split; [|split]; vm_compute; reflexivity.
Qed.

Lemma stationary_ride_flag_witness :
  let t := view_select yellow (sample_row 1 8 0 8 5 0 10) in
  let view := query_view scenario_yellow sample_green in
  plain_stationary t /\
  fraud_flag (audit_select t) = StationaryRide /\
  count_star (filter (fun r => VendorID (audit_trip r) = Some 1) (audit_query view)) = 3.
Proof.
  intros t view.
  assert (P : forall dep, plain_stationary (view_select yellow (sample_row 1 dep 0 dep 5 0 10))).
  { intros dep. exists 0%Q, 10%Q, 5. repeat split; try reflexivity; try discriminate.
    unfold minutes, date_diff_minute, epoch_minute. simpl. f_equal. lia. }
  split; [apply P|]. split.
  - apply (proj1 stationary_ride_flag t (P 8)).
  - assert (H : forall t', t' ∈ view -> VendorID t' = Some 1 -> plain_stationary t').
    { intros t' Ht' Hv. unfold view, query_view, scenario_yellow, sample_green in Ht'.
      simpl in Ht'. rewrite !elem_of_cons in Ht'.
      destruct Ht' as [->|[->|[->|[->|Ht']]]]; try apply P.
      - discriminate Hv.
      - inversion Ht'. }
    destruct (proj1 (proj2 stationary_ride_flag) view (Some 1) H) as (_ & _ & Hc & _).
    rewrite Hc. reflexivity.
Defined.

(* ===================================================================== *)
(** ** C3: the reported speed and the filter speed *)
(* ===================================================================== *)

Lemma speed_mph_case_value (t : trip) (dist : Q) (d : Z) :
  trip_distance t = Some dist -> minutes t = Some d ->
  speed_mph_case t = Some (Spec.speed_mph dist d).
Proof.
  intros Hdist Hd. unfold speed_mph_case, Spec.speed_mph. rewrite Hd, Hdist.
  simpl Sql.holds. destruct (d <=? 0) eqn:E; [reflexivity|].
  apply Z.leb_gt in E.
  assert (H60 : ~ (60 == 0)%Q) by discriminate.
  simpl Sql.of_int. rewrite (div_nonzero _ _ H60).
  apply div_nonzero. intros Hz.
  assert (Hp : (0 < inject_Z d / 60)%Q).
  { apply Qlt_shift_div_l; [reflexivity|]. rewrite Qmult_0_l.
    change (inject_Z 0 < inject_Z d)%Q. rewrite <- (Zlt_Qlt 0 d). exact E. }
  rewrite Hz in Hp. revert Hp. apply Qlt_irrefl.
Qed.

Lemma impossible_physics_flag (t : trip) :
  fraud_flag_case t = ImpossiblePhysics <-> Spec.impossible_physics t.
Proof.
  split.
  - intros E. pose proof (fraud_flag_case_classified t) as C.
    rewrite E in C. exact C.
  - intros H. apply (classified_unique t); [apply fraud_flag_case_classified|exact H].
Qed.

Lemma speeds_differ (dist : Q) (d : Z) :
  d <= 0 -> (0 < dist)%Q ->
  (Spec.speed_mph dist d == 0)%Q /\ (0 < Spec.speed_filter_mph dist d)%Q.
Proof.
  intros Hd Hdist. split.
  - unfold Spec.speed_mph. apply Z.leb_le in Hd. rewrite Hd. reflexivity.
  - unfold Spec.speed_filter_mph.
    apply Qlt_shift_div_l.
    + apply (floored_pos (Some d)).
    + rewrite Qmult_0_l. exact Hdist.
Qed.

(** C3. On a row with a distance and a duration, the column [speed_mph]
    is 0 when the duration is at most 0 minutes and
    distance / (duration / 60) otherwise, while the row is classified
    Impossible Physics, and selected by the first disjunct of the filter,
    on distance / (max(duration, 0.1) / 60) > 65.  Whenever the duration
    is at most 0 and the distance positive the two speeds differ: the
    reported one is 0, the filter one is positive. *)
Theorem reported_and_filter_speed :
  (forall t dist d,
     trip_distance t = Some dist -> minutes t = Some d ->
     speed_mph (audit_select t) = Some (Spec.speed_mph dist d) /\
     (d <= 0 -> speed_mph (audit_select t) = Some 0%Q) /\
     (0 < d -> speed_mph (audit_select t) = Some (dist / (inject_Z d / 60))%Q) /\
     (fraud_flag (audit_select t) = ImpossiblePhysics
      <-> (65 < Spec.speed_filter_mph dist d)%Q) /\
     ((65 < Spec.speed_filter_mph dist d)%Q -> Sql.holds (audit_where t) = true)) /\
  (forall dist d,
     d <= 0 -> (0 < dist)%Q ->
     ~ (Spec.speed_mph dist d == Spec.speed_filter_mph dist d)%Q) /\
  (let r := audit_select (view_select yellow (sample_row 2 11 0 11 0 2 30)) in
   duration_min r = Some 0 /\ speed_mph r = Some 0%Q /\
   (Spec.speed_filter_mph 2 0 == 1200)%Q /\ fraud_flag r = ImpossiblePhysics).
Proof.
  split; [|split].
  - intros t dist d Hdist Hd.
    pose proof (speed_mph_case_value t dist d Hdist Hd) as Hs.
    assert (Hiff : Spec.impossible_physics t <-> (65 < Spec.speed_filter_mph dist d)%Q).
    { unfold Spec.impossible_physics, Spec.speed_filter_mph. rewrite Hd, Hdist. simpl.
      split.
      - intros (x & [= <-] & H). exact H.
      - intros H. eauto. }
    simpl. split; [exact Hs|]. split; [|split; [|split]].
    + intros Hle. rewrite Hs. unfold Spec.speed_mph.
      apply Z.leb_le in Hle. rewrite Hle. reflexivity.
    + intros Hpos. rewrite Hs. unfold Spec.speed_mph.
      apply Z.leb_gt in Hpos. rewrite Hpos. reflexivity.
    + rewrite impossible_physics_flag. exact Hiff.
    + intros H. apply audit_where_iff. left. apply Hiff. exact H.
  - intros dist d Hd Hdist E.
    destruct (speeds_differ dist d Hd Hdist) as [H0 Hpos].
    rewrite <- E, H0 in Hpos. revert Hpos. apply Qlt_irrefl.
  - repeat split.
Qed.

Lemma reported_and_filter_speed_witness :
  let t := view_select yellow (sample_row 2 10 0 10 1 2 8) in
  speed_mph (audit_select t) = Some (Spec.speed_mph 2 1) /\
  (Spec.speed_mph 2 1 == 120)%Q /\
  ~ (Spec.speed_mph 2 0 == Spec.speed_filter_mph 2 0)%Q.
Proof.
  intros t. split; [|split].
  - apply (proj1 reported_and_filter_speed t 2%Q 1); reflexivity.
  - reflexivity.
  - apply (proj1 (proj2 reported_and_filter_speed) 2%Q 0); [lia|reflexivity].
Defined.

(* ===================================================================== *)
(** ** Facts about single precision *)
(* ===================================================================== *)


Lemma round_half_even_char (x : Q) :
  let k := round_half_even x in
  (inject_Z k - (1 # 2) <= x <= inject_Z k + (1 # 2))%Q /\
  ((x == inject_Z k + (1 # 2))%Q -> Z.even k = true) /\
  ((x == inject_Z k - (1 # 2))%Q -> Z.even k = true).
Proof.
  destruct x as [n d]. unfold round_half_even. cbn [Qnum Qden].
  pose proof (Z.div_mod n (Zpos d) ltac:(lia)) as Hdm.
  pose proof (Z.mod_pos_bound n (Zpos d) ltac:(lia)) as Hr.
  set (fl := n / Zpos d) in *. set (r := n mod Zpos d) in *.
  clearbody fl r.
  assert (Hev : Z.even fl = false -> Z.even (fl + 1) = true).
  { intros H. rewrite Z.even_add, H. reflexivity. }
  destruct (Z.ltb_spec (2 * r) (Zpos d)) as [H1|H1];
    [|destruct (Z.ltb_spec (Zpos d) (2 * r)) as [H2|H2];
      [|destruct (Z.even fl) eqn:E]];
    cbv zeta; unfold Qle, Qeq, Qplus, Qminus, Qopp, inject_Z; cbn [Qnum Qden];
    repeat split; intros; cbn in *; try lia; try nia;
    try (exfalso; nia); auto.
Qed.

Lemma half_gap_le (a b : Z) : (inject_Z a <= inject_Z b + (1 # 2))%Q -> a <= b.
Proof. unfold Qle, Qplus, inject_Z. cbn. lia. Qed.

Lemma half_gap_ge (a b : Z) : (inject_Z b - (1 # 2) <= inject_Z a)%Q -> b <= a.
Proof. unfold Qle, Qminus, Qplus, Qopp, inject_Z. cbn. lia. Qed.

Lemma round_half_even_ge (k : Z) (x : Q) :
  (inject_Z k <= x)%Q -> k <= round_half_even x.
Proof.
  intros H. destruct (round_half_even_char x) as ([_ Hu] & _).
  apply half_gap_le. lra.
Qed.

Lemma round_half_even_le (k : Z) (x : Q) :
  (x <= inject_Z k)%Q -> round_half_even x <= k.
Proof.
  intros H. destruct (round_half_even_char x) as ([Hl _] & _).
  apply half_gap_ge. lra.
Qed.

Lemma round_half_even_int (k : Z) (x : Q) :
  (x == inject_Z k)%Q -> round_half_even x = k.
Proof.
  intros H. apply Z.le_antisymm.
  - apply round_half_even_le. lra.
  - apply round_half_even_ge. lra.
Qed.

Lemma round_half_even_mono (x y : Q) :
  (x <= y)%Q -> round_half_even x <= round_half_even y.
Proof.
  intros H.
  destruct (round_half_even_char x) as ([Hxl Hxu] & _ & Hxe).
  destruct (round_half_even_char y) as ([Hyl Hyu] & Hye & _).
  cbv zeta in *.
  destruct (Z_le_gt_dec (round_half_even x) (round_half_even y)) as [|Hgt]; [assumption|].
  exfalso.
  assert (H1 : (inject_Z (round_half_even y) + 1 <= inject_Z (round_half_even x))%Q).
  { change 1%Q with (inject_Z 1). rewrite <- inject_Z_plus, <- Zle_Qle. lia. }
  assert (Ex : (x == inject_Z (round_half_even x) - (1 # 2))%Q) by lra.
  assert (Ey : (y == inject_Z (round_half_even y) + (1 # 2))%Q) by lra.
  assert (E : round_half_even x = round_half_even y + 1).
  { apply Z.le_antisymm; [|lia]. apply half_gap_le.
    rewrite inject_Z_plus. change (inject_Z 1) with 1%Q. lra. }
  specialize (Hxe Ex). specialize (Hye Ey).
  rewrite E, Z.even_add, Hye in Hxe. discriminate Hxe.
Qed.

Lemma pow2_pos (z : Z) : (0 < 2 ^ z)%Q.
Proof. apply Qpower_0_lt. reflexivity. Qed.

Lemma pow2_inject (k : Z) : 0 <= k -> (inject_Z (2 ^ k) == 2 ^ k)%Q.
Proof. intros H. rewrite (Zpower_Qpower 2 k H). reflexivity. Qed.

Lemma pow2_plus (a b : Z) : (2 ^ (a + b) == 2 ^ a * 2 ^ b)%Q.
Proof. apply Qpower_plus. discriminate. Qed.

Lemma pow2_opp (a : Z) : (2 ^ (- a) == / 2 ^ a)%Q.
Proof. apply Qpower_opp. Qed.

Lemma pow2_le (a b : Z) : a <= b -> (2 ^ a <= 2 ^ b)%Q.
Proof. intros H. apply Qpower_le_compat_l; [exact H|]. discriminate. Qed.

Lemma pow2_lt_inv (a b : Z) : (2 ^ a < 2 ^ b)%Q -> a < b.
Proof. intros H. apply (Qpower_lt_compat_l_inv 2); [exact H|reflexivity]. Qed.

Lemma pow2_inv_mul (a : Z) : (2 ^ a * 2 ^ (- a) == 1)%Q.
Proof.
  rewrite pow2_opp. field. apply Qpower_not_0. discriminate.
Qed.

(** The binade of a positive number. *)
Lemma binade_spec (x : Q) :
  (0 < x)%Q -> (2 ^ binade x <= x < 2 ^ (binade x + 1))%Q.
Proof.
  intros Hx. destruct x as [n d].
  assert (Hn : 0 < n) by (unfold Qlt in Hx; cbn in Hx; lia).
  unfold binade. cbn [Qnum Qden].
  set (la := Z.log2 n). set (ld := Z.log2 (Zpos d)).
  destruct (Z.log2_spec n Hn) as [Hn1 Hn2]. fold la in Hn1, Hn2.
  destruct (Z.log2_spec (Zpos d) ltac:(lia)) as [Hd1 Hd2]. fold ld in Hd1, Hd2.
  assert (Hla : 0 <= la) by apply Z.log2_nonneg.
  assert (Hld : 0 <= ld) by apply Z.log2_nonneg.
  set (a := inject_Z n). set (b := (/ inject_Z (Zpos d))%Q).
  assert (Hx' : (n # d == a * b)%Q).
  { rewrite (Qmake_Qdiv n d). reflexivity. }
  assert (Ha1 : (2 ^ la <= a)%Q) by (rewrite <- pow2_inject by lia; unfold a; rewrite <- Zle_Qle; exact Hn1).
  assert (Ha2 : (a < 2 ^ (la + 1))%Q)
    by (rewrite <- pow2_inject by lia; unfold a; rewrite <- Zlt_Qlt; exact Hn2).
  assert (Hdpos : (0 < inject_Z (Zpos d))%Q) by reflexivity.
  assert (Hb0 : (0 < b)%Q) by (apply Qinv_lt_0_compat; exact Hdpos).
  set (D := inject_Z (Zpos d)) in *.
  assert (HD1 : (2 ^ ld <= D)%Q)
    by (rewrite <- pow2_inject by lia; unfold D; rewrite <- Zle_Qle; exact Hd1).
  assert (HD2 : (D < 2 ^ (ld + 1))%Q)
    by (rewrite <- pow2_inject by lia; unfold D; rewrite <- Zlt_Qlt; exact Hd2).
  pose proof (pow2_inv_mul ld) as I1. pose proof (pow2_inv_mul (ld + 1)) as I2.
  pose proof (pow2_pos ld) as Q1. pose proof (pow2_pos (ld + 1)) as Q2.
  pose proof (pow2_pos (- ld)) as Q3. pose proof (pow2_pos (- (ld + 1))) as Q4.
  assert (Hb1 : (b <= 2 ^ (- ld))%Q).
  { apply Qle_shift_inv_r; [exact Hdpos|]. nra. }
  assert (Hb2 : (2 ^ (- (ld + 1)) < b)%Q).
  { apply Qlt_shift_inv_l; [exact Hdpos|]. nra. }
  pose proof (pow2_pos la) as P1. pose proof (pow2_pos (- (ld + 1))) as P2.
  pose proof (pow2_pos (la + 1)) as P3. pose proof (pow2_pos (- ld)) as P4.
  assert (Up : (n # d < 2 ^ (la - ld + 1))%Q).
  { rewrite Hx'. replace (la - ld + 1) with ((la + 1) + - ld) by lia.
    rewrite pow2_plus. nra. }
  assert (Lo : (2 ^ (la - ld - 1) <= n # d)%Q).
  { rewrite Hx'. replace (la - ld - 1) with (la + - (ld + 1)) by lia.
    rewrite pow2_plus. nra. }
  destruct (Qle_bool (2 ^ (la - ld)) (n # d)) eqn:E.
  - apply Qle_bool_iff in E. split; [exact E|exact Up].
  - split; [exact Lo|].
    replace (la - ld - 1 + 1) with (la - ld) by lia.
    apply Qnot_le_lt. intros H. apply Qle_bool_iff in H. congruence.
Qed.

Lemma pow2_le_inv (a b : Z) : (2 ^ a <= 2 ^ b)%Q -> a <= b.
Proof. intros H. apply (Qpower_le_compat_l_inv 2); [exact H|reflexivity]. Qed.

(** Single precision: the shape of a rounded positive number. *)
Lemma to_float32_pos (x : Q) :
  (0 < x)%Q ->
  exists e, (2 ^ e <= x < 2 ^ (e + 1))%Q /\
            to_float32 x
            = (inject_Z (round_half_even (x / 2 ^ (Z.max e (-126) - 23)))
               * 2 ^ (Z.max e (-126) - 23))%Q.
Proof.
  intros Hx. exists (binade (Qabs x)). split.
  - assert (Ha : (Qabs x == x)%Q) by (apply Qabs_pos; lra).
    pose proof (binade_spec (Qabs x) ltac:(lra)) as H. lra.
  - unfold to_float32. destruct (Qeq_bool x 0) eqn:E; [|reflexivity].
    apply Qeq_bool_iff in E. lra.
Qed.

Lemma to_float32_zero (x : Q) : (x == 0)%Q -> to_float32 x = 0%Q.
Proof.
  intros H. unfold to_float32. destruct (Qeq_bool x 0) eqn:E; [reflexivity|].
  apply Qeq_bool_iff in H. congruence.
Qed.

Lemma scaled_back (x u : Q) : (0 < u)%Q -> (x / u * u == x)%Q.
Proof. intros H. field. lra. Qed.

(** A rounded number stays on the side of every multiple of its spacing. *)
Lemma round_scaled_ge (k : Z) (x u : Q) :
  (0 < u)%Q -> (inject_Z k * u <= x)%Q ->
  (inject_Z k * u <= inject_Z (round_half_even (x / u)) * u)%Q.
Proof.
  intros Hu H. pose proof (scaled_back x u Hu) as E.
  assert (Hk : k <= round_half_even (x / u)).
  { apply round_half_even_ge. apply Qnot_lt_le. intros Hlt.
    assert ((x / u * u < inject_Z k * u)%Q) by nra. lra. }
  rewrite Zle_Qle in Hk. nra.
Qed.

Lemma round_scaled_le (k : Z) (x u : Q) :
  (0 < u)%Q -> (x <= inject_Z k * u)%Q ->
  (inject_Z (round_half_even (x / u)) * u <= inject_Z k * u)%Q.
Proof.
  intros Hu H. pose proof (scaled_back x u Hu) as E.
  assert (Hk : round_half_even (x / u) <= k).
  { apply round_half_even_le. apply Qnot_lt_le. intros Hlt.
    assert ((inject_Z k * u < x / u * u)%Q) by nra. lra. }
  rewrite Zle_Qle in Hk. nra.
Qed.

Lemma to_float32_nonneg (x : Q) : (0 <= x)%Q -> (0 <= to_float32 x)%Q.
Proof.
  intros Hx. destruct (Qlt_le_dec 0 x) as [Hpos|H0].
  - destruct (to_float32_pos x Hpos) as (e & _ & ->).
    pose proof (round_scaled_ge 0 x _ (pow2_pos (Z.max e (-126) - 23))) as H.
    change (inject_Z 0) with 0%Q in H. specialize (H ltac:(lra)). lra.
  - rewrite to_float32_zero by lra. lra.
Qed.

(** Rounding keeps the order of non-negative numbers. *)
Lemma to_float32_mono (x y : Q) :
  (0 <= x <= y)%Q -> (to_float32 x <= to_float32 y)%Q.
Proof.
  intros [Hx Hxy]. destruct (Qlt_le_dec 0 x) as [Hpos|H0].
  2:{ rewrite (to_float32_zero x) by lra. apply to_float32_nonneg. lra. }
  destruct (to_float32_pos x Hpos) as (ex & [Hx1 Hx2] & ->).
  destruct (to_float32_pos y ltac:(lra)) as (ey & [Hy1 Hy2] & ->).
  assert (Hee : ex <= ey).
  { assert (ex < ey + 1) by (apply pow2_lt_inv; lra). lia. }
  set (fx := Z.max ex (-126)). set (fy := Z.max ey (-126)).
  pose proof (pow2_pos (fx - 23)) as Ux. pose proof (pow2_pos (fy - 23)) as Uy.
  destruct (Z.eq_dec fx fy) as [Eq|Ne].
  - rewrite <- Eq.
    assert (Hd : (x / 2 ^ (fx - 23) <= y / 2 ^ (fx - 23))%Q).
    { unfold Qdiv. apply Qmult_le_compat_r; [exact Hxy|].
      apply Qlt_le_weak, Qinv_lt_0_compat, Ux. }
    apply round_half_even_mono in Hd. rewrite Zle_Qle in Hd. nra.
  - assert (Hlt : fx + 1 <= fy) by (unfold fx, fy in *; lia).
    assert (Efy : fy = ey) by (unfold fx, fy in *; lia).
    assert (H1 : (inject_Z (round_half_even (x / 2 ^ (fx - 23))) * 2 ^ (fx - 23)
                  <= inject_Z (2 ^ 24) * 2 ^ (fx - 23))%Q).
    { apply round_scaled_le; [exact Ux|].
      rewrite pow2_inject by lia. rewrite <- pow2_plus.
      replace (24 + (fx - 23)) with (fx + 1) by lia.
      pose proof (pow2_le (ex + 1) (fx + 1) ltac:(unfold fx; lia)). lra. }
    assert (H2 : (inject_Z (2 ^ 23) * 2 ^ (fy - 23)
                  <= inject_Z (round_half_even (y / 2 ^ (fy - 23))) * 2 ^ (fy - 23))%Q).
    { apply round_scaled_ge; [exact Uy|].
      rewrite pow2_inject by lia. rewrite <- pow2_plus.
      replace (23 + (fy - 23)) with ey by lia. lra. }
    rewrite pow2_inject in H1, H2 by lia. rewrite <- pow2_plus in H1, H2.
    replace (24 + (fx - 23)) with (fx + 1) in H1 by lia.
    replace (23 + (fy - 23)) with fy in H2 by lia.
    pose proof (pow2_le (fx + 1) fy Hlt). lra.
Qed.

(** Integers below [2^24] are FLOAT values. *)
Lemma to_float32_exact (k : Z) :
  0 <= k < 2 ^ 24 -> (to_float32 (inject_Z k) == inject_Z k)%Q.
Proof.
  intros [Hk0 Hk]. destruct (Z.eq_dec k 0) as [->|Hne]; [reflexivity|].
  assert (Hpos : (0 < inject_Z k)%Q)
    by (change 0%Q with (inject_Z 0); rewrite <- Zlt_Qlt; lia).
  destruct (to_float32_pos _ Hpos) as (e & [He1 He2] & ->).
  assert (He : e <= 23).
  { assert (e < 24); [|lia]. apply pow2_lt_inv.
    rewrite <- (pow2_inject 24) by lia.
    apply (Qle_lt_trans _ (inject_Z k)); [exact He1|].
    rewrite <- Zlt_Qlt. exact Hk. }
  set (f := Z.max e (-126)). assert (Hf : 0 <= 23 - f) by (unfold f; lia).
  pose proof (pow2_pos (f - 23)) as U.
  assert (E : (inject_Z k / 2 ^ (f - 23) == inject_Z (k * 2 ^ (23 - f)))%Q).
  { rewrite inject_Z_mult, pow2_inject by lia.
    replace (23 - f) with (- (f - 23)) by lia. rewrite pow2_opp.
    field. lra. }
  rewrite (round_half_even_int _ _ E).
  rewrite inject_Z_mult, pow2_inject by lia.
  replace (23 - f) with (- (f - 23)) by lia.
  pose proof (pow2_inv_mul (f - 23)) as I. 
  rewrite <- Qmult_assoc. rewrite (Qmult_comm (2 ^ (- (f - 23)))), I. ring.
Qed.

(** Between 0 and 1 rounding moves a number by [2^-25] at most, and keeps
    it between 0 and 1. *)
Lemma to_float32_unit (x : Q) :
  (0 <= x <= 1)%Q ->
  (0 <= to_float32 x <= 1)%Q /\ (Qabs (to_float32 x - x) <= 2 ^ (-25))%Q.
Proof.
  intros [Hx0 Hx1]. destruct (Qlt_le_dec 0 x) as [Hpos|H0].
  2:{ rewrite to_float32_zero by lra. split; [lra|].
      apply Qabs_Qle_condition. change (2 ^ (-25))%Q with (1 # 33554432)%Q. lra. }
  destruct (to_float32_pos x Hpos) as (e & [He1 He2] & ->).
  assert (He : e <= 0) by (apply pow2_le_inv; change (2 ^ 0)%Q with 1%Q; lra).
  set (f := Z.max e (-126)). assert (Hf : 0 <= 23 - f) by (unfold f; lia).
  pose proof (pow2_pos (f - 23)) as U.
  assert (Hone : (inject_Z (2 ^ (23 - f)) * 2 ^ (f - 23) == 1)%Q).
  { rewrite pow2_inject by lia. rewrite <- pow2_plus.
    replace (23 - f + (f - 23)) with 0 by lia. reflexivity. }
  pose proof (round_scaled_ge 0 x _ U) as Lo. change (inject_Z 0) with 0%Q in Lo.
  specialize (Lo ltac:(nra)).
  pose proof (round_scaled_le (2 ^ (23 - f)) x _ U ltac:(lra)) as Hi.
  split; [lra|].
  destruct (round_half_even_char (x / 2 ^ (f - 23))) as ([Hl Hu] & _).
  cbv zeta in Hl, Hu. pose proof (scaled_back x _ U) as E.
  set (k := inject_Z (round_half_even (x / 2 ^ (f - 23)))) in *.
  set (y := (x / 2 ^ (f - 23))%Q) in *. set (u := (2 ^ (f - 23))%Q) in *.
  apply Qabs_Qle_condition. change (2 ^ (-25))%Q with (1 # 33554432)%Q.
  destruct (Qlt_le_dec x 1) as [Hlt|Hge].
  - assert (He' : e <= -1).
    { assert (e < 0); [|lia]. apply pow2_lt_inv. change (2 ^ 0)%Q with 1%Q. lra. }
    assert (Hu24 : (u <= 1 # 16777216)%Q).
    { change (1 # 16777216)%Q with (2 ^ (-24))%Q. apply pow2_le. unfold f. lia. }
    split; nra.
  - pose proof (round_scaled_ge (2 ^ (23 - f)) x _ U ltac:(fold u; lra)) as Lo1.
    fold u y k in Lo1. lra.
Qed.

(** The two rates of a group of [n] rows of which [p] paid, as the engine
    computes them in single precision. *)
Lemma float_share (p n : Z) :
  0 <= p <= n -> 0 < n ->
  let c := to_float32 (to_float32 (inject_Z p) / to_float32 (inject_Z n)) in
  let l := to_float32 (to_float32 1 - c) in
  ~ (to_float32 (inject_Z n) == 0)%Q /\
  (0 <= c <= 1)%Q /\ (0 <= l <= 1)%Q /\
  (Qabs (c + l - 1) <= 2 ^ (-25))%Q /\
  (n < 2 ^ 24 -> (Qabs (c - inject_Z p / inject_Z n) <= 2 ^ (-25))%Q).
Proof.
  intros Hp Hn c l.
  assert (Hp0 : (0 <= inject_Z p)%Q)
    by (change 0%Q with (inject_Z 0); rewrite <- Zle_Qle; lia).
  assert (Hpn : (inject_Z p <= inject_Z n)%Q) by (rewrite <- Zle_Qle; lia).
  assert (Hn1 : (1 <= inject_Z n)%Q)
    by (change 1%Q with (inject_Z 1); rewrite <- Zle_Qle; lia).
  pose proof (to_float32_nonneg _ Hp0) as F0.
  pose proof (to_float32_mono _ _ (conj Hp0 Hpn)) as F1.
  pose proof (to_float32_mono 1 (inject_Z n) ltac:(lra)) as F2.
  assert (E1 : (to_float32 1 == 1)%Q) by (apply (to_float32_exact 1); lia).
  set (fp := to_float32 (inject_Z p)) in *. set (fn := to_float32 (inject_Z n)) in *.
  assert (Hfn : (0 < fn)%Q) by lra.
  assert (Hr : (0 <= fp / fn <= 1)%Q).
  { split.
    - apply Qle_shift_div_l; [exact Hfn|]. lra.
    - apply Qle_shift_div_r; [exact Hfn|]. lra. }
  destruct (to_float32_unit _ Hr) as [Hc Hce]. fold c in Hc, Hce.
  destruct (to_float32_unit (to_float32 1 - c) ltac:(lra)) as [Hl Hle].
  fold l in Hl, Hle.
  split; [lra|]. split; [exact Hc|]. split; [exact Hl|].
  change (2 ^ (-25))%Q with (1 # 33554432)%Q in *.
  apply Qabs_Qle_condition in Hle, Hce.
  split; [apply Qabs_Qle_condition; lra|].
  intros Hsmall.
  assert (Er : (fp / fn == inject_Z p / inject_Z n)%Q).
  { unfold fp, fn. rewrite (to_float32_exact p), (to_float32_exact n) by lia.
    reflexivity. }
  rewrite <- Er. apply Qabs_Qle_condition. lra.
Qed.

(* ===================================================================== *)
(** ** C4: the two rates of a leakage row *)
(* ===================================================================== *)

Lemma sum_compliant_count (g : list trip) :
  g <> [] ->
  sum_compliant g
  = Some (count_star
            (filter (fun t => Sql.holds (Sql.gt (congestion_surcharge t) (Some 0%Q)) = true) g)).
Proof.
  intros Hne. unfold sum_compliant, sql_sum_int.
  destruct (map _ g) eqn:E.
  { destruct g; [congruence|discriminate E]. }
  rewrite <- E. clear E. f_equal. unfold count_star.
  induction g as [|t g IH]; [reflexivity|].
  destruct g as [|t' g'].
  - simpl. destruct (Sql.holds _) eqn:E; simpl.
    + rewrite filter_cons_True by exact E. reflexivity.
    + rewrite filter_cons_False by congruence. reflexivity.
  - specialize (IH ltac:(discriminate)).
    change (map ?f (t :: ?l)) with (f t :: map f l).
    change (fold_right Z.add 0 (?x :: ?l)) with (x + fold_right Z.add 0 l).
    rewrite IH. destruct (Sql.holds (Sql.gt (congestion_surcharge t) _)) eqn:E.
    + rewrite (filter_cons_True _ t) by exact E. simpl length. lia.
    + rewrite (filter_cons_False _ t) by congruence. lia.
Qed.

(** The rates of one selected group. *)
Lemma leakage_select_rates (k : option Z) (g : list trip) :
  g <> [] ->
  let paid := count_star
                (filter (fun t => Sql.holds (Sql.gt (congestion_surcharge t) (Some 0%Q)) = true) g) in
  let c := to_float32 (to_float32 (inject_Z paid) / to_float32 (inject_Z (count_star g))) in
  compliant_trips (leakage_select (k, g)) = Some paid /\
  compliance_rate (leakage_select (k, g)) = Some c /\
  leakage_rate (leakage_select (k, g)) = Some (to_float32 (to_float32 1 - c)).
Proof.
  intros Hne paid c. unfold leakage_select.
  cbn [fst snd compliant_trips compliance_rate leakage_rate].
  rewrite (sum_compliant_count g Hne). fold paid.
  assert (Hn : 0 < count_star g).
  { unfold count_star. destruct g; [congruence|]. simpl length. lia. }
  assert (Hp : 0 <= paid <= count_star g).
  { unfold paid, count_star. split; [lia|]. apply Nat2Z.inj_le, length_filter. }
  destruct (float_share paid (count_star g) Hp Hn) as (Hnz & _).
  unfold Sql.divf, Sql.subf, Sql.to_float, Sql.of_int. cbn [option_map].
  rewrite (div_nonzero _ _ Hnz). cbn [option_map Sql.sub Sql.lift2].
  repeat split.
Qed.

(** Every row of the leakage query comes from the group of one origin
    zone, has more than 100 trips, and carries the two rates of that
    group. *)
Lemma leakage_query_rows (view : list trip) (r : leakage_row) :
  r ∈ leakage_query view ->
  let group := filter (fun t => pickup_loc t = leak_pickup_loc r)
                 (filter (fun t => Sql.holds (leakage_where t) = true) view) in
  let paid := count_star
                (filter (fun t => Sql.holds (Sql.gt (congestion_surcharge t) (Some 0%Q)) = true)
                        group) in
  let c := to_float32 (to_float32 (inject_Z paid) / to_float32 (inject_Z (total_trips r))) in
  total_trips r = count_star group /\
  100 < total_trips r /\
  compliant_trips r = Some paid /\
  compliance_rate r = Some c /\
  leakage_rate r = Some (to_float32 (to_float32 1 - c)).
Proof.
  unfold leakage_query. intros H.
  apply elem_of_limit, elem_of_order_by, elem_of_map in H.
  destruct H as ([k g] & -> & Hg).
  apply list_elem_of_filter in Hg. destruct Hg as [Hbig Hg]. simpl in Hbig.
  pose proof (group_nonempty _ _ _ _ Hg) as Hlen.
  apply elem_of_group_by in Hg. destruct Hg as [Eg _].
  assert (Hne : g <> []) by (destruct g; [simpl in Hlen; lia|discriminate]).
  destruct (leakage_select_rates k g Hne) as (H1 & H2 & H3).
  change (leak_pickup_loc (leakage_select (k, g))) with k.
  change (total_trips (leakage_select (k, g))) with (count_star g).
  rewrite <- Eg. cbv zeta.
  split; [reflexivity|]. split; [apply Z.gtb_lt; exact Hbig|].
  split; [exact H1|]. split; [exact H2|exact H3].
Qed.

Lemma leakage_job_run (w : world) (ys gs : list Raw.row) :
  connection w = Some true ->
  engine_fault (env w) LeakageCopy = false ->
  scan (trip_dir 2025 yellow) (files w) = inr ys ->
  scan (trip_dir 2025 green) (files w) = inr gs ->
  exists w',
    leakage_job w = Ok tt w' /\
    data <$> (files w' !! leakage_file)
    = Some (LeakageCsv (leakage_query (query_view ys gs))) /\
    connection w' = connection w /\ env w' = env w /\
    (forall p, p <> leakage_file -> files w' !! p = files w !! p) /\
    trace w' = trace w ++ [Execute LeakageCopy; Write leakage_file; Print MsgLeakageSaved].
Proof.
  intros Hc Hf Hy Hg. unfold leakage_job. mstep.
  rewrite execute_run by (rewrite ?Hc; mside). mstep.
  rewrite (all_trips_2025_run _ ys gs) by mside. mstep.
  eexists. split; [reflexivity|]. mstep.
  rewrite lookup_insert_eq. repeat split.
  - intros p Hp. rewrite lookup_insert_ne by congruence. reflexivity.
  - rewrite <- !app_assoc. reflexivity.
Qed.

(** C4. When the leakage job runs, every row of the table it writes has a
    compliance rate and a leakage rate that add up to 1 within [2^-25],
    half a unit in the last place of a single-precision number below 1.
    The origin zone of the row has more than 100 qualifying trips, so the
    division is defined.  The compliance rate is the quotient, in single
    precision, of the number of those trips that carry a positive
    surcharge by their number: when there are fewer than [2^24] of them
    it is the share itself within [2^-25].  The leakage rate is 1 minus
    the compliance rate, in single precision.  Both lie between 0 and
    1. *)
Theorem leakage_rates_sum_to_one (w : world) (ys gs : list Raw.row) :
  connection w = Some true ->
  engine_fault (env w) LeakageCopy = false ->
  scan (trip_dir 2025 yellow) (files w) = inr ys ->
  scan (trip_dir 2025 green) (files w) = inr gs ->
  exists w' table,
    leakage_job w = Ok tt w' /\
    data <$> (files w' !! leakage_file) = Some (LeakageCsv table) /\
    Forall
      (fun r =>
         let qualifying :=
           filter (fun t => pickup_loc t = leak_pickup_loc r)
             (filter (fun t => Sql.holds (leakage_where t) = true) (query_view ys gs)) in
         let paid :=
           filter (fun t => Sql.holds (Sql.gt (congestion_surcharge t) (Some 0%Q)) = true)
                  qualifying in
         exists c l,
           compliance_rate r = Some c /\ leakage_rate r = Some l /\
           (Qabs (c + l - 1) <= 2 ^ (-25))%Q /\
           (0 <= c <= 1)%Q /\ (0 <= l <= 1)%Q /\
           c = to_float32 (to_float32 (inject_Z (count_star paid))
                           / to_float32 (inject_Z (count_star qualifying))) /\
           l = to_float32 (to_float32 1 - c) /\
           (count_star qualifying < 2 ^ 24 ->
            (Qabs (c - inject_Z (count_star paid) / inject_Z (count_star qualifying))
             <= 2 ^ (-25))%Q) /\
           100 < count_star qualifying)
      table.
Proof.
  intros Hc Hf Hy Hg.
  destruct (leakage_job_run w ys gs Hc Hf Hy Hg) as (w' & Hrun & Hfile & _).
  exists w', (leakage_query (query_view ys gs)).
  split; [exact Hrun|]. split; [exact Hfile|].
  apply Forall_forall. intros r Hr.
  destruct (leakage_query_rows _ r Hr) as (Ht & Hbig & _ & Hcr & Hlr).
  cbv zeta. rewrite Ht in Hcr, Hlr, Hbig.
  match type of Ht with _ = count_star ?q =>
    set (qualifying := q) in *
  end.
  set (paid := filter (fun t => Sql.holds (Sql.gt (congestion_surcharge t) (Some 0%Q)) = true)
                      qualifying) in *.
  assert (Hp : 0 <= count_star paid <= count_star qualifying).
  { unfold paid, count_star. split; [lia|]. apply Nat2Z.inj_le, length_filter. }
  destruct (float_share (count_star paid) (count_star qualifying) Hp ltac:(lia))
    as (_ & Hc1 & Hl1 & Hsum & Hshare).
  eexists. eexists.
  split; [exact Hcr|]. split; [exact Hlr|].
  split; [exact Hsum|]. split; [exact Hc1|]. split; [exact Hl1|].
  split; [reflexivity|]. split; [reflexivity|].
  split; [exact Hshare|exact Hbig].
Qed.

Lemma leakage_rates_sum_to_one_witness :
  exists w' table,
    leakage_job leakage_world = Ok tt w' /\
    data <$> (files w' !! leakage_file) = Some (LeakageCsv table) /\
    map (fun r => (leak_pickup_loc r, total_trips r, compliant_trips r)) table
    = [(Some 7, 121, Some 60)] /\
    Forall (fun r => exists c l,
              compliance_rate r = Some c /\ leakage_rate r = Some l /\
              (Qabs (c + l - 1) <= 2 ^ (-25))%Q)
           table /\
    Forall (fun r => exists c l,
              compliance_rate r = Some c /\ leakage_rate r = Some l /\
              (c == 16638561 # 33554432)%Q /\ (l == 8457936 # 16777216)%Q /\
              (c + l == 1 + 2 ^ (-25))%Q)
           table.
Proof.
  destruct (leakage_rates_sum_to_one leakage_world
              (repeat (paid_row 1 10 0 10 30 5 25) 60
               ++ repeat (sample_row 1 10 0 10 30 5 25) 60)
              sample_green)
    as (w' & table & Hrun & Hfile & Hall).
  - reflexivity.
  - reflexivity.
  - vm_compute. reflexivity.
  - vm_compute. reflexivity.
  - exists w', table. split; [exact Hrun|]. split; [exact Hfile|].
    assert (Hsum : Forall (fun r => exists c l,
                             compliance_rate r = Some c /\ leakage_rate r = Some l /\
                             (Qabs (c + l - 1) <= 2 ^ (-25))%Q) table).
    { eapply Forall_impl; [exact Hall|].
      intros r (c & l & H1 & H2 & H3 & _). eauto. }
    clear Hall.
    assert (E : Ok tt w' = leakage_job leakage_world) by (symmetry; exact Hrun).
    vm_compute in E. injection E as ->.
    vm_compute in Hfile. injection Hfile as <-.
    split; [vm_compute; reflexivity|]. split; [exact Hsum|].
    constructor; [|constructor].
    eexists. eexists. split; [reflexivity|]. split; [reflexivity|].
    split; [|split]; vm_compute; reflexivity.
Defined.

(* ===================================================================== *)
(** ** C5: the border-effect table *)
(* ===================================================================== *)

Lemma filter_empty {A} (P : A -> Prop) `{forall x, Decision (P x)} (l : list A) :
  (forall x, x ∈ l -> ~ P x) -> filter P l = [].
Proof.
  induction l as [|x l IH]; intros H0; [reflexivity|].
  rewrite filter_cons_False by (apply H0; left).
  apply IH. intros y Hy. apply H0. right. exact Hy.
Qed.

(** The rows of [q1_2024] and [q1_2025]: one per zone with Q1 drop-offs. *)
Lemma elem_of_q1_dropoffs (rows : list Raw.row) (z n : Z) :
  (Some z, n) ∈ q1_dropoffs rows <-> n = q1_count_of rows z /\ drops_in_q1 rows z.
Proof.
  unfold q1_dropoffs, q1_count_of, drops_in_q1. rewrite elem_of_map. split.
  - intros ([k g] & [= -> ->] & Hg). simpl.
    apply elem_of_group_by in Hg. destruct Hg as (-> & r & Hr & Hk).
    split; [reflexivity|]. apply list_elem_of_filter in Hr. destruct Hr as [Hq Hr].
    exists r. auto.
  - intros (-> & r & Hr & Hk & Hq). eexists (Some z, _). split; [reflexivity|].
    apply elem_of_group_by. split; [reflexivity|].
    exists r. split; [|exact Hk]. apply list_elem_of_filter. auto.
Qed.

Lemma q1_dropoffs_key (rows : list Raw.row) (z n : Z) :
  (Some z, n) ∈ q1_dropoffs rows -> drops_in_q1 rows z.
Proof. intros H. apply elem_of_q1_dropoffs in H. tauto. Qed.

(** A row of the later year finds no partner when its zone has no row in
    the earlier year. *)
Lemma no_partner (a : list (option Z * Z)) (z : Z) :
  (forall n, (Some z, n) ∉ a) ->
  forall y : option Z * Z, fst y = Some z ->
  filter (fun x => Sql.holds (Sql.eqz (fst x) (fst y)) = true) a = [].
Proof.
  intros Ha y Hy. apply filter_empty. intros [k n] Hx. rewrite Hy. simpl.
  destruct k as [k|]; simpl; [|discriminate].
  destruct (k =? z) eqn:E; [|discriminate].
  apply Z.eqb_eq in E. subst k. intros _. exact (Ha n Hx).
Qed.

(** The rows of the join. *)
Lemma elem_of_full_outer_join (a b : list (option Z * Z))
      (j : option (option Z * Z) * option (option Z * Z)) :
  j ∈ full_outer_join a b <->
  (exists x y, j = (Some x, Some y) /\ x ∈ a /\ y ∈ b /\
               Sql.holds (Sql.eqz (fst x) (fst y)) = true) \/
  (exists x, j = (Some x, None) /\ x ∈ a /\
             filter (fun y => Sql.holds (Sql.eqz (fst x) (fst y)) = true) b = []) \/
  (exists y, j = (None, Some y) /\ y ∈ b /\
             filter (fun x => Sql.holds (Sql.eqz (fst x) (fst y)) = true) a = []).
Proof.
  unfold full_outer_join. rewrite elem_of_app, elem_of_map.
  rewrite (list_elem_of_In (flat_map _ a) j), in_flat_map.
  split.
  - intros [(x & Hx & Hj)|(y & -> & Hy)].
    + apply list_elem_of_In in Hx.
      destruct (filter (fun y => Sql.holds (Sql.eqz (fst x) (fst y)) = true) b)
        as [|y0 ys] eqn:E.
      * right. left. exists x. destruct Hj as [<-|[]]. auto.
      * left. apply list_elem_of_In, elem_of_map in Hj.
        destruct Hj as (y & -> & Hy). rewrite <- E in Hy.
        apply list_elem_of_filter in Hy. destruct Hy as [Hm Hy].
        exists x, y. auto.
    + right. right. apply list_elem_of_filter in Hy. destruct Hy as [He Hy].
      exists y. auto.
  - intros [(x & y & -> & Hx & Hy & Hm)|[(x & -> & Hx & He)|(y & -> & Hy & He)]].
    + left. exists x. split; [apply list_elem_of_In; exact Hx|].
      assert (Hin : y ∈ filter (fun y => Sql.holds (Sql.eqz (fst x) (fst y)) = true) b).
      { apply list_elem_of_filter. auto. }
      destruct (filter _ b) as [|y0 ys] eqn:E; [inversion Hin|].
      apply list_elem_of_In, elem_of_map. exists y. auto.
    + left. exists x. split; [apply list_elem_of_In; exact Hx|].
      rewrite He. left. reflexivity.
    + right. exists y. split; [reflexivity|].
      apply list_elem_of_filter. auto.
Qed.

(** The division of [pct_change] is only reached with a positive divisor. *)
Lemma pct_change_value (j : option (option Z * Z) * option (option Z * Z)) :
  let r := border_select j in
  pct_change r =
  if count_2024 r >? 0
  then Some (inject_Z (count_2025 r - count_2024 r) * 100 / inject_Z (count_2024 r))%Q
  else Some 0%Q.
Proof.
  destruct j as [a b]. unfold border_select. cbv zeta. simpl fst. simpl snd.
  cbn [pct_change count_2024 count_2025].
  destruct (Sql.coalesce (side_cnt a) 0 >? 0) eqn:E; [|reflexivity].
  destruct a as [[k n]|]; simpl in *; [|discriminate].
  apply div_nonzero. apply Z.gtb_lt in E. intros Hz.
  assert (Hp : (0 < inject_Z n)%Q).
  { change (inject_Z 0 < inject_Z n)%Q. rewrite <- Zlt_Qlt. exact E. }
  rewrite Hz in Hp. revert Hp. apply Qlt_irrefl.
Qed.

(** A zone of the later year only: its row is there, with 0 and 0. *)
Lemma new_zone_row (y24 y25 : list Raw.row) (z : Z) :
  drops_in_q1 y25 z -> ~ drops_in_q1 y24 z ->
  {| location_id := Some z;
     count_2024 := 0;
     count_2025 := q1_count_of y25 z;
     border_diff := q1_count_of y25 z;
     pct_change := Some 0%Q |} ∈ border_query y24 y25.
Proof.
  intros H25 H24. unfold border_query. apply elem_of_map.
  exists (None, Some (Some z, q1_count_of y25 z)). split.
  - unfold border_select. simpl. f_equal. lia.
  - apply elem_of_full_outer_join. right. right. eexists. split; [reflexivity|].
    split.
    + apply elem_of_q1_dropoffs. auto.
    + apply (no_partner _ z); [|reflexivity].
      intros n Hn. apply H24. exact (q1_dropoffs_key _ _ _ Hn).
Qed.

(** Any row for a zone without drop-offs in the earlier year shows 0 and 0. *)
Lemma border_zone_absent_earlier (y24 y25 : list Raw.row) (z : Z) (r : border_row) :
  r ∈ border_query y24 y25 -> location_id r = Some z -> ~ drops_in_q1 y24 z ->
  count_2024 r = 0 /\ pct_change r = Some 0%Q.
Proof.
  unfold border_query. intros Hr Hz H24. apply elem_of_map in Hr.
  destruct Hr as (j & -> & Hj). apply elem_of_full_outer_join in Hj.
  destruct Hj as [(x & y & -> & Hx & Hy & Hm)|[(x & -> & Hx & He)|(y & -> & Hy & He)]].
  - exfalso. destruct x as [[k|] n]; simpl in Hz; [|destruct y as [[?|] ?]; discriminate].
    injection Hz as ->. apply H24. exact (q1_dropoffs_key _ _ _ Hx).
  - exfalso. destruct x as [[k|] n]; simpl in Hz; [|discriminate].
    injection Hz as ->. apply H24. exact (q1_dropoffs_key _ _ _ Hx).
  - split; reflexivity.
Qed.

(** The border job has a handler of its own: it never raises. *)
Lemma border_job_total (w : world) : exists w', border_job w = Ok tt w'.
Proof.
  unfold border_job, try_except.
  destruct (execute BorderCopy _ w) as [[] w'|e w']; [eauto|].
  unfold print, emit. eauto.
Qed.

Lemma border_job_run (w : world) (y24 y25 : list Raw.row) :
  is_Some (connection w) ->
  engine_fault (env w) BorderCopy = false ->
  scan (trip_dir 2024 yellow) (files w) = inr y24 ->
  scan (trip_dir 2025 yellow) (files w) = inr y25 ->
  exists w',
    border_job w = Ok tt w' /\
    data <$> (files w' !! border_file) = Some (BorderCsv (border_query y24 y25)).
Proof.
  intros Hc Hf H24 H25. unfold border_job. mstep.
  rewrite execute_run by mside. mstep.
  rewrite read_parquet_run. mstep. rewrite H24.
  rewrite read_parquet_run. mstep. rewrite H25.
  eexists. split; [reflexivity|]. mstep. rewrite lookup_insert_eq. reflexivity.
Qed.

(** C5. In the border-effect table a zone with Q1 drop-offs in the later
    year only has a row, and every row of that zone shows an earlier count
    of 0 and a percent change of 0.  For any input the percent change of a
    row is defined: the division is reached only with a positive earlier
    count, so no row is left without a value by a division by zero; and
    the job itself never raises.  When its statement runs, the table
    written is the outer join of the two years' counts. *)
Theorem border_new_zone_zero :
  (forall y24 y25 z,
     drops_in_q1 y25 z -> ~ drops_in_q1 y24 z ->
     (exists r, r ∈ border_query y24 y25 /\ location_id r = Some z /\
                count_2024 r = 0 /\ count_2025 r = q1_count_of y25 z /\
                pct_change r = Some 0%Q) /\
     (forall r, r ∈ border_query y24 y25 -> location_id r = Some z ->
                count_2024 r = 0 /\ pct_change r = Some 0%Q)) /\
  (forall y24 y25,
     Forall (fun r =>
               pct_change r =
               if count_2024 r >? 0
               then Some (inject_Z (count_2025 r - count_2024 r) * 100
                          / inject_Z (count_2024 r))%Q
               else Some 0%Q)
            (border_query y24 y25)) /\
  (forall w, exists w', border_job w = Ok tt w') /\
  (forall w y24 y25,
     is_Some (connection w) ->
     engine_fault (env w) BorderCopy = false ->
     scan (trip_dir 2024 yellow) (files w) = inr y24 ->
     scan (trip_dir 2025 yellow) (files w) = inr y25 ->
     exists w',
       border_job w = Ok tt w' /\
       data <$> (files w' !! border_file) = Some (BorderCsv (border_query y24 y25))).
Proof.
  split; [|split; [|split]].
  - intros y24 y25 z H25 H24. split.
    + eexists. split; [apply (new_zone_row y24 y25 z H25 H24)|]. repeat split.
    + intros r Hr Hz. exact (border_zone_absent_earlier y24 y25 z r Hr Hz H24).
  - intros y24 y25. unfold border_query. apply Forall_map, Forall_forall.
    intros j _. apply pct_change_value.
  - exact border_job_total.
  - exact border_job_run.
Qed.

Lemma border_new_zone_zero_witness :
  drops_in_q1 border_2025 12 /\ ~ drops_in_q1 border_2024 12 /\
  (exists r, r ∈ border_query border_2024 border_2025 /\ location_id r = Some 12 /\
             count_2024 r = 0 /\ count_2025 r = q1_count_of border_2025 12 /\
             pct_change r = Some 0%Q) /\
  map (fun r => (location_id r, count_2024 r, count_2025 r, pct_change r))
      (border_query border_2024 border_2025)
  = [(Some 4, 1, 5, Some (400 # 1)%Q); (Some 12, 0, 1, Some 0%Q)].
Proof.
  assert (H25 : drops_in_q1 border_2025 12).
  { eexists. split; [left|]. split; reflexivity. }
  assert (H24 : ~ drops_in_q1 border_2024 12).
  { intros (r & Hr & Hz & _). unfold border_2024 in Hr.
    apply list_elem_of_singleton in Hr. subst r. discriminate Hz. }
  split; [exact H25|]. split; [exact H24|]. split.
  - exact (proj1 (proj1 border_new_zone_zero border_2024 border_2025 12 H25 H24)).
  - vm_compute. reflexivity.
Defined.

(* ===================================================================== *)
(** ** What each job of the impact analysis can do *)
(* ===================================================================== *)

(** Case analysis on everything a statement depends on. *)
Ltac mcases :=
  repeat (mstep;
          match goal with
          | |- context [match connection ?w with _ => _ end] =>
              destruct (connection w) as [[]|] eqn:?
          | |- context [if engine_fault ?e ?q then _ else _] =>
              destruct (engine_fault e q) eqn:?
          | |- context [match scan ?d ?f with _ => _ end] =>
              destruct (scan d f) eqn:?
          end).

Lemma executed_app (t1 t2 : list event) :
  executed (t1 ++ t2) = executed t1 ++ executed t2.
Proof. unfold executed. apply omap_app. Qed.

Lemma executed_cons (e : event) (t : list event) :
  executed (e :: t) = executed [e] ++ executed t.
Proof. apply (executed_app [e] t). Qed.

(** Job 1 never raises, writes nothing, and says nothing when its
    statement fails: the revenue is then 0. *)
Lemma revenue_job_spec (w : world) :
  exists revenue w' evs,
    revenue_job w = Ok revenue w' /\
    env w' = env w /\ connection w' = connection w /\ files w' = files w /\
    trace w' = trace w ++ Execute RevQuery :: evs /\
    executed evs = [] /\
    (engine_fault (env w) RevQuery = true -> revenue = 0%Q /\ evs = []) /\
    (connection w <> Some true -> revenue = 0%Q /\ evs = []) /\
    draws w' = draws w.
Proof.
  unfold revenue_job, execute, all_trips_2025, read_parquet.
  mcases; eexists; eexists; eexists;
    (split; [reflexivity|]); mstep; rewrite <- ?app_assoc;
    repeat split; try reflexivity; try congruence.
Qed.

(** [get_q1_count] never raises and writes nothing; a failed count is 0,
    without a line on the console. *)
Lemma get_q1_count_spec (y : Z) (w : world) :
  exists n w',
    get_q1_count y w = Ok n w' /\
    env w' = env w /\ connection w' = connection w /\ files w' = files w /\
    trace w' = trace w ++ [Execute (QZone y)] /\
    (engine_fault (env w) (QZone y) = true -> n = 0) /\
    (forall ys gs, is_Some (connection w) -> engine_fault (env w) (QZone y) = false ->
                   scan (trip_dir y yellow) (files w) = inr ys ->
                   scan (trip_dir y green) (files w) = inr gs ->
                   n = q_zone y ys gs).
Proof.
  unfold get_q1_count, execute, read_parquet.
  mcases; eexists; eexists;
    (split; [reflexivity|]); mstep;
    repeat split; try reflexivity; try congruence;
    try (intros ? ? [? ?]; congruence).
Qed.

(** [export_velocity] never raises; it either writes its table or prints
    the exception, and touches no other file. *)
Lemma export_velocity_spec (y : Z) (w : world) :
  exists w' evs,
    export_velocity y w = Ok tt w' /\
    env w' = env w /\ connection w' = connection w /\
    (forall p, p <> velocity_file y -> files w' !! p = files w !! p) /\
    trace w' = trace w ++ Execute (VelocityCopy y) :: evs /\
    (evs = [Write (velocity_file y)] \/
     exists e, evs = [Print (MsgVelocityFailed y e)] /\ files w' = files w) /\
    (is_Some (connection w) -> engine_fault (env w) (VelocityCopy y) = true ->
     evs = [Print (MsgVelocityFailed y (EngineError (VelocityCopy y)))]).
Proof.
  unfold export_velocity, execute, read_parquet.
  mcases; eexists; eexists;
    (split; [reflexivity|]); mstep; rewrite <- ?app_assoc;
    (split; [reflexivity|]); (split; [reflexivity|]);
    (split; [intros p Hp; rewrite ?lookup_insert_ne by congruence; reflexivity|]);
    (split; [reflexivity|]);
    (split; [first [left; reflexivity | right; eexists; split; reflexivity]|]);
    first [congruence | intros [? ?]; congruence | reflexivity].
Qed.

(** The border job likewise. *)
Lemma border_job_spec (w : world) :
  exists w' evs,
    border_job w = Ok tt w' /\
    env w' = env w /\ connection w' = connection w /\
    (forall p, p <> border_file -> files w' !! p = files w !! p) /\
    trace w' = trace w ++ Execute BorderCopy :: evs /\
    (evs = [Write border_file] \/
     exists e, evs = [Print (MsgBorderFailed e)] /\ files w' = files w) /\
    (is_Some (connection w) -> engine_fault (env w) BorderCopy = true ->
     evs = [Print (MsgBorderFailed (EngineError BorderCopy))]).
Proof.
  unfold border_job, execute, read_parquet.
  mcases; eexists; eexists;
    (split; [reflexivity|]); mstep; rewrite <- ?app_assoc;
    (split; [reflexivity|]); (split; [reflexivity|]);
    (split; [intros p Hp; rewrite ?lookup_insert_ne by congruence; reflexivity|]);
    (split; [reflexivity|]);
    (split; [first [left; reflexivity | right; eexists; split; reflexivity]|]);
    first [congruence | intros [? ?]; congruence | reflexivity].
Qed.

(** The leakage job has no handler: when its statement fails, the
    exception leaves the job, and nothing is written. *)
Lemma leakage_job_raises (w : world) :
  engine_fault (env w) LeakageCopy = true \/ connection w <> Some true ->
  exists e, leakage_job w = Raise e (set_trace (trace w ++ [Execute LeakageCopy]) w).
Proof.
  unfold leakage_job, execute, all_trips_2025, read_parquet.
  intros [H|H]; mcases; try congruence; eexists; reflexivity.
Qed.

(** The impact analysis, once its leakage statement succeeds: the stage
    returns, the summary is written, and all seven statements have been
    submitted, whichever of the guarded ones failed. *)
Lemma run_impact_analysis_spec (w : world) (ys gs : list Raw.row)
      (gc : Z) (sv : list (option Z * Z)) :
  connection w = Some true ->
  engine_fault (env w) LeakageCopy = false ->
  scan (trip_dir 2025 yellow) (files w) = inr ys ->
  scan (trip_dir 2025 green) (files w) = inr gs ->
  exists w' s evs,
    run_impact_analysis gc sv w = Ok tt w' /\
    data <$> (files w' !! stats_file) = Some (StatsJson s) /\
    ghost_count s = gc /\ suspicious_vendors s = sv /\
    stats_q1_pct_change s = q1_pct_change (q1_2024_vol s) (q1_2025_vol s) /\
    trace w' = trace w ++ evs /\
    executed evs = [RevQuery; LeakageCopy; QZone 2024; QZone 2025;
                    VelocityCopy 2024; VelocityCopy 2025; BorderCopy] /\
    Print (MsgQ1 (q1_2024_vol s) (q1_2025_vol s) (stats_q1_pct_change s)) ∈ evs /\
    (engine_fault (env w) RevQuery = true -> revenue_2025 s = 0%Q) /\
    (engine_fault (env w) (QZone 2024) = true -> q1_2024_vol s = 0) /\
    (engine_fault (env w) (QZone 2025) = true -> q1_2025_vol s = 0) /\
    (engine_fault (env w) (VelocityCopy 2024) = true ->
     Print (MsgVelocityFailed 2024 (EngineError (VelocityCopy 2024))) ∈ evs) /\
    (engine_fault (env w) (VelocityCopy 2025) = true ->
     Print (MsgVelocityFailed 2025 (EngineError (VelocityCopy 2025))) ∈ evs) /\
    (engine_fault (env w) BorderCopy = true ->
     Print (MsgBorderFailed (EngineError BorderCopy)) ∈ evs).
Proof.
  intros Hc Hf Hy Hg. unfold run_impact_analysis. mstep.
  match goal with |- context [revenue_job ?w0] =>
    destruct (revenue_job_spec w0) as (rev & w1 & ev1 & R1 & E1 & C1 & F1 & T1 & X1 & Z1 & _)
  end.
  rewrite R1. mstep. cbn [env connection files trace] in E1, C1, F1, T1, Z1.
  destruct (leakage_job_run w1 ys gs) as (w2 & R2 & _ & C2 & E2 & F2 & T2);
    [congruence|congruence|congruence|congruence|].
  rewrite R2. mstep.
  match goal with |- context [get_q1_count 2024 ?w0] =>
    destruct (get_q1_count_spec 2024 w0) as (n24 & w3 & R3 & E3 & C3 & F3 & T3 & Z3 & _)
  end.
  rewrite R3. mstep. cbn [env connection files trace] in E3, C3, F3, T3, Z3.
  match goal with |- context [get_q1_count 2025 ?w0] =>
    destruct (get_q1_count_spec 2025 w0) as (n25 & w4 & R4 & E4 & C4 & F4 & T4 & Z4 & _)
  end.
  rewrite R4. mstep. cbn [env connection files trace] in E4, C4, F4, T4, Z4.
  match goal with |- context [export_velocity 2024 ?w0] =>
    destruct (export_velocity_spec 2024 w0) as (w5 & ev5 & R5 & E5 & C5 & F5 & T5 & D5 & Z5)
  end.
  rewrite R5. mstep. cbn [env connection files trace] in E5, C5, F5, T5, Z5.
  match goal with |- context [export_velocity 2025 ?w0] =>
    destruct (export_velocity_spec 2025 w0) as (w6 & ev6 & R6 & E6 & C6 & F6 & T6 & D6 & Z6)
  end.
  rewrite R6. mstep. cbn [env connection files trace] in E6, C6, F6, T6, Z6.
  match goal with |- context [border_job ?w0] =>
    destruct (border_job_spec w0) as (w7 & ev7 & R7 & E7 & C7 & F7 & T7 & D7 & Z7)
  end.
  rewrite R7. cbn [env connection files trace] in E7, C7, F7, T7, Z7.
  assert (N1 : stats_file <> velocity_file 2024) by (vm_compute; discriminate).
  assert (N2 : stats_file <> velocity_file 2025) by (vm_compute; discriminate).
  assert (N3 : stats_file <> border_file) by (vm_compute; discriminate).
  eexists. eexists. eexists. split; [reflexivity|].
  split.
  { rewrite (F7 _ N3), (F6 _ N2), (F5 _ N1), lookup_insert_eq. reflexivity. }
  cbn [ghost_count suspicious_vendors stats_q1_pct_change q1_2024_vol q1_2025_vol
       revenue_2025].
  split; [reflexivity|]. split; [reflexivity|]. split; [reflexivity|].
  split.
  { rewrite T7, T6, T5, T4, T3, T2, T1. rewrite <- !app_assoc. reflexivity. }
  split.
  { rewrite !executed_app, (executed_cons _ ev1), (executed_cons _ ev5),
      (executed_cons _ ev6), (executed_cons _ ev7), X1.
    destruct D5 as [->|(e5 & -> & _)], D6 as [->|(e6 & -> & _)],
             D7 as [->|(e7 & -> & _)]; reflexivity. }
  split.
  { rewrite !elem_of_app, !elem_of_cons. tauto. }
  assert (Hopen : forall w0, connection w0 = Some true -> is_Some (connection w0)).
  { intros w0 ->. eauto. }
  split.
  { intros H. apply Z1. exact H. }
  split.
  { intros H. apply Z3. congruence. }
  split.
  { intros H. apply Z4. congruence. }
  split.
  { intros H. rewrite Z5; [|apply Hopen; congruence|congruence].
    rewrite !elem_of_app, !elem_of_cons. tauto. }
  split.
  { intros H. rewrite Z6; [|apply Hopen; congruence|congruence].
    rewrite !elem_of_app, !elem_of_cons. tauto. }
  intros H. rewrite Z7; [|apply Hopen; congruence|congruence].
  rewrite !elem_of_app, !elem_of_cons. tauto.
Qed.

(* ===================================================================== *)
(** ** C6: the Q1 percent change *)
(* ===================================================================== *)

Lemma q1_pct_change_positive (earlier later : Z) :
  0 < earlier ->
  (q1_pct_change earlier later == Spec.percent_change earlier later)%Q.
Proof.
  intros H. unfold q1_pct_change, Spec.percent_change.
  apply Z.gtb_lt in H. rewrite H.
  unfold Z.sub. rewrite inject_Z_plus, inject_Z_opp. reflexivity.
Qed.

Lemma q1_pct_change_zero (earlier later : Z) :
  earlier <= 0 -> q1_pct_change earlier later = 0%Q.
Proof.
  intros H. unfold q1_pct_change.
  destruct (earlier >? 0) eqn:E; [|reflexivity].
  apply Z.gtb_lt in E. lia.
Qed.

(** C6. The percent change of the Q1 volume is
    (later - earlier) / earlier * 100 when the earlier count is positive
    and 0 when it is 0; counts of 1,000 and 1,100 give 10, printed with two
    decimals as 10.00.  When the impact analysis runs, this is the value
    it prints and writes to the summary, next to the two counts it was
    computed from. *)
Theorem q1_percent_change :
  (forall earlier later,
     0 < earlier ->
     (q1_pct_change earlier later == Spec.percent_change earlier later)%Q) /\
  (forall later, q1_pct_change 0 later = 0%Q) /\
  (q1_pct_change 1000 1100 == 10)%Q /\
  format_2f (q1_pct_change 1000 1100) = "10.00" /\
  (forall w ys gs gc sv,
     connection w = Some true ->
     engine_fault (env w) LeakageCopy = false ->
     scan (trip_dir 2025 yellow) (files w) = inr ys ->
     scan (trip_dir 2025 green) (files w) = inr gs ->
     exists w' s,
       run_impact_analysis gc sv w = Ok tt w' /\
       data <$> (files w' !! stats_file) = Some (StatsJson s) /\
       stats_q1_pct_change s = q1_pct_change (q1_2024_vol s) (q1_2025_vol s) /\
       Print (MsgQ1 (q1_2024_vol s) (q1_2025_vol s)
                    (q1_pct_change (q1_2024_vol s) (q1_2025_vol s))) ∈ trace w').
Proof.
  split; [exact q1_pct_change_positive|].
  split; [intros later; apply q1_pct_change_zero; lia|].
  split; [reflexivity|]. split; [vm_compute; reflexivity|].
  intros w ys gs gc sv Hc Hf Hy Hg.
  destruct (run_impact_analysis_spec w ys gs gc sv Hc Hf Hy Hg)
    as (w' & s & evs & Hrun & Hfile & _ & _ & Hpct & Htr & _ & Hq1 & _).
  exists w', s. split; [exact Hrun|]. split; [exact Hfile|]. split; [exact Hpct|].
  rewrite Htr, <- Hpct. apply elem_of_app. right. exact Hq1.
Qed.

Lemma q1_percent_change_witness :
  (q1_pct_change 1000 1100 == Spec.percent_change 1000 1100)%Q /\
  (exists w' s,
     run_impact_analysis 4 [(Some 2, 2); (Some 3, 2)] leakage_world = Ok tt w' /\
     data <$> (files w' !! stats_file) = Some (StatsJson s) /\
     stats_q1_pct_change s = q1_pct_change (q1_2024_vol s) (q1_2025_vol s) /\
     Print (MsgQ1 (q1_2024_vol s) (q1_2025_vol s)
                  (q1_pct_change (q1_2024_vol s) (q1_2025_vol s))) ∈ trace w').
Proof.
  split.
  - apply (proj1 q1_percent_change 1000 1100). lia.
  - apply (proj2 (proj2 (proj2 (proj2 q1_percent_change))) leakage_world
             (repeat (paid_row 1 10 0 10 30 5 25) 60
              ++ repeat (sample_row 1 10 0 10 30 5 25) 60)
             sample_green).
    + reflexivity.
    + reflexivity.
    + vm_compute. reflexivity.
    + vm_compute. reflexivity.
Defined.

Example format_2f_samples :
  format_2f (1 # 3) = "0.33" /\ format_2f (-(25 # 2)) = "-12.50" /\
  format_2f (1 # 8) = "0.12" /\ format_2f (3 # 8) = "0.38" /\
  format_2f 0 = "0.00".
Proof. repeat split. Qed.

(* ===================================================================== *)
(** ** C7: imputation is skipped when the target is there *)
(* ===================================================================== *)

Lemma impute_taxi_present (t : taxi) (w : world) :
  is_Some (files w !! target_file t) ->
  impute_taxi t w
  = Ok tt (set_trace (trace w ++ [Print (MsgAlreadyExists (trip_file_name t 2025 12))]) w).
Proof.
  intros H. unfold impute_taxi, path_exists. mstep.
  rewrite bool_decide_eq_true_2 by exact H. reflexivity.
Qed.

Lemma target_files_differ : target_file yellow <> target_file green.
Proof. vm_compute. discriminate. Qed.

(** One round of the loop leaves the other taxi's target alone. *)
Lemma impute_taxi_other (t t' : taxi) (w : world) :
  t <> t' ->
  files (final (impute_taxi t w)) !! target_file t' = files w !! target_file t'.
Proof.
  intros Hne.
  assert (Hp : target_file t <> target_file t').
  { destruct t, t'; try congruence;
      [exact target_files_differ|apply not_eq_sym, target_files_differ]. }
  unfold impute_taxi, path_exists, execute, impute_copy, read_parquet_file, sample.
  mstep.
  repeat match goal with
         | |- context [bool_decide ?P] => destruct (bool_decide P)
         | |- context [match connection ?w with _ => _ end] => destruct (connection w)
         | |- context [if engine_fault ?e ?q then _ else _] => destruct (engine_fault e q)
         | |- context [match files ?w !! ?p with _ => _ end] => destruct (files w !! p) as [[? []]|]
         | _ => progress (cbn [negb orb andb final]; mstep)
         end;
    try reflexivity; apply lookup_insert_ne; exact Hp.
Qed.

Lemma final_bind {A B} (m : M A) (k : A -> M B) (w : world) :
  final (bind m k w) =
  match m w with
  | Ok a w' => final (k a w')
  | Raise _ w' => w'
  end.
Proof. unfold bind. destruct (m w); reflexivity. Qed.

(** A call with both targets in place. *)
Lemma impute_december_data_present (w : world) :
  (forall t, is_Some (files w !! target_file t)) ->
  files (final (impute_december_data w)) = files w /\
  draws (final (impute_december_data w)) = draws w /\
  exists evs, trace (final (impute_december_data w)) = trace w ++ evs /\
              Forall harmless evs.
Proof.
  intros H. unfold impute_december_data, get_duckdb_conn, execute, for_each, TAXI_TYPES.
  mstep.
  destruct (engine_fault (env w) SetMemoryLimit).
  { cbn [final files draws trace]. repeat split.
    eexists. split; [reflexivity|]. repeat constructor. }
  mstep. destruct (engine_fault (env w) SetThreads).
  { cbn [final files draws trace]. repeat split.
    eexists. split; [rewrite <- app_assoc; reflexivity|]. repeat constructor. }
  mstep.
  rewrite impute_taxi_present by apply H. mstep.
  rewrite impute_taxi_present by apply H. mstep.
  cbn [final files draws trace]. repeat split.
  eexists. split; [rewrite <- !app_assoc; reflexivity|]. repeat constructor.
Qed.

(** A call keeps every target that is in place, whatever happens to the
    other one. *)
Lemma impute_december_data_keeps (w : world) (t : taxi) :
  is_Some (files w !! target_file t) ->
  files (final (impute_december_data w)) !! target_file t = files w !! target_file t.
Proof.
  intros H. unfold impute_december_data, get_duckdb_conn, execute, for_each, TAXI_TYPES.
  mstep.
  destruct (engine_fault (env w) SetMemoryLimit); [reflexivity|].
  mstep. destruct (engine_fault (env w) SetThreads); [reflexivity|].
  mstep.
  match goal with |- context [impute_taxi yellow ?w0] => set (w1 := w0) end.
  assert (F1 : files w1 = files w) by reflexivity.
  destruct t.
  - rewrite impute_taxi_present by (rewrite F1; exact H). mstep.
    match goal with |- context [impute_taxi green ?w0] =>
      pose proof (impute_taxi_other green yellow w0 ltac:(discriminate)) as Ho;
      destruct (impute_taxi green w0) as [[] w2|e w2]
    end; cbn [final files] in Ho |- *; exact Ho.
  - pose proof (impute_taxi_other yellow green w1 ltac:(discriminate)) as Ho.
    destruct (impute_taxi yellow w1) as [[] w2|e w2]; cbn [final] in Ho |- *.
    + rewrite impute_taxi_present by (rewrite Ho, F1; exact H).
      mstep. cbn [final files]. rewrite Ho, F1. reflexivity.
    + rewrite Ho, F1. reflexivity.
Qed.

(** C7. A round of the imputation loop whose target file exists does
    nothing but print that it exists: no statement is submitted, no file
    is written, no random value is drawn.  A call with both targets in
    place leaves every file and the count of draws unchanged and submits
    nothing but the two settings of its connection; a call keeps any
    target that is in place; so a call that follows a call after which
    both targets exist changes no file and draws nothing. *)
Theorem imputation_idempotent :
  (forall t w,
     is_Some (files w !! target_file t) ->
     impute_taxi t w
     = Ok tt (set_trace (trace w ++ [Print (MsgAlreadyExists (trip_file_name t 2025 12))]) w)) /\
  (forall w,
     (forall t, is_Some (files w !! target_file t)) ->
     files (final (impute_december_data w)) = files w /\
     draws (final (impute_december_data w)) = draws w /\
     exists evs, trace (final (impute_december_data w)) = trace w ++ evs /\
                 Forall harmless evs) /\
  (forall w t,
     is_Some (files w !! target_file t) ->
     files (final (impute_december_data w)) !! target_file t = files w !! target_file t) /\
  (forall w w1,
     impute_december_data w = Ok tt w1 ->
     (forall t, is_Some (files w1 !! target_file t)) ->
     files (final (impute_december_data w1)) = files w1 /\
     draws (final (impute_december_data w1)) = draws w1).
Proof.
  split; [exact impute_taxi_present|].
  split; [exact impute_december_data_present|].
  split; [exact impute_december_data_keeps|].
  intros w w1 _ H. destruct (impute_december_data_present w1 H) as (Hf & Hd & _).
  split; assumption.
Qed.

Lemma imputation_idempotent_witness :
  exists w1 w2,
    impute_december_data december_world = Ok tt w1 /\
    draws w1 = 16%nat /\
    (forall t, is_Some (files w1 !! target_file t)) /\
    impute_december_data w1 = Ok tt w2 /\
    files w2 = files w1 /\ draws w2 = draws w1 /\
    impute_taxi yellow w1
    = Ok tt (set_trace (trace w1 ++ [Print (MsgAlreadyExists "yellow_tripdata_2025-12.parquet")]) w1).
Proof.
  destruct (impute_december_data december_world) as [[] w1|e w1] eqn:E1;
    [|vm_compute in E1; discriminate E1].
  assert (Hd : draws w1 = 16%nat).
  { vm_compute in E1. injection E1 as <-. reflexivity. }
  assert (Ht : forall t, is_Some (files w1 !! target_file t)).
  { vm_compute in E1. injection E1 as <-. intros []; vm_compute; eauto. }
  destruct (proj2 (proj2 (proj2 imputation_idempotent)) december_world w1 E1 Ht)
    as [Hf Hdr].
  destruct (impute_december_data w1) as [[] w2|e w2] eqn:E2.
  - exists w1, w2. cbn [final] in Hf, Hdr. repeat split; try assumption.
    apply (proj1 imputation_idempotent yellow w1 (Ht yellow)).
  - exfalso. vm_compute in E1. injection E1 as <-. vm_compute in E2. discriminate E2.
Defined.

(* ===================================================================== *)
(** ** C8: when the view cannot be built *)
(* ===================================================================== *)

Lemma scan_no_files (dir : string) (fs : gmap string file) :
  expand_glob dir fs = [] -> scan dir fs = inl (NoFilesFound (join dir "*.parquet")).
Proof. intros H. unfold scan. rewrite H. reflexivity. Qed.

(** [CREATE VIEW] fails when one of its globs matches no file. *)
Lemma create_view_fails (w : world) :
  is_Some (connection w) ->
  expand_glob (trip_dir 2025 yellow) (files w) = [] \/
  expand_glob (trip_dir 2025 green) (files w) = [] ->
  exists e, create_view w = Raise e (set_trace (trace w ++ [Execute CreateView]) w).
Proof.
  intros [c Hc] H. unfold create_view, execute, read_parquet. mstep. rewrite Hc. mstep.
  change (join DATA_DIR "2025/yellow") with (trip_dir 2025 yellow).
  change (join DATA_DIR "2025/green") with (trip_dir 2025 green).
  destruct (engine_fault (env w) CreateView); [eexists; reflexivity|].
  mstep. destruct H as [H|H].
  - rewrite (scan_no_files _ _ H). eexists; reflexivity.
  - destruct (scan (trip_dir 2025 yellow) (files w)); [eexists; reflexivity|].
    mstep. rewrite (scan_no_files _ _ H). eexists; reflexivity.
Qed.

(** The audit catches that failure and returns nothing flagged. *)
Lemma run_ghost_trip_audit_no_view (w : world) :
  is_Some (connection w) ->
  expand_glob (trip_dir 2025 yellow) (files w) = [] \/
  expand_glob (trip_dir 2025 green) (files w) = [] ->
  exists e,
    run_ghost_trip_audit w
    = Ok (0, []) (set_trace (trace w ++ [Print MsgPhase2; Execute CreateView;
                                         Print (MsgViewError e)]) w).
Proof.
  intros Hc H. unfold run_ghost_trip_audit. mstep.
  match goal with |- context [create_view ?w0] =>
    destruct (create_view_fails w0 Hc H) as (e & He)
  end.
  rewrite He. mstep. exists e. rewrite <- !app_assoc. reflexivity.
Qed.

(** The guarded part of [main] then runs into the leakage statement. *)
Lemma main_guarded_no_view (w : world) (e1 : exn) :
  connection w = Some false ->
  run_ghost_trip_audit w
  = Ok (0, []) (set_trace (trace w ++ [Print MsgPhase2; Execute CreateView;
                                       Print (MsgViewError e1)]) w) ->
  exists e2,
    main_guarded w
    = Ok tt (set_connection None
               (set_trace (trace w ++ [Print MsgPhase2; Execute CreateView;
                                       Print (MsgViewError e1);
                                       Print MsgPhase3; Execute RevQuery;
                                       Execute LeakageCopy;
                                       Print (MsgCritical e2); Traceback e2]) w)).
Proof.
  intros Hc He1.
  unfold main_guarded, try_finally, main_stages. mstep. rewrite He1.
  cbn [fst snd]. unfold run_impact_analysis. mstep.
  match goal with |- context [revenue_job ?w0] =>
    destruct (revenue_job_spec w0) as (rev & w1 & ev1 & R1 & E1 & C1 & F1 & T1 & _ & _ & Z1 & D1)
  end.
  cbn [env connection files trace draws] in E1, C1, F1, T1, Z1, D1.
  destruct Z1 as [_ ->]; [congruence|].
  rewrite R1. mstep.
  destruct (leakage_job_raises w1) as (e2 & R2); [right; congruence|].
  rewrite R2. unfold close. mstep. exists e2.
  rewrite T1, E1, F1, D1, <- !app_assoc. reflexivity.
Qed.

(** A connection that was just opened has no view. *)
Lemma get_duckdb_conn_fresh (w w' : world) :
  get_duckdb_conn w = Ok tt w' -> connection w' = Some false /\ files w' = files w.
Proof.
  unfold get_duckdb_conn, execute. mstep.
  destruct (engine_fault (env w) SetMemoryLimit); [discriminate|]. mstep.
  destruct (engine_fault (env w) SetThreads); [discriminate|].
  intros [= <-]. split; reflexivity.
Qed.

(** C8, as the code has it.  When one of the two globs of the view
    matches no file on a fresh connection, [CREATE VIEW] fails;
    [run_ghost_trip_audit] catches the failure, prints it and returns a
    count of 0 with no vendors, without submitting the audit statement.
    [main] goes on to the impact analysis: the revenue statement is
    submitted and its failure replaced by 0 without a message, the leakage
    statement is submitted and its failure reaches the handler of [main],
    which prints it as the critical pipeline error.  No further statement
    is submitted, no file is written, the connection is closed and [main]
    ends normally. *)
Theorem view_failure_handling (w : world) :
  connection w = Some false ->
  expand_glob (trip_dir 2025 yellow) (files w) = [] \/
  expand_glob (trip_dir 2025 green) (files w) = [] ->
  exists e1 e2 w',
    run_ghost_trip_audit w
    = Ok (0, []) (set_trace (trace w ++ [Print MsgPhase2; Execute CreateView;
                                         Print (MsgViewError e1)]) w) /\
    main_guarded w = Ok tt w' /\
    files w' = files w /\ connection w' = None /\
    trace w' = trace w ++ [Print MsgPhase2; Execute CreateView; Print (MsgViewError e1);
                           Print MsgPhase3; Execute RevQuery; Execute LeakageCopy;
                           Print (MsgCritical e2); Traceback e2].
Proof.
  intros Hc H.
  destruct (run_ghost_trip_audit_no_view w ltac:(rewrite Hc; eauto) H) as (e1 & He1).
  destruct (main_guarded_no_view w e1 Hc He1) as (e2 & Hm).
  exists e1, e2. eexists. split; [exact He1|]. split; [exact Hm|].
  repeat split.
Qed.

Lemma view_failure_handling_witness :
  exists w',
    main bare_world = Ok tt w' /\ files w' = ∅ /\
    executed (trace w')
    = [SetMemoryLimit; SetThreads; SetMemoryLimit; SetThreads;
       CreateView; RevQuery; LeakageCopy] /\
    exists e1 e2 w'',
      main_guarded bare_connected = Ok tt w'' /\
      trace w'' = [Print MsgPhase2; Execute CreateView; Print (MsgViewError e1);
                   Print MsgPhase3; Execute RevQuery; Execute LeakageCopy;
                   Print (MsgCritical e2); Traceback e2].
Proof.
  eexists. split; [vm_compute; reflexivity|]. split; [reflexivity|].
  split; [vm_compute; reflexivity|].
  destruct (view_failure_handling bare_connected) as (e1 & e2 & w'' & _ & Hm & _ & _ & Ht).
  - reflexivity.
  - left. vm_compute. reflexivity.
  - exists e1, e2, w''. split; [exact Hm|exact Ht].
Defined.

(** C8 as the specification words it does not hold: on an empty disk the
    audit returns to its caller instead of raising, and two statements of
    the impact analysis are submitted after the failed [CREATE VIEW]. *)
Lemma view_failure_not_fatal :
  ~ view_failure_is_fatal bare_connected /\
  (exists w', run_ghost_trip_audit bare_connected = Ok (0, []) w') /\
  executed (trace (final (main_guarded bare_connected)))
  = [CreateView; RevQuery; LeakageCopy].
Proof.
  split; [|split].
  - intros H. destruct H as [(e & w' & Hr) _].
    + left. vm_compute. reflexivity.
    + vm_compute in Hr. discriminate Hr.
  - eexists. vm_compute. reflexivity.
  - vm_compute. reflexivity.
Qed.

(* ===================================================================== *)
(** ** C9: which jobs are isolated *)
(* ===================================================================== *)

(** C9, as the code has it.  Four of the jobs have a handler at their own
    boundary.  The revenue job and each Q1 count never raise: a failure of
    their statement is replaced by 0, and nothing is printed.  Each
    velocity export and the border-effect job never raise: a failure of
    their statement is printed as a warning.  Whenever the leakage
    statement succeeds, the impact analysis returns, the summary is
    written and all seven statements have been submitted in order,
    whichever of the guarded ones failed. *)
Theorem guarded_jobs_isolated :
  (forall w, exists revenue w' evs,
     revenue_job w = Ok revenue w' /\
     trace w' = trace w ++ Execute RevQuery :: evs /\
     (engine_fault (env w) RevQuery = true -> revenue = 0%Q /\ evs = [])) /\
  (forall y w, exists n w',
     get_q1_count y w = Ok n w' /\
     trace w' = trace w ++ [Execute (QZone y)] /\
     (engine_fault (env w) (QZone y) = true -> n = 0)) /\
  (forall y w, exists w' evs,
     export_velocity y w = Ok tt w' /\
     trace w' = trace w ++ Execute (VelocityCopy y) :: evs /\
     (evs = [Write (velocity_file y)] \/
      exists e, evs = [Print (MsgVelocityFailed y e)] /\ files w' = files w) /\
     (is_Some (connection w) -> engine_fault (env w) (VelocityCopy y) = true ->
      evs = [Print (MsgVelocityFailed y (EngineError (VelocityCopy y)))])) /\
  (forall w, exists w' evs,
     border_job w = Ok tt w' /\
     trace w' = trace w ++ Execute BorderCopy :: evs /\
     (evs = [Write border_file] \/
      exists e, evs = [Print (MsgBorderFailed e)] /\ files w' = files w) /\
     (is_Some (connection w) -> engine_fault (env w) BorderCopy = true ->
      evs = [Print (MsgBorderFailed (EngineError BorderCopy))])) /\
  (forall w ys gs gc sv,
     connection w = Some true ->
     engine_fault (env w) LeakageCopy = false ->
     scan (trip_dir 2025 yellow) (files w) = inr ys ->
     scan (trip_dir 2025 green) (files w) = inr gs ->
     exists w' s evs,
       run_impact_analysis gc sv w = Ok tt w' /\
       data <$> (files w' !! stats_file) = Some (StatsJson s) /\
       trace w' = trace w ++ evs /\
       executed evs = [RevQuery; LeakageCopy; QZone 2024; QZone 2025;
                       VelocityCopy 2024; VelocityCopy 2025; BorderCopy] /\
       (engine_fault (env w) RevQuery = true -> revenue_2025 s = 0%Q) /\
       (engine_fault (env w) (QZone 2024) = true -> q1_2024_vol s = 0) /\
       (engine_fault (env w) (QZone 2025) = true -> q1_2025_vol s = 0) /\
       (engine_fault (env w) (VelocityCopy 2024) = true ->
        Print (MsgVelocityFailed 2024 (EngineError (VelocityCopy 2024))) ∈ evs) /\
       (engine_fault (env w) (VelocityCopy 2025) = true ->
        Print (MsgVelocityFailed 2025 (EngineError (VelocityCopy 2025))) ∈ evs) /\
       (engine_fault (env w) BorderCopy = true ->
        Print (MsgBorderFailed (EngineError BorderCopy)) ∈ evs)).
Proof.
  split; [|split; [|split; [|split]]].
  - intros w.
    destruct (revenue_job_spec w) as (rev & w' & evs & R & _ & _ & _ & T & _ & Z & _).
    exists rev, w', evs. auto.
  - intros y w.
    destruct (get_q1_count_spec y w) as (n & w' & R & _ & _ & _ & T & Z & _).
    exists n, w'. auto.
  - intros y w.
    destruct (export_velocity_spec y w) as (w' & evs & R & _ & _ & _ & T & D & Z).
    exists w', evs. auto.
  - intros w.
    destruct (border_job_spec w) as (w' & evs & R & _ & _ & _ & T & D & Z).
    exists w', evs. auto.
  - intros w ys gs gc sv Hc Hf Hy Hg.
    destruct (run_impact_analysis_spec w ys gs gc sv Hc Hf Hy Hg)
      as (w' & s & evs & R & F & _ & _ & _ & T & X & _ & Z).
    exists w', s, evs. auto.
Qed.

Lemma guarded_jobs_isolated_witness :
  exists w' s evs,
    run_impact_analysis 4 [(Some 2, 2); (Some 3, 2)] guarded_fail = Ok tt w' /\
    data <$> (files w' !! stats_file) = Some (StatsJson s) /\
    revenue_2025 s = 0%Q /\ q1_2024_vol s = 0 /\ q1_2025_vol s = 0 /\
    trace w' = trace guarded_fail ++ evs /\
    executed evs = [RevQuery; LeakageCopy; QZone 2024; QZone 2025;
                    VelocityCopy 2024; VelocityCopy 2025; BorderCopy] /\
    Print (MsgVelocityFailed 2024 (EngineError (VelocityCopy 2024))) ∈ evs /\
    Print (MsgBorderFailed (EngineError BorderCopy)) ∈ evs.
Proof.
  destruct (proj2 (proj2 (proj2 (proj2 guarded_jobs_isolated))) guarded_fail
              (repeat (paid_row 1 10 0 10 30 5 25) 60
               ++ repeat (sample_row 1 10 0 10 30 5 25) 60)
              sample_green 4 [(Some 2, 2); (Some 3, 2)])
    as (w' & s & evs & R & F & T & X & Z1 & Z2 & Z3 & Z4 & _ & Z6).
  - reflexivity.
  - reflexivity.
  - vm_compute. reflexivity.
  - vm_compute. reflexivity.
  - exists w', s, evs. split; [exact R|]. split; [exact F|].
    split; [apply Z1; reflexivity|]. split; [apply Z2; reflexivity|].
    split; [apply Z3; reflexivity|]. split; [exact T|]. split; [exact X|].
    split; [apply Z4; reflexivity|apply Z6; reflexivity].
Defined.

(** C9 as the specification words it does not hold.  A failure of the
    leakage statement, or of the tip-economics statement, leaves its stage
    as an exception; a failure of the revenue statement is caught, but no
    console line shows it. *)
Lemma job_failures_not_isolated :
  ~ job_failure_isolated LeakageCopy leakage_fails /\
  ~ job_failure_isolated TipsCopy tips_fails /\
  ~ job_failure_isolated RevQuery revenue_fails /\
  executed (trace (final (run_impact_analysis 0 [] leakage_fails)))
  = [RevQuery; LeakageCopy].
Proof.
  split; [|split; [|split]]; [| | |vm_compute; reflexivity].
  - intros H. destruct (H eq_refl) as (w' & R & _).
    vm_compute in R. discriminate R.
  - intros H. destruct (H eq_refl) as (w' & R & _).
    vm_compute in R. discriminate R.
  - intros H. destruct (H eq_refl) as (w' & R & (m & Hm & Hin) & _).
    vm_compute in R. injection R as <-.
    cbn [trace] in Hin.
    repeat (apply elem_of_cons in Hin; destruct Hin as [E|Hin];
            [try discriminate E; injection E as ->; simpl in Hm;
             try contradiction; discriminate Hm|]).
    inversion Hin.
Qed.

(* ===================================================================== *)
(** ** C10: the sample size of the weather correlation *)
(* ===================================================================== *)

Lemma read_daily_trips_run (w : world) (df : list (option date * Z)) :
  data <$> (files w !! out_trips) = Some (DailyTripsCsv df) ->
  read_daily_trips w = Ok df w.
Proof.
  intros H. unfold read_daily_trips. mstep.
  destruct (files w !! out_trips) as [[sz c]|]; [|discriminate H].
  injection H as ->. reflexivity.
Qed.

Lemma read_weather_run (w : world) (df : list (option date * option Q)) :
  data <$> (files w !! weather_file) = Some (WeatherCsv df) ->
  read_weather w = Ok df w.
Proof.
  intros H. unfold read_weather. mstep.
  destruct (files w !! weather_file) as [[sz c]|]; [|discriminate H].
  injection H as ->. reflexivity.
Qed.

(** The elasticity step on readable inputs. *)
Lemma elasticity_run (w : world)
      (df_trips : list (option date * Z)) (df_weather : list (option date * option Q)) :
  PANDAS_AVAILABLE (env w) = true -> SCIPY_AVAILABLE (env w) = true ->
  data <$> (files w !! out_trips) = Some (DailyTripsCsv df_trips) ->
  data <$> (files w !! weather_file) = Some (WeatherCsv df_weather) ->
  let df_merge := dropna (merge_on_date df_trips df_weather) in
  elasticity w =
  if Z.of_nat (length df_merge) >? 10
  then match linregress (env w) df_merge with
       | Some slope =>
           Ok tt (set_trace
                    (trace w ++ [Print (MsgElasticity (corr (env w) df_merge));
                                 Write elasticity_file])
                    (set_files
                       (<[elasticity_file :=
                            mk_file (encoded_size (env w)
                                       (ElasticityTxt (corr (env w) df_merge) slope))
                                    (ElasticityTxt (corr (env w) df_merge) slope)]>
                          (files w)) w))
       | None =>
           Ok tt (set_trace (trace w ++ [Print (MsgEconomicsError ValueError)]) w)
       end
  else Ok tt w.
Proof.
  intros Hp Hs Ht Hw df_merge. unfold elasticity. mstep. rewrite Hp, Hs.
  cbn [andb]. mstep.
  rewrite (read_daily_trips_run w df_trips Ht). mstep.
  rewrite (read_weather_run w df_weather Hw). mstep. fold df_merge.
  destruct (Z.of_nat (length df_merge) >? 10); [|reflexivity].
  mstep. destruct (linregress (env w) df_merge) as [slope|]; mstep.
  - rewrite <- app_assoc. reflexivity.
  - reflexivity.
Qed.

(** Whether a glob can be read does not depend on the order of the files:
    it needs one matching file, and every matching file to be a trip
    file. *)
Lemma elem_of_expand_glob (dir : string) (fs : gmap string file) (p : string) (f : file) :
  (p, f) ∈ expand_glob dir fs <-> fs !! p = Some f /\ glob_parquet dir p = true.
Proof.
  unfold expand_glob. rewrite list_elem_of_filter, elem_of_map_to_list. simpl. tauto.
Qed.

Lemma parquet_rows_ok (l : list (string * file)) :
  (exists rows, parquet_rows l = inr rows) <->
  Forall (fun pf => exists rows, data (snd pf) = Parquet rows) l.
Proof.
  induction l as [|[p f] l IH]; simpl.
  - split; [intros _; constructor|eauto].
  - split.
    + intros (rows & H). destruct (data f) eqn:E; try discriminate H.
      destruct (parquet_rows l) eqn:E'; try discriminate H.
      constructor; [simpl; eauto|]. apply IH. eauto.
    + intros H. inversion H as [|? ? (rows & Hr) Hl]; subst. simpl in Hr.
      rewrite Hr. apply IH in Hl. destruct Hl as (rest & ->). eauto.
Qed.

Lemma scan_ok_iff (dir : string) (fs : gmap string file) :
  (exists rows, scan dir fs = inr rows) <->
  (exists p f, fs !! p = Some f /\ glob_parquet dir p = true) /\
  (forall p f, fs !! p = Some f -> glob_parquet dir p = true ->
               exists rows, data f = Parquet rows).
Proof.
  unfold scan. split.
  - intros (rows & H).
    destruct (expand_glob dir fs) as [|[p f] l] eqn:E; [discriminate H|].
    destruct (parquet_rows ((p, f) :: l)) as [bad|rows'] eqn:E'; [discriminate H|].
    assert (Hall : Forall (fun pf => exists rows, data (snd pf) = Parquet rows)
                          ((p, f) :: l)).
    { apply parquet_rows_ok. eauto. }
    rewrite <- E in Hall. split.
    + exists p, f. apply elem_of_expand_glob. rewrite E. left.
    + intros q g Hq Hg. rewrite Forall_forall in Hall.
      apply (Hall (q, g)). apply elem_of_expand_glob. auto.
  - intros [(p & f & Hp & Hg) Hall].
    assert (Hin : (p, f) ∈ expand_glob dir fs) by (apply elem_of_expand_glob; auto).
    assert (Hok : exists rows, parquet_rows (expand_glob dir fs) = inr rows).
    { apply parquet_rows_ok, Forall_forall. intros [q g] Hq.
      apply elem_of_expand_glob in Hq. destruct Hq as [Hq Hgq]. simpl. eauto. }
    destruct Hok as (rows & Hok).
    destruct (expand_glob dir fs) as [|pf l] eqn:E; [inversion Hin|].
    rewrite Hok. eauto.
Qed.

(** Writing a file that the glob does not match keeps the glob readable. *)
Lemma scan_insert_other (dir : string) (fs : gmap string file) (p : string) (f : file) :
  glob_parquet dir p = false ->
  (exists rows, scan dir fs = inr rows) ->
  exists rows, scan dir (<[p := f]> fs) = inr rows.
Proof.
  intros Hp H. apply scan_ok_iff in H. destruct H as [(q & g & Hq & Hg) Hall].
  apply scan_ok_iff. split.
  - exists q, g. split; [|exact Hg].
    rewrite lookup_insert_ne; [exact Hq|]. intros ->. congruence.
  - intros q' g' Hq' Hg'. destruct (decide (p = q')) as [->|Hne]; [congruence|].
    rewrite lookup_insert_ne in Hq' by exact Hne. eauto.
Qed.

(** Phase 4 with the weather series cached, up to the elasticity step. *)
Lemma fetch_weather_and_analyze_run (w : world) (ys gs : list Raw.row)
      (df_weather : list (option date * option Q)) :
  connection w = Some true ->
  engine_fault (env w) DailyTripsCopy = false ->
  engine_fault (env w) TipsCopy = false ->
  scan (trip_dir 2025 yellow) (files w) = inr ys ->
  scan (trip_dir 2025 green) (files w) = inr gs ->
  data <$> (files w !! weather_file) = Some (WeatherCsv df_weather) ->
  exists w1,
    fetch_weather_and_analyze w = elasticity w1 /\
    env w1 = env w /\
    data <$> (files w1 !! out_trips)
    = Some (DailyTripsCsv (daily_trips_query (query_view ys gs))) /\
    files w1 !! weather_file = files w !! weather_file /\
    files w1 !! elasticity_file = files w !! elasticity_file /\
    exists evs, trace w1 = trace w ++ evs /\ Write elasticity_file ∉ evs.
Proof.
  intros Hc F1 F2 Hy Hg Hw.
  unfold fetch_weather_and_analyze, fetch_weather, path_exists. mstep.
  rewrite bool_decide_eq_true_2
    by (destruct (files w !! weather_file); [eauto|discriminate Hw]).
  mstep. rewrite execute_run by (rewrite ?Hc; mside). mstep.
  rewrite (all_trips_2025_run _ ys gs) by mside. mstep.
  destruct (scan_insert_other (trip_dir 2025 yellow) (files w) out_trips
              (mk_file (encoded_size (env w) (DailyTripsCsv (daily_trips_query (query_view ys gs))))
                       (DailyTripsCsv (daily_trips_query (query_view ys gs)))))
    as (ys' & Hy'); [vm_compute; reflexivity|eauto|].
  destruct (scan_insert_other (trip_dir 2025 green) (files w) out_trips
              (mk_file (encoded_size (env w) (DailyTripsCsv (daily_trips_query (query_view ys gs))))
                       (DailyTripsCsv (daily_trips_query (query_view ys gs)))))
    as (gs' & Hg'); [vm_compute; reflexivity|eauto|].
  rewrite execute_run by (rewrite ?Hc; mside). mstep.
  rewrite (all_trips_2025_run _ ys' gs') by mside. mstep.
  eexists. split; [reflexivity|]. mstep.
  assert (N1 : out_tips <> out_trips) by (vm_compute; discriminate).
  assert (N2 : out_tips <> weather_file) by (vm_compute; discriminate).
  assert (N3 : out_trips <> weather_file) by (vm_compute; discriminate).
  assert (N4 : out_tips <> elasticity_file) by (vm_compute; discriminate).
  assert (N5 : out_trips <> elasticity_file) by (vm_compute; discriminate).
  split; [reflexivity|].
  split; [rewrite lookup_insert_ne by exact N1; rewrite lookup_insert_eq; reflexivity|].
  split; [rewrite !lookup_insert_ne by assumption; reflexivity|].
  split; [rewrite !lookup_insert_ne by assumption; reflexivity|].
  eexists. split; [rewrite <- !app_assoc; reflexivity|].
  intros Hin. repeat (apply elem_of_cons in Hin; destruct Hin as [E|Hin];
                      [discriminate E|]).
  inversion Hin.
Qed.

(** C10, as the code has it.  With both libraries available and both
    inputs readable, the elasticity step does nothing at all when 10 or
    fewer joined rows without a missing value remain; with 11 or more it
    computes the correlation and the regression and, when the regression
    returns, prints the correlation and writes both values to
    [elasticity.txt].  The same holds for the whole of phase 4 when its
    two statements succeed, the joined rows being those of the daily
    counts of the view and the cached weather series.  In particular 8
    overlapping dates give no report, exactly 10 give none either, and 11
    give one. *)
Theorem correlation_sample_size :
  (forall w df_trips df_weather,
     PANDAS_AVAILABLE (env w) = true -> SCIPY_AVAILABLE (env w) = true ->
     data <$> (files w !! out_trips) = Some (DailyTripsCsv df_trips) ->
     data <$> (files w !! weather_file) = Some (WeatherCsv df_weather) ->
     let df_merge := dropna (merge_on_date df_trips df_weather) in
     ((length df_merge <= 10)%nat -> elasticity w = Ok tt w) /\
     ((10 < length df_merge)%nat ->
      forall slope, linregress (env w) df_merge = Some slope ->
      exists w',
        elasticity w = Ok tt w' /\
        data <$> (files w' !! elasticity_file)
        = Some (ElasticityTxt (corr (env w) df_merge) slope) /\
        trace w' = trace w ++ [Print (MsgElasticity (corr (env w) df_merge));
                               Write elasticity_file])) /\
  (forall w ys gs df_weather,
     PANDAS_AVAILABLE (env w) = true -> SCIPY_AVAILABLE (env w) = true ->
     connection w = Some true ->
     engine_fault (env w) DailyTripsCopy = false ->
     engine_fault (env w) TipsCopy = false ->
     scan (trip_dir 2025 yellow) (files w) = inr ys ->
     scan (trip_dir 2025 green) (files w) = inr gs ->
     data <$> (files w !! weather_file) = Some (WeatherCsv df_weather) ->
     let df_merge :=
       dropna (merge_on_date (daily_trips_query (query_view ys gs)) df_weather) in
     ((length df_merge <= 10)%nat ->
      exists w' evs,
        fetch_weather_and_analyze w = Ok tt w' /\
        files w' !! elasticity_file = files w !! elasticity_file /\
        trace w' = trace w ++ evs /\ Write elasticity_file ∉ evs) /\
     ((10 < length df_merge)%nat ->
      forall slope, linregress (env w) df_merge = Some slope ->
      exists w',
        fetch_weather_and_analyze w = Ok tt w' /\
        data <$> (files w' !! elasticity_file)
        = Some (ElasticityTxt (corr (env w) df_merge) slope))) /\
  (forall n, n ∈ [8; 10]%nat ->
     exists w', fetch_weather_and_analyze (weather_world n) = Ok tt w' /\
                files w' !! elasticity_file = None) /\
  (exists w', fetch_weather_and_analyze (weather_world 11) = Ok tt w' /\
              data <$> (files w' !! elasticity_file)
              = Some (ElasticityTxt (Some (-(1 # 2))%Q) (Some (-(3 # 1))%Q))).
Proof.
  split; [|split; [|split]].
  - intros w df_trips df_weather Hp Hs Ht Hw df_merge.
    pose proof (elasticity_run w df_trips df_weather Hp Hs Ht Hw) as E.
    cbv zeta in E. fold df_merge in E. split.
    + intros Hle. rewrite E.
      destruct (Z.of_nat (length df_merge) >? 10) eqn:G; [|reflexivity].
      apply Z.gtb_lt in G. lia.
    + intros Hgt slope Hl. rewrite E, Hl.
      destruct (Z.of_nat (length df_merge) >? 10) eqn:G.
      * eexists. split; [reflexivity|]. mstep.
        rewrite lookup_insert_eq. split; reflexivity.
      * rewrite Z.gtb_ltb in G. apply Z.ltb_ge in G. lia.
  - intros w ys gs df_weather Hp Hs Hc F1 F2 Hy Hg Hw df_merge.
    destruct (fetch_weather_and_analyze_run w ys gs df_weather Hc F1 F2 Hy Hg Hw)
      as (w1 & R & E1 & T1 & W1 & L1 & evs & Tr & Nw).
    pose proof (elasticity_run w1 _ df_weather
                  ltac:(rewrite E1; exact Hp) ltac:(rewrite E1; exact Hs) T1
                  ltac:(rewrite W1; exact Hw)) as E.
    cbv zeta in E. fold df_merge in E. rewrite E1 in E. split.
    + intros Hle. rewrite R, E.
      destruct (Z.of_nat (length df_merge) >? 10) eqn:G.
      * apply Z.gtb_lt in G. lia.
      * exists w1, evs. auto.
    + intros Hgt slope Hl. rewrite R, E, Hl.
      destruct (Z.of_nat (length df_merge) >? 10) eqn:G.
      * eexists. split; [reflexivity|]. mstep.
        rewrite lookup_insert_eq. reflexivity.
      * rewrite Z.gtb_ltb in G. apply Z.ltb_ge in G. lia.
  - intros n Hn. apply elem_of_cons in Hn. destruct Hn as [->|Hn].
    { eexists. split; vm_compute; reflexivity. }
    apply list_elem_of_singleton in Hn. subst n.
    eexists. split; vm_compute; reflexivity.
  - eexists. split; vm_compute; reflexivity.
Qed.

Lemma correlation_sample_size_witness :
  let df := dropna (merge_on_date
                      (daily_trips_query (query_view (trips_on_days 11) []))
                      march_weather) in
  length df = 11%nat /\
  (exists w',
     fetch_weather_and_analyze (weather_world 11) = Ok tt w' /\
     data <$> (files w' !! elasticity_file)
     = Some (ElasticityTxt (corr stats_env df) (Some (-(3 # 1))%Q))) /\
  elasticity ten_days_joined = Ok tt ten_days_joined.
Proof.
  intros df. split; [vm_compute; reflexivity|]. split.
  - apply (proj1 (proj2 correlation_sample_size) (weather_world 11)
             (trips_on_days 11) [] march_weather);
      try reflexivity; try (vm_compute; reflexivity); try (vm_compute; lia).
  - apply (proj1 correlation_sample_size ten_days_joined
             (daily_trips_query (query_view (trips_on_days 10) []))
             march_weather);
      try reflexivity; try (vm_compute; reflexivity); try (vm_compute; lia).
Defined.

(** C10 as the specification words it does not hold: with exactly 10
    joined rows no report is written, by the step or by the whole of
    phase 4. *)
Lemma ten_rows_no_report :
  ~ reports_from_ten_rows ten_days_joined /\
  length (dropna (merge_on_date
                    (daily_trips_query (query_view (trips_on_days 10) []))
                    march_weather)) = 10%nat /\
  files (final (elasticity ten_days_joined)) !! elasticity_file = None /\
  files (final (fetch_weather_and_analyze (weather_world 10))) !! elasticity_file = None.
Proof.
  split; [|split; [|split]]; try (vm_compute; reflexivity).
  intros H.
  specialize (H (daily_trips_query (query_view (trips_on_days 10) []))
                march_weather eq_refl eq_refl).
  destruct H as [H _]; try (vm_compute; reflexivity).
  destruct H as (f & Hf).
  - vm_compute. lia.
  - vm_compute in Hf. discriminate Hf.
Qed.

(* ===================================================================== *)
(** ** Phase 1: downloads *)
(* ===================================================================== *)

(** The three ways [download_file] can go: the destination is complete,
    the request succeeds, the request fails. *)
Lemma download_file_spec (url dir name : string) (w : world) :
  let dest_path := join dir name in
  let kept := exists f, files w !! dest_path = Some f /\ 1024 < st_size f in
  exists w',
    download_file url dir name w = Ok tt w' /\
    env w' = env w /\ connection w' = connection w /\ draws w' = draws w /\
    (forall p, p <> dest_path -> files w' !! p = files w !! p) /\
    (kept -> w' = w) /\
    (~ kept ->
     files w' !! dest_path = http_get (env w) url /\
     exists evs, trace w' = trace w ++ Print (MsgDownloading url name) :: Request url :: evs).
Proof.
  intros dest_path kept. unfold download_file, path_exists. fold dest_path. mstep.
  assert (Hkept : forall f, files w !! dest_path = Some f -> (st_size f >? 1024) = false -> ~ kept).
  { intros f Ef Es (g & Hg & Hs). rewrite Ef in Hg. injection Hg as <-.
    apply Z.gtb_lt in Hs. congruence. }
  destruct (files w !! dest_path) as [f|] eqn:Ef.
  - destruct (st_size f >? 1024) eqn:Es.
    + exists w. do 4 (split; [reflexivity|]). split; [reflexivity|].
      split; [reflexivity|]. intros N. exfalso. apply N. exists f.
      split; [reflexivity|]. apply Z.gtb_lt. exact Es.
    + specialize (Hkept f eq_refl Es).
      mstep. destruct (http_get (env w) url) as [g|] eqn:Eg; mstep.
      * eexists. split; [reflexivity|]. mstep. do 3 (split; [reflexivity|]).
        split; [intros p Hp; rewrite lookup_insert_ne by congruence; reflexivity|].
        split; [intros K; contradiction|]. intros _.
        split; [apply lookup_insert_eq|].
        eexists. rewrite <- !app_assoc. reflexivity.
      * rewrite Ef. rewrite bool_decide_eq_true_2 by eauto.
        eexists. split; [reflexivity|]. mstep. do 3 (split; [reflexivity|]).
        split; [intros p Hp; rewrite lookup_delete_ne by congruence; reflexivity|].
        split; [intros K; contradiction|]. intros _.
        split; [apply lookup_delete_eq|].
        eexists. rewrite <- !app_assoc. reflexivity.
  - assert (Nk : ~ kept) by (intros (g & Hg & _); discriminate Hg).
    mstep. destruct (http_get (env w) url) as [g|] eqn:Eg; mstep.
    + eexists. split; [reflexivity|]. mstep. do 3 (split; [reflexivity|]).
      split; [intros p Hp; rewrite lookup_insert_ne by congruence; reflexivity|].
      split; [intros K; contradiction|]. intros _.
      split; [apply lookup_insert_eq|].
      eexists. rewrite <- !app_assoc. reflexivity.
    + rewrite Ef. rewrite bool_decide_eq_false_2 by (intros [? Hx]; discriminate Hx).
      eexists. split; [reflexivity|]. mstep. do 3 (split; [reflexivity|]).
      split; [reflexivity|].
      split; [intros K; contradiction|]. intros _.
      split; [exact Ef|].
      eexists. rewrite <- !app_assoc. reflexivity.
Qed.

Lemma download_file_settled (url dir name p : string) (w w' : world) :
  download_file url dir name w = Ok tt w' -> settled w p -> settled w' p.
Proof.
  intros R (f & Hf & Hs).
  destruct (download_file_spec url dir name w)
    as (w0 & R0 & _ & _ & _ & Hother & Hkept & _).
  rewrite R0 in R. injection R as <-.
  destruct (decide (p = join dir name)) as [->|Hne].
  - rewrite Hkept by eauto. exists f. auto.
  - exists f. rewrite (Hother p Hne). auto.
Qed.

Lemma download_file_settles (url dir name : string) (w w' : world) :
  working_archive (env w) ->
  download_file url dir name w = Ok tt w' -> settled w' (join dir name).
Proof.
  intros Hw R.
  destruct (download_file_spec url dir name w)
    as (w0 & R0 & _ & _ & _ & _ & Hkept & Hnot).
  rewrite R0 in R. injection R as <-.
  destruct (files w !! join dir name) as [f|] eqn:Ef.
  - destruct (Z_lt_dec 1024 (st_size f)) as [Hs|Hs].
    + rewrite Hkept by eauto. exists f. auto.
    + destruct Hnot as [Hd _].
      { intros (g & [= <-] & Hg). contradiction. }
      destruct (Hw url) as (g & Hg & Hsz). exists g. rewrite Hd, Hg. auto.
  - destruct Hnot as [Hd _].
    { intros (g & [=] & _). }
    destruct (Hw url) as (g & Hg & Hsz). exists g. rewrite Hd, Hg. auto.
Qed.

Lemma download_file_noop (url dir name : string) (w : world) :
  settled w (join dir name) -> download_file url dir name w = Ok tt w.
Proof.
  intros H.
  destruct (download_file_spec url dir name w)
    as (w0 & R0 & _ & _ & _ & _ & Hkept & _).
  rewrite R0, (Hkept H). reflexivity.
Qed.

(** The download loop over any list of months. *)
Lemma downloads_run (l : list (Z * Z * taxi)) (w : world) :
  exists w',
    for_each l download_required w = Ok tt w' /\
    env w' = env w /\ connection w' = connection w /\ draws w' = draws w /\
    (forall p, settled w p -> settled w' p) /\
    (working_archive (env w) -> forall d, d ∈ l -> settled w' (download_dest d)) /\
    (forall p, (forall d, d ∈ l -> p <> download_dest d) -> files w' !! p = files w !! p).
Proof.
  revert w. induction l as [|d l IH]; intros w.
  - exists w. simpl. repeat split; auto. intros _ d Hd. inversion Hd.
  - destruct d as [[y m] t]. cbn [for_each]. unfold bind.
    destruct (download_file_spec (join TLC_BASE_URL (trip_file_name t y m))
                (trip_dir y t) (trip_file_name t y m) w)
      as (w1 & R1 & E1 & C1 & D1 & O1 & _).
    cbn [download_required] in *. rewrite R1.
    destruct (IH w1) as (w2 & R2 & E2 & C2 & D2 & S2 & A2 & O2).
    exists w2. split; [exact R2|]. split; [congruence|]. split; [congruence|].
    split; [congruence|]. split; [|split].
    + intros p Hp. apply S2. eapply download_file_settled; eauto.
    + intros Hw d Hd. apply elem_of_cons in Hd. destruct Hd as [->|Hd].
      * apply S2. cbn [download_dest]. eapply download_file_settles; eauto.
      * apply A2; [rewrite E1; exact Hw|exact Hd].
    + intros p Hp. rewrite O2.
      * apply O1. apply (Hp (y, m, t)). left.
      * intros d Hd. apply Hp. right. exact Hd.
Qed.

Lemma downloads_noop (l : list (Z * Z * taxi)) (w : world) :
  (forall d, d ∈ l -> settled w (download_dest d)) ->
  for_each l download_required w = Ok tt w.
Proof.
  induction l as [|d l IH]; intros H; [reflexivity|].
  destruct d as [[y m] t]. cbn [for_each download_required]. unfold bind.
  rewrite download_file_noop by (apply (H (y, m, t)); left).
  apply IH. intros d Hd. apply H. right. exact Hd.
Qed.

(* ===================================================================== *)
(** ** Phase 1: imputation *)
(* ===================================================================== *)

Lemma requested_app (t1 t2 : list event) :
  requested (t1 ++ t2) = requested t1 ++ requested t2.
Proof. unfold requested. apply omap_app. Qed.


(** One round of the imputation loop never raises, requests nothing and
    writes at most its own target. *)
Lemma impute_taxi_spec (t : taxi) (w : world) :
  exists w' evs,
    impute_taxi t w = Ok tt w' /\
    env w' = env w /\ connection w' = connection w /\
    (forall p, p <> target_file t -> files w' !! p = files w !! p) /\
    trace w' = trace w ++ evs /\
    requested evs = [] /\
    (written evs = [] \/ written evs = [target_file t]).
Proof.
  unfold impute_taxi, path_exists, execute, impute_copy, read_parquet_file, sample.
  mstep.
  repeat match goal with
         | |- context [bool_decide ?P] => destruct (bool_decide P)
         | |- context [match connection ?w with _ => _ end] => destruct (connection w)
         | |- context [if engine_fault ?e ?q then _ else _] => destruct (engine_fault e q)
         | |- context [match files ?w !! ?p with _ => _ end] =>
             destruct (files w !! p) as [[? []]|]
         | _ => progress (cbn [negb orb andb]; mstep)
         end;
    eexists; eexists; (split; [reflexivity|]); mstep;
    (split; [reflexivity|]); (split; [reflexivity|]);
    (split; [intros p Hp; rewrite ?lookup_insert_ne by congruence; reflexivity|]);
    (split; [rewrite <- ?app_assoc; reflexivity|]);
    (split; [reflexivity|]);
    first [left; reflexivity | right; reflexivity].
Qed.

Lemma download_file_requests (url dir name : string) (w w' : world) :
  download_file url dir name w = Ok tt w' ->
  exists evs, trace w' = trace w ++ evs /\ (requested evs = [] \/ requested evs = [url]).
Proof.
  unfold download_file, path_exists. mstep.
  destruct (files w !! join dir name) as [f|] eqn:Ef;
    [destruct (st_size f >? 1024)|]; mstep;
    try destruct (http_get (env w) url); mstep;
    rewrite ?Ef;
    try match goal with
        | |- context [bool_decide ?P] => destruct (bool_decide P)
        end;
    intros [= <-]; mstep;
    first [ exists []; split; [rewrite app_nil_r; reflexivity|left; reflexivity]
          | eexists; split; [rewrite <- ?app_assoc; reflexivity|right; reflexivity] ].
Qed.

(** X1. [download_file] never raises and touches no path but its
    destination.  When the destination already holds more than 1024 bytes
    nothing happens at all; otherwise the URL is requested exactly once,
    and the destination ends up holding exactly what the request gave: the
    payload when it succeeded, no file when it failed, also when a short
    file was there before. *)
Theorem download_file_outcome (url dir name : string) (w : world) :
  let dest_path := join dir name in
  let kept := exists f, files w !! dest_path = Some f /\ 1024 < st_size f in
  exists w',
    download_file url dir name w = Ok tt w' /\
    env w' = env w /\ connection w' = connection w /\ draws w' = draws w /\
    (forall p, p <> dest_path -> files w' !! p = files w !! p) /\
    (kept -> w' = w) /\
    (~ kept ->
     files w' !! dest_path = http_get (env w) url /\
     requested (trace w') = requested (trace w) ++ [url] /\
     exists evs, trace w' = trace w ++ Print (MsgDownloading url name) :: Request url :: evs).
Proof.
  intros dest_path kept.
  destruct (download_file_spec url dir name w) as (w' & R & E & C & D & O & K & N).
  exists w'. split; [exact R|]. split; [exact E|]. split; [exact C|].
  split; [exact D|]. split; [exact O|]. split; [exact K|].
  intros Hn. destruct (N Hn) as [Hd (evs & T)].
  split; [exact Hd|]. split; [|exists evs; exact T].
  destruct (download_file_requests _ _ _ _ _ R) as (evs' & T' & Hq).
  rewrite T in T'. apply app_inv_head in T'. subst evs'.
  rewrite T, requested_app. f_equal.
  change (requested (Print (MsgDownloading url name) :: Request url :: evs))
    with (url :: requested evs) in Hq |- *.
  destruct Hq as [Hq|Hq]; [discriminate Hq|exact Hq].
Qed.

Lemma downloads_requests (l : list (Z * Z * taxi)) (w w' : world) :
  for_each l download_required w = Ok tt w' ->
  exists evs, trace w' = trace w ++ evs /\
              forall u, u ∈ requested evs ->
                        exists y m t, (y, m, t) ∈ l /\
                                      u = join TLC_BASE_URL (trip_file_name t y m).
Proof.
  revert w. induction l as [|d l IH]; intros w.
  - intros [= <-]. exists []. rewrite app_nil_r. split; [reflexivity|].
    intros u Hu. inversion Hu.
  - destruct d as [[y m] t]. cbn [for_each download_required]. unfold bind.
    destruct (download_file _ _ _ w) as [[] w1|e w1] eqn:R1; [|discriminate].
    intros R2. destruct (download_file_requests _ _ _ _ _ R1) as (ev1 & T1 & Q1).
    destruct (IH w1 R2) as (ev2 & T2 & Q2).
    exists (ev1 ++ ev2). split; [rewrite T2, T1, app_assoc; reflexivity|].
    intros u Hu. rewrite requested_app in Hu. apply elem_of_app in Hu.
    destruct Hu as [Hu|Hu].
    + destruct Q1 as [Q1|Q1]; rewrite Q1 in Hu; [inversion Hu|].
      apply list_elem_of_singleton in Hu. subst u.
      exists y, m, t. split; [left|reflexivity].
    + destruct (Q2 u Hu) as (y' & m' & t' & Hin & ->).
      exists y', m', t'. split; [right; exact Hin|reflexivity].
Qed.

(** A call of the imputation requests nothing and writes at most the two
    targets. *)
Lemma impute_december_data_spec (w : world) :
  env (final (impute_december_data w)) = env w /\
  (forall p, p <> target_file yellow -> p <> target_file green ->
             files (final (impute_december_data w)) !! p = files w !! p) /\
  exists evs, trace (final (impute_december_data w)) = trace w ++ evs /\
              requested evs = [].
Proof.
  unfold impute_december_data, get_duckdb_conn, execute, for_each, TAXI_TYPES.
  mstep.
  destruct (engine_fault (env w) SetMemoryLimit).
  { cbn [final env files trace]. repeat split. eexists. split; reflexivity. }
  mstep. destruct (engine_fault (env w) SetThreads).
  { cbn [final env files trace]. repeat split.
    eexists. split; [rewrite <- app_assoc; reflexivity|reflexivity]. }
  mstep.
  match goal with |- context [impute_taxi yellow ?w0] =>
    destruct (impute_taxi_spec yellow w0) as (w1 & ev1 & R1 & E1 & C1 & F1 & T1 & Q1 & _)
  end.
  rewrite R1. mstep. cbn [env connection files trace] in E1, C1, F1, T1.
  destruct (impute_taxi_spec green w1) as (w2 & ev2 & R2 & E2 & C2 & F2 & T2 & Q2 & _).
  rewrite R2. mstep. cbn [final env files trace].
  split; [congruence|]. split.
  - intros p Hy Hg. rewrite (F2 p Hg), (F1 p Hy). reflexivity.
  - eexists. split; [rewrite T2, T1, <- !app_assoc; reflexivity|].
    rewrite !requested_app, Q1, Q2. reflexivity.
Qed.

(* ===================================================================== *)
(** ** Phase 1 as a whole *)
(* ===================================================================== *)

Lemma ensure_data_available_steps :
  ensure_data_available =
  (print MsgPhase1 ;;;
   download_file "https://d37ci6vzurychx.cloudfront.net/misc/taxi+_zone_lookup.csv"
     DATA_DIR "taxi_zone_lookup.csv" ;;;
   for_each required_downloads download_required ;;;
   print MsgCheckingDecember ;;;
   impute_december_data).
Proof. reflexivity. Qed.

(** No download is stored at an imputation target, and no download asks
    for December 2025. *)
Lemma targets_not_downloaded (t : taxi) (d : Z * Z * taxi) :
  d ∈ required_downloads ->
  download_dest d <> target_file t /\
  (let '(y, m, t') := d in
   join TLC_BASE_URL (trip_file_name t' y m)
   <> join TLC_BASE_URL (trip_file_name t 2025 12)).
Proof.
  intros Hd.
  assert (Hb : forallb
                 (fun d : Z * Z * taxi =>
                    negb (String.eqb (download_dest d) (target_file t)) &&
                    (let '(y, m, t') := d in
                     negb (String.eqb (join TLC_BASE_URL (trip_file_name t' y m))
                                      (join TLC_BASE_URL (trip_file_name t 2025 12)))))
                 required_downloads = true).
  { destruct t; vm_compute; reflexivity. }
  rewrite forallb_forall in Hb. apply list_elem_of_In in Hd.
  specialize (Hb d Hd). apply andb_true_iff in Hb. destruct Hb as [H1 H2].
  apply negb_true_iff in H1. apply String.eqb_neq in H1.
  split; [exact H1|]. destruct d as [[y m] t'].
  apply negb_true_iff in H2. apply String.eqb_neq in H2. exact H2.
Qed.

Lemma lookup_not_target (t : taxi) :
  lookup_dest <> target_file t /\
  "https://d37ci6vzurychx.cloudfront.net/misc/taxi+_zone_lookup.csv"
  <> join TLC_BASE_URL (trip_file_name t 2025 12).
Proof. destruct t; split; vm_compute; discriminate. Qed.

(** What phase 1 leaves behind, whichever way it ends. *)
Lemma ensure_data_available_spec (w : world) :
  let w1 := final (ensure_data_available w) in
  env w1 = env w /\
  (forall p, settled w p -> p <> target_file yellow -> p <> target_file green ->
             settled w1 p) /\
  (working_archive (env w) ->
   settled w1 lookup_dest /\
   forall d, d ∈ required_downloads -> settled w1 (download_dest d)) /\
  (forall p, p <> lookup_dest ->
             (forall d, d ∈ required_downloads -> p <> download_dest d) ->
             p <> target_file yellow -> p <> target_file green ->
             files w1 !! p = files w !! p) /\
  exists evs,
    trace w1 = trace w ++ evs /\
    forall u, u ∈ requested evs ->
      u = "https://d37ci6vzurychx.cloudfront.net/misc/taxi+_zone_lookup.csv" \/
      exists y m t, (y, m, t) ∈ required_downloads /\
                    u = join TLC_BASE_URL (trip_file_name t y m).
Proof.
  rewrite ensure_data_available_steps. mstep.
  set (url0 := "https://d37ci6vzurychx.cloudfront.net/misc/taxi+_zone_lookup.csv").
  match goal with |- context [download_file url0 DATA_DIR ?n ?w0] =>
    destruct (download_file_spec url0 DATA_DIR n w0)
      as (wa & Ra & Ea & Ca & Da & Oa & _);
    pose proof (download_file_settled url0 DATA_DIR n) as Sa;
    pose proof (download_file_settles url0 DATA_DIR n w0 wa) as Na;
    destruct (download_file_requests url0 DATA_DIR n w0 wa Ra) as (eva & Ta & Qa)
  end.
  rewrite Ra. mstep. cbn [env connection files trace draws] in *.
  destruct (downloads_run required_downloads wa)
    as (wb & Rb & Eb & Cb & Db & Sb & Ab & Ob).
  destruct (downloads_requests required_downloads wa wb Rb) as (evb & Tb & Qb).
  rewrite Rb. mstep.
  match goal with |- context [impute_december_data ?w0] =>
    destruct (impute_december_data_spec w0) as (Ec & Fc & evc & Tc & Qc);
    set (wc := final (impute_december_data w0)) in *
  end.
  cbn [env connection files trace draws] in *.
  assert (Hkeep : forall p, p <> target_file yellow -> p <> target_file green ->
                            settled wb p -> settled wc p).
  { intros p Hy Hg (f & Hf & Hs). exists f.
    rewrite (Fc p Hy Hg). cbn [files]. auto. }
  split; [congruence|]. split; [|split; [|split]].
  - intros p Hp Hy Hg. apply (Hkeep p Hy Hg). apply Sb.
    eapply Sa; [exact Ra|]. destruct Hp as (f & Hf & Hs). exists f. auto.
  - intros Hw. split.
    + apply Hkeep; try apply (lookup_not_target _).
      apply Sb. apply Na; [exact Hw|exact Ra].
    + intros d Hd. apply Hkeep; try apply (targets_not_downloaded _ d Hd).
      apply Ab; [rewrite Ea; exact Hw|exact Hd].
  - intros p Hl Hd Hy Hg. rewrite (Fc p Hy Hg). cbn [files].
    rewrite (Ob p Hd). apply (Oa p Hl).
  - eexists. split.
    { rewrite Tc. cbn [trace]. rewrite Tb, Ta, <- !app_assoc. reflexivity. }
    intros u Hu. rewrite !requested_app in Hu. cbn [requested omap] in Hu.
    change (omap _ eva) with (requested eva) in Hu.
    rewrite !elem_of_app in Hu.
    destruct Hu as [Hu|[Hu|[Hu|[Hu|Hu]]]].
    + inversion Hu.
    + left. destruct Qa as [Qa|Qa]; rewrite Qa in Hu; [inversion Hu|].
      apply list_elem_of_singleton in Hu. exact Hu.
    + right. exact (Qb u Hu).
    + inversion Hu.
    + rewrite Qc in Hu. inversion Hu.
Qed.

(** X2. With an archive that answers every request with more than 1024
    bytes, phase 1 leaves the zone lookup table and every required month
    in place, whatever was on disk before and whichever way the imputation
    ends; a second run of phase 1 then sends no request at all. *)
Theorem phase1_settles (w : world) :
  working_archive (env w) ->
  let w1 := final (ensure_data_available w) in
  settled w1 lookup_dest /\
  (forall d, d ∈ required_downloads -> settled w1 (download_dest d)) /\
  requested (trace (final (ensure_data_available w1))) = requested (trace w1).
Proof.
  intros Hw w1.
  destruct (ensure_data_available_spec w) as (_ & _ & Hs & _).
  destruct (Hs Hw) as [Hl Hd]. fold w1 in Hl, Hd.
  split; [exact Hl|]. split; [exact Hd|].
  rewrite ensure_data_available_steps. mstep.
  rewrite download_file_noop
    by (destruct Hl as (f & Hf & Hsz); exists f; split; assumption).
  mstep.
  rewrite downloads_noop
    by (intros d Hin; destruct (Hd d Hin) as (f & Hf & Hsz); exists f; split; assumption).
  mstep.
  match goal with |- context [impute_december_data ?w0] =>
    destruct (impute_december_data_spec w0) as (_ & _ & evs & T & Q);
    destruct (impute_december_data w0) as [[] w2|e w2]
  end; cbn [final trace] in T |- *; rewrite T, !requested_app, Q;
    cbn [requested omap]; rewrite !app_nil_r; reflexivity.
Qed.

Lemma phase1_settles_witness :
  let w1 := final (ensure_data_available archive_world) in
  settled w1 (download_dest (2024, 7, green)) /\
  length (requested (trace w1)) = 49%nat /\
  requested (trace (final (ensure_data_available w1))) = requested (trace w1).
Proof.
  intros w1.
  assert (Hw : working_archive (env archive_world)).
  { intros url. eexists. split; [reflexivity|]. simpl. lia. }
  destruct (phase1_settles archive_world Hw) as (_ & Hd & Hq).
  split; [|split].
  - apply Hd. vm_compute. apply list_elem_of_In. vm_compute. tauto.
  - vm_compute. reflexivity.
  - exact Hq.
Defined.



(* ===================================================================== *)
(** ** Phase 1: what the imputation writes *)
(* ===================================================================== *)




Lemma days_from_civil_shift (n y1 m1 d1 y2 m2 d2 : Z) :
  (if m1 <=? 2 then y1 - 1 else y1) = (if m2 <=? 2 then y2 - 1 else y2) ->
  days_from_civil (y2 + n) m2 d2 - days_from_civil (y1 + n) m1 d1
  = days_from_civil y2 m2 d2 - days_from_civil y1 m1 d1.
Proof.
  intros H. unfold days_from_civil. cbv zeta.
  destruct (m1 <=? 2), (m2 <=? 2).
  - assert (y2 = y1) by lia. subst y2. lia.
  - subst y2. replace (y1 - 1 + n) with (y1 + n - 1) by lia. lia.
  - subst y1. replace (y2 - 1 + n) with (y2 + n - 1) by lia. lia.
  - subst y2. lia.
Qed.

Lemma add_years_plain (n : Z) (t : timestamp) :
  ~ (month t = 2 /\ day t = 29) ->
  add_years n t
  = mk_timestamp (year t + n) (month t) (day t) (hour t) (minute t) (second t).
Proof.
  intros H. unfold add_years. cbv zeta.
  destruct (month t =? 2) eqn:E1; [|reflexivity].
  destruct (day t =? 29) eqn:E2; [|reflexivity].
  apply Z.eqb_eq in E1, E2. tauto.
Qed.

(** X5. The imputation keeps the length of a trip.  When neither end of a
    source trip is a 29th of February and no 1st of March lies between
    them, the row moved forward by [n] years has the same duration in
    minutes as the source row; its reported speed, the audit filter and
    the fraud flag are therefore those of the source row: the imputed
    month carries exactly the ghost trips of its sources. *)
Theorem imputed_trip_same_verdict (n : Z) (t : taxi) (r : Raw.row) (p d : timestamp) :
  Raw.pickup_datetime r = Some p ->
  Raw.dropoff_datetime r = Some d ->
  ~ (month p = 2 /\ day p = 29) ->
  ~ (month d = 2 /\ day d = 29) ->
  (if month p <=? 2 then year p - 1 else year p)
  = (if month d <=? 2 then year d - 1 else year d) ->
  let imputed := view_select t (shift_years n r) in
  let source := view_select t r in
  minutes imputed = minutes source /\
  speed_mph_case imputed = speed_mph_case source /\
  audit_where imputed = audit_where source /\
  fraud_flag_case imputed = fraud_flag_case source.
Proof.
  intros Hp Hd Np Nd Hy imputed source.
  assert (Hm : minutes imputed = minutes source).
  { unfold minutes, imputed, source, view_select, shift_years. cbn.
    rewrite Hp, Hd. cbn. f_equal.
    rewrite (add_years_plain n p Np), (add_years_plain n d Nd).
    unfold epoch_minute. cbn [year month day hour minute].
    pose proof (days_from_civil_shift n (year p) (month p) (day p)
                  (year d) (month d) (day d) Hy).
    lia. }
  split; [exact Hm|].
  unfold speed_mph_case, audit_where, fraud_flag_case. rewrite Hm.
  split; [reflexivity|]. split; reflexivity.
Qed.

Lemma imputed_trip_same_verdict_witness :
  let new_year :=
    Raw.mk_row (Some 1) (Some (mk_timestamp 2023 12 31 23 50 0))
      (Some (mk_timestamp 2024 1 1 0 10 0)) (Some 7) (Some 4)
      (Some 30%Q) (Some 15%Q) (Some 18%Q) None in
  minutes (view_select yellow (shift_years 2 new_year)) = Some 20 /\
  fraud_flag_case (view_select yellow (shift_years 2 new_year))
  = fraud_flag_case (view_select yellow new_year).
Proof.
  intros new_year.
  destruct (imputed_trip_same_verdict 2 yellow new_year
              (mk_timestamp 2023 12 31 23 50 0) (mk_timestamp 2024 1 1 0 10 0))
    as (Hm & _ & _ & Hf); try reflexivity; try (simpl; lia).
  split; [rewrite Hm; reflexivity|exact Hf].
Defined.

(* ===================================================================== *)
(** ** Ordering and limits *)
(* ===================================================================== *)

Section OrderFacts.
Context {A : Type} (before : A -> A -> bool).
Hypothesis before_total : forall x y, before x y = false -> before y x = true.
Hypothesis before_trans :
  forall x y z, before x y = true -> before y z = true -> before x z = true.

Lemma before_refl (x : A) : before x x = true.
Proof.
  destruct (before x x) eqn:E; [reflexivity|].
  rewrite (before_total x x E) in E. discriminate E.
Qed.

Lemma insert_sorted_elem (x y : A) (l : list A) :
  y ∈ insert_sorted before x l <-> y = x \/ y ∈ l.
Proof.
  induction l as [|z l IH]; simpl.
  - rewrite list_elem_of_singleton, elem_of_nil. tauto.
  - destruct (before x z).
    + rewrite elem_of_cons. tauto.
    + rewrite !elem_of_cons, IH. tauto.
Qed.

Lemma insert_sorted_sorted (x : A) (l : list A) :
  StronglySorted (fun a b => before a b = true) l ->
  StronglySorted (fun a b => before a b = true) (insert_sorted before x l).
Proof.
  induction 1 as [|z l Hl IH Hz]; simpl.
  - repeat constructor.
  - destruct (before x z) eqn:E.
    + constructor; [constructor; assumption|].
      constructor; [exact E|].
      rewrite Forall_forall in Hz |- *. intros y Hy.
      apply (before_trans x z y E), Hz, Hy.
    + constructor; [exact IH|].
      rewrite Forall_forall in Hz |- *. intros y Hy.
      apply insert_sorted_elem in Hy. destruct Hy as [->|Hy].
      * apply before_total, E.
      * apply Hz, Hy.
Qed.

Lemma order_by_sorted (l : list A) :
  StronglySorted (fun a b => before a b = true) (order_by before l).
Proof.
  induction l as [|x l IH]; simpl; [constructor|].
  apply insert_sorted_sorted, IH.
Qed.

Lemma sorted_lookup (l : list A) (i j : nat) (a b : A) :
  StronglySorted (fun a b => before a b = true) l ->
  (i <= j)%nat -> l !! i = Some a -> l !! j = Some b -> before a b = true.
Proof.
  intros Hl. revert i j. induction Hl as [|z l Hl IH Hz]; intros i j Hij Hi Hj.
  - discriminate Hi.
  - destruct i as [|i], j as [|j]; simpl in Hi, Hj; try lia.
    + injection Hi as <-. injection Hj as <-. apply before_refl.
    + injection Hi as <-. rewrite Forall_forall in Hz.
      apply Hz. eapply list_elem_of_lookup_2, Hj.
    + apply (IH i j); [lia|assumption..].
Qed.

Lemma limit_sorted (n : nat) (l : list A) :
  StronglySorted (fun a b => before a b = true) l ->
  StronglySorted (fun a b => before a b = true) (limit n l).
Proof.
  intros Hl. rewrite <- (take_drop n l) in Hl.
  apply StronglySorted_app_1_l in Hl. exact Hl.
Qed.

(** A row cut off by [LIMIT] comes after every row that was kept. *)
Lemma limit_top (n : nat) (l : list A) (x y : A) :
  StronglySorted (fun a b => before a b = true) l ->
  x ∈ limit n l -> y ∈ l -> y ∈ limit n l \/ before x y = true.
Proof.
  intros Hl Hx Hy. rewrite <- (take_drop n l) in Hl, Hy.
  apply elem_of_app in Hy. destruct Hy as [Hy|Hy]; [left; exact Hy|right].
  exact (StronglySorted_app_1_elem_of _ _ _ _ _ Hl Hx Hy).
Qed.

End OrderFacts.

Lemma limit_length {A} (n : nat) (l : list A) : (length (limit n l) <= n)%nat.
Proof. unfold limit. rewrite length_firstn. lia. Qed.

Lemma limit_NoDup {A B} (f : A -> B) (n : nat) (l : list A) :
  NoDup (map f l) -> NoDup (map f (limit n l)).
Proof.
  intros H. unfold limit. change (firstn n l) with (take n l).
  change (map f (take n l)) with (f <$> take n l).
  rewrite fmap_take. eapply sublist_NoDup; [exact H|apply sublist_take].
Qed.

Lemma order_by_NoDup {A B} (f : A -> B) (before : A -> A -> bool) (l : list A) :
  NoDup (map f l) -> NoDup (map f (order_by before l)).
Proof.
  intros H. eapply NoDup_Permutation_proper; [|exact H].
  change (map f (order_by before l)) with (f <$> order_by before l).
  change (map f l) with (f <$> l). apply fmap_Permutation, order_by_perm.
Qed.

Lemma group_by_nonempty {A K} `{EqDecision K} (key : A -> K) (rows : list A) :
  rows <> [] -> group_by key rows <> [].
Proof.
  destruct rows as [|r rows]; [congruence|]. intros _ E.
  assert (Hin : (key r, filter (fun x => key x = key r) (r :: rows))
                ∈ group_by key (r :: rows)).
  { apply elem_of_group_by. split; [reflexivity|]. exists r. split; [left|reflexivity]. }
  rewrite E in Hin. inversion Hin.
Qed.

Lemma order_by_nonempty {A} (before : A -> A -> bool) (l : list A) :
  l <> [] -> order_by before l <> [].
Proof.
  intros H E. apply H. apply Permutation_nil_r.
  rewrite <- E. symmetry. apply order_by_perm.
Qed.

(* ===================================================================== *)
(** ** Phase 2: the vendor leaderboard *)
(* ===================================================================== *)

(** X6. The vendor leaderboard of the audit.  It has at most five rows, no
    vendor twice, and is never empty when a trip was flagged; the number
    beside a vendor is the number of flagged trips of that vendor, at
    least 1; the numbers never increase down the board; and a vendor with
    flagged trips that is not on the board has no more of them than any
    vendor on it. *)
Theorem vendor_leaderboard (audit : list audit_row) :
  let board := vendor_query audit in
  let flags_of v := count_star (filter (fun r => VendorID (audit_trip r) = v) audit) in
  (length board <= 5)%nat /\
  NoDup (map fst board) /\
  (audit <> [] -> board <> []) /\
  (forall v n, (v, n) ∈ board -> n = flags_of v /\ 1 <= n) /\
  (forall i j a b, (i <= j)%nat -> board !! i = Some a -> board !! j = Some b ->
                   snd b <= snd a) /\
  (forall r, r ∈ audit ->
             VendorID (audit_trip r) ∈ map fst board \/
             forall v n, (v, n) ∈ board -> flags_of (VendorID (audit_trip r)) <= n).
Proof.
  intros board flags_of.
  set (before := fun a b : option Z * Z => snd b <=? snd a).
  set (counts := map (fun g : option Z * list audit_row => (fst g, count_star (snd g)))
                     (group_by (fun r => VendorID (audit_trip r)) audit)).
  assert (Htot : forall x y, before x y = false -> before y x = true).
  { unfold before. intros x y H. apply Z.leb_gt in H. apply Z.leb_le. lia. }
  assert (Htr : forall x y z, before x y = true -> before y z = true -> before x z = true).
  { unfold before. intros x y z H1 H2. apply Z.leb_le in H1, H2. apply Z.leb_le. lia. }
  assert (Hs : StronglySorted (fun a b => before a b = true) (order_by before counts)).
  { apply order_by_sorted; assumption. }
  assert (Hb : board = limit 5 (order_by before counts)) by reflexivity.
  assert (Hc : forall v n, (v, n) ∈ counts <->
                           n = flags_of v /\ exists r, r ∈ audit /\ VendorID (audit_trip r) = v).
  { intros v n. unfold counts. rewrite elem_of_map. split.
    - intros ([k g] & E & Hg). simpl in E. injection E as -> ->.
      apply elem_of_group_by in Hg. destruct Hg as [-> Hr]. split; [reflexivity|exact Hr].
    - intros [-> Hr]. exists (v, filter (fun r => VendorID (audit_trip r) = v) audit).
      split; [reflexivity|]. apply elem_of_group_by. split; [reflexivity|exact Hr]. }
  split; [rewrite Hb; apply limit_length|].
  split.
  { rewrite Hb. apply limit_NoDup, order_by_NoDup. unfold counts.
    rewrite map_map. simpl. apply group_by_keys_NoDup. }
  split.
  { intros Hne. rewrite Hb.
    assert (Ho : order_by before counts <> []).
    { apply order_by_nonempty. unfold counts. intros E.
      apply map_eq_nil in E. revert E. apply group_by_nonempty, Hne. }
    destruct (order_by before counts); [congruence|]. discriminate. }
  split.
  { intros v n Hin. rewrite Hb in Hin.
    apply elem_of_limit, elem_of_order_by, Hc in Hin.
    destruct Hin as [-> (r & Hr & Hv)]. split; [reflexivity|].
    unfold flags_of, count_star.
    assert (Hr' : r ∈ filter (fun r => VendorID (audit_trip r) = v) audit)
      by (apply list_elem_of_filter; auto).
    destruct (filter (fun r => VendorID (audit_trip r) = v) audit);
      [inversion Hr'|simpl; lia]. }
  split.
  { intros i j a b Hij Ha Hb'. rewrite Hb in Ha, Hb'.
    pose proof (sorted_lookup before Htot _ i j a b
                  (limit_sorted before 5 _ Hs) Hij Ha Hb') as H.
    unfold before in H. apply Z.leb_le in H. exact H. }
  intros r Hr.
  assert (Hy : (VendorID (audit_trip r), flags_of (VendorID (audit_trip r)))
               ∈ order_by before counts).
  { apply elem_of_order_by, Hc. split; [reflexivity|]. exists r. auto. }
  destruct (decide (VendorID (audit_trip r) ∈ map fst board)) as [Hin|Hout];
    [left; exact Hin|right].
  intros v n Hvn. rewrite Hb in Hvn.
  destruct (limit_top before 5 _ _ _ Hs Hvn Hy) as [Hin|Hle].
  - exfalso. apply Hout. rewrite Hb.
    apply (elem_of_map fst). eexists. split; [|exact Hin]. reflexivity.
  - unfold before in Hle. apply Z.leb_le in Hle. exact Hle.
Qed.

Lemma vendor_leaderboard_witness :
  vendor_query (audit_query (query_view sample_yellow sample_green)) <> [] /\
  forall v n, (v, n) ∈ vendor_query (audit_query (query_view sample_yellow sample_green)) ->
              1 <= n.
Proof.
  destruct (vendor_leaderboard (audit_query (query_view sample_yellow sample_green)))
    as (_ & _ & Hne & Hn & _).
  split.
  - apply Hne. vm_compute. discriminate.
  - intros v n Hin. apply (Hn v n Hin).
Defined.

(* ===================================================================== *)
(** ** Phase 3: the leakage table *)
(* ===================================================================== *)

Lemma desc_nulls_last_total (a b : option Q) :
  desc_nulls_last a b = false -> desc_nulls_last b a = true.
Proof.
  destruct a as [x|], b as [y|]; unfold desc_nulls_last; try congruence.
  intros H. apply Qle_bool_iff.
  destruct (Qlt_le_dec x y) as [Hlt|Hle]; [apply Qlt_le_weak, Hlt|].
  apply Qle_bool_iff in Hle. congruence.
Qed.

Lemma desc_nulls_last_trans (a b c : option Q) :
  desc_nulls_last a b = true -> desc_nulls_last b c = true ->
  desc_nulls_last a c = true.
Proof.
  destruct a as [x|], b as [y|], c as [z|]; unfold desc_nulls_last; try congruence.
  rewrite !Qle_bool_iff. intros H1 H2. apply (Qle_trans _ y); assumption.
Qed.

Lemma leakage_where_origin (t : trip) :
  Sql.holds (leakage_where t) = true ->
  exists z, pickup_loc t = Some z /\ z ∉ CONGESTION_ZONE_IDS.
Proof.
  unfold leakage_where. intros H.
  assert (Hb : Sql.in_list (pickup_loc t) CONGESTION_ZONE_IDS = Some false).
  { destruct (ts_ge (pickup_time t) start_date) as [[]|],
             (Sql.in_list (pickup_loc t) CONGESTION_ZONE_IDS) as [[]|],
             (Sql.in_list (dropoff_loc t) CONGESTION_ZONE_IDS) as [[]|];
      simpl in H; try discriminate H; reflexivity. }
  unfold Sql.in_list in Hb. destruct (pickup_loc t) as [z|]; [|discriminate Hb].
  exists z. split; [reflexivity|].
  assert (Hb' : existsb (Z.eqb z) CONGESTION_ZONE_IDS = false) by congruence.
  intros Hin. apply list_elem_of_In in Hin.
  assert (He : existsb (Z.eqb z) CONGESTION_ZONE_IDS = true).
  { apply existsb_exists. exists z. split; [exact Hin|apply Z.eqb_refl]. }
  congruence.
Qed.

(** X7. The leakage table.  It has at most 20 rows and no origin twice.
    Every row is the select list on the qualifying trips of one origin: a
    known zone outside the congestion zone with more than 100 trips into
    it from the toll start date on.  The leakage rates never increase
    down the table, and an origin with more than 100 such trips that is
    not on the table has a rate no higher than any on it. *)
Theorem leakage_table (view : list trip) :
  let table := leakage_query view in
  let group z := filter (fun t => pickup_loc t = Some z)
                   (filter (fun t => Sql.holds (leakage_where t) = true) view) in
  (length table <= 20)%nat /\
  NoDup (map leak_pickup_loc table) /\
  (forall r, r ∈ table ->
     exists z, (z ∉ CONGESTION_ZONE_IDS) /\ 100 < count_star (group z) /\
               r = leakage_select (Some z, group z)) /\
  (forall i j a b x y, (i <= j)%nat -> table !! i = Some a -> table !! j = Some b ->
     leakage_rate a = Some x -> leakage_rate b = Some y -> (y <= x)%Q) /\
  (forall z, 100 < count_star (group z) ->
     Some z ∈ map leak_pickup_loc table \/
     forall r x y, r ∈ table -> leakage_rate r = Some x ->
                   leakage_rate (leakage_select (Some z, group z)) = Some y -> (y <= x)%Q).
Proof.
  intros table group.
  set (before := fun a b : leakage_row => desc_nulls_last (leakage_rate a) (leakage_rate b)).
  set (kept := filter (fun t => Sql.holds (leakage_where t) = true) view).
  set (rows := map leakage_select
                 (filter (fun g : option Z * list trip => (count_star (snd g) >? 100) = true)
                         (group_by pickup_loc kept))).
  assert (Hb : table = limit 20 (order_by before rows)) by reflexivity.
  assert (Htot : forall x y, before x y = false -> before y x = true)
    by (intros x y; apply desc_nulls_last_total).
  assert (Htr : forall x y z, before x y = true -> before y z = true -> before x z = true)
    by (intros x y z; apply desc_nulls_last_trans).
  assert (Hs : StronglySorted (fun a b => before a b = true) (order_by before rows))
    by (apply order_by_sorted; assumption).
  split; [rewrite Hb; apply limit_length|].
  split.
  { rewrite Hb. apply limit_NoDup, order_by_NoDup. unfold rows.
    rewrite map_map. cbn [leak_pickup_loc leakage_select].
    change (map (fun x : option Z * list trip => fst x) ?l) with (fst <$> l).
    eapply sublist_NoDup; [exact (group_by_keys_NoDup pickup_loc kept)|].
    apply fmap_sublist, sublist_filter. }
  split.
  { intros r Hr. fold table in Hr. rewrite Hb in Hr.
    apply elem_of_limit, elem_of_order_by in Hr. unfold rows in Hr.
    apply elem_of_map in Hr. destruct Hr as ([k g] & -> & Hg).
    apply list_elem_of_filter in Hg. destruct Hg as [Hbig Hg].
    cbn [snd] in Hbig. apply Z.gtb_lt in Hbig.
    apply elem_of_group_by in Hg. destruct Hg as [-> (t & Hin & Hk)].
    unfold kept in Hin. apply list_elem_of_filter in Hin. destruct Hin as [Hw _].
    destruct (leakage_where_origin t Hw) as (z & Hz & Hout).
    rewrite Hz in Hk. subst k.
    exists z. split; [exact Hout|]. split; [exact Hbig|reflexivity]. }
  split.
  { intros i j a b x y Hij Ha Hb' Hx Hy. rewrite Hb in Ha, Hb'.
    pose proof (sorted_lookup before Htot _ i j a b
                  (limit_sorted before 20 _ Hs) Hij Ha Hb') as H.
    unfold before in H. rewrite Hx, Hy in H. unfold desc_nulls_last in H.
    apply Qle_bool_iff in H. exact H. }
  intros z Hbig.
  assert (Hne : group z <> []).
  { intros E. rewrite E in Hbig. unfold count_star in Hbig. simpl in Hbig. lia. }
  assert (Hy : leakage_select (Some z, group z) ∈ order_by before rows).
  { apply elem_of_order_by. unfold rows. apply elem_of_map.
    exists (Some z, group z). split; [reflexivity|].
    apply list_elem_of_filter. split; [apply Z.gtb_lt; exact Hbig|].
    apply elem_of_group_by. split; [reflexivity|].
    destruct (group z) as [|t g] eqn:E; [congruence|].
    assert (Ht : t ∈ group z) by (rewrite E; left).
    unfold group in Ht. apply list_elem_of_filter in Ht. destruct Ht as [Hk Ht].
    exists t. split; [exact Ht|exact Hk]. }
  destruct (decide (Some z ∈ map leak_pickup_loc table)) as [Hin|Hout];
    [left; exact Hin|right].
  intros r x y Hr Hx Hyr. fold table in Hr. rewrite Hb in Hr.
  destruct (limit_top before 20 _ _ _ Hs Hr Hy) as [Hin|Hle].
  - exfalso. apply Hout. rewrite Hb.
    apply (elem_of_map leak_pickup_loc). eexists. split; [|exact Hin]. reflexivity.
  - unfold before in Hle. rewrite Hx, Hyr in Hle. unfold desc_nulls_last in Hle.
    apply Qle_bool_iff in Hle. exact Hle.
Qed.

Lemma leakage_table_witness :
  let view := query_view (repeat (paid_row 1 10 0 10 30 5 25) 60
                          ++ repeat (sample_row 1 10 0 10 30 5 25) 60)
                         sample_green in
  map leak_pickup_loc (leakage_query view) = [Some 7] /\
  forall r, r ∈ leakage_query view ->
    exists z, (z ∉ CONGESTION_ZONE_IDS) /\
              100 < count_star
                      (filter (fun t => pickup_loc t = Some z)
                         (filter (fun t => Sql.holds (leakage_where t) = true) view)) /\
              r = leakage_select
                    (Some z, filter (fun t => pickup_loc t = Some z)
                               (filter (fun t => Sql.holds (leakage_where t) = true) view)).
Proof.
  intros view. split; [vm_compute; reflexivity|].
  exact (proj1 (proj2 (proj2 (leakage_table view)))).
Defined.

(* ===================================================================== *)
(** ** Phase 3: the velocity table *)
(* ===================================================================== *)







(* ===================================================================== *)
(** ** Phase 4: the daily trip counts *)
(* ===================================================================== *)

Lemma sum_counts_perm (l1 l2 : list Z) :
  l1 ≡ₚ l2 -> fold_right Z.add 0 l1 = fold_right Z.add 0 l2.
Proof. induction 1; simpl; lia. Qed.

Lemma filter_key_cons_length {A K} `{EqDecision K} (key : A -> K) (k : K) (ks : list K)
      (rows : list A) :
  k ∉ ks ->
  (length (filter (fun r => key r = k) rows) + length (filter (fun r => key r ∈ ks) rows))%nat
  = length (filter (fun r => key r ∈ k :: ks) rows).
Proof.
  intros Hk. induction rows as [|r rows IHr]; [reflexivity|].
  rewrite !filter_cons.
  destruct (decide (key r = k)) as [E|E];
    destruct (decide (key r ∈ ks)) as [I|I];
    destruct (decide (key r ∈ k :: ks)) as [J|J];
    cbn [length]; try lia.
  - exfalso. subst k. contradiction.
  - exfalso. apply J. rewrite E. left.
  - exfalso. apply J. rewrite E. left.
  - exfalso. apply J. right. exact I.
  - exfalso. apply elem_of_cons in J. destruct J as [J|J]; contradiction.
Qed.

(** Grouping loses no row and counts none twice. *)
Lemma filter_in_keys_length {A K} `{EqDecision K} (key : A -> K) (rows : list A)
      (ks : list K) :
  NoDup ks ->
  fold_right Z.add 0 (map (fun k => count_star (filter (fun r => key r = k) rows)) ks)
  = count_star (filter (fun r => key r ∈ ks) rows).
Proof.
  induction 1 as [|k ks Hk Hks IH].
  - simpl. unfold count_star.
    rewrite (filter_empty (fun r => key r ∈ [])); [reflexivity|].
    intros x _ Hin. inversion Hin.
  - cbn [map fold_right]. rewrite IH. unfold count_star.
    rewrite <- (filter_key_cons_length key k ks rows Hk). lia.
Qed.

Lemma filter_all {A} (P : A -> Prop) `{forall x, Decision (P x)} (l : list A) :
  (forall x, x ∈ l -> P x) -> filter P l = l.
Proof.
  induction l as [|x l IH]; intros Hall; [reflexivity|].
  rewrite filter_cons_True by (apply Hall; left).
  f_equal. apply IH. intros y Hy. apply Hall. right. exact Hy.
Qed.

Lemma group_by_counts {A K} `{EqDecision K} (key : A -> K) (rows : list A) :
  fold_right Z.add 0 (map (fun g => count_star (snd g)) (group_by key rows))
  = count_star rows.
Proof.
  unfold group_by. rewrite map_map. cbn [snd].
  rewrite (filter_in_keys_length key rows (remove_dups (map key rows)))
    by apply NoDup_remove_dups.
  f_equal. apply filter_all. intros r Hr.
  apply elem_of_remove_dups. apply (elem_of_map key). eauto.
Qed.

Lemma date_leb_total (a b : date) : date_leb a b = false -> date_leb b a = true.
Proof.
  destruct a as [[y1 m1] d1], b as [[y2 m2] d2]. unfold date_leb.
  destruct (Z.ltb_spec y1 y2), (Z.ltb_spec y2 y1), (Z.eqb_spec y1 y2), (Z.eqb_spec y2 y1),
    (Z.ltb_spec m1 m2), (Z.ltb_spec m2 m1), (Z.eqb_spec m1 m2), (Z.eqb_spec m2 m1),
    (Z.leb_spec d1 d2), (Z.leb_spec d2 d1); cbn; intros; try congruence; lia.
Qed.

Lemma date_leb_trans (a b c : date) :
  date_leb a b = true -> date_leb b c = true -> date_leb a c = true.
Proof.
  destruct a as [[y1 m1] d1], b as [[y2 m2] d2], c as [[y3 m3] d3]. unfold date_leb.
  rewrite !orb_true_iff, !andb_true_iff, !orb_true_iff, !andb_true_iff,
    !Z.ltb_lt, !Z.eqb_eq, !Z.leb_le. lia.
Qed.

Lemma asc_nulls_last_total {K} (leb : K -> K -> bool) (a b : option K) :
  (forall x y, leb x y = false -> leb y x = true) ->
  asc_nulls_last leb a b = false -> asc_nulls_last leb b a = true.
Proof. intros H. destruct a, b; simpl; try congruence. apply H. Qed.

Lemma asc_nulls_last_trans {K} (leb : K -> K -> bool) (a b c : option K) :
  (forall x y z, leb x y = true -> leb y z = true -> leb x z = true) ->
  asc_nulls_last leb a b = true -> asc_nulls_last leb b c = true ->
  asc_nulls_last leb a c = true.
Proof. intros H. destruct a, b, c; simpl; try congruence. apply H. Qed.

Lemma daily_trips_dates_NoDup (view : list trip) :
  NoDup (map fst (daily_trips_query view)).
Proof.
  unfold daily_trips_query. apply order_by_NoDup. rewrite map_map. cbn [fst].
  apply group_by_keys_NoDup.
Qed.

Lemma elem_of_daily_trips_query (view : list trip) (d : option date) (n : Z) :
  (d, n) ∈ daily_trips_query view ->
  n = count_star (filter (fun t => option_map date_of (pickup_time t) = d) view) /\
  1 <= n.
Proof.
  intros Hin. unfold daily_trips_query in Hin. apply elem_of_order_by in Hin.
  apply elem_of_map in Hin.
  destruct Hin as ([k g] & E & Hg). cbn [fst snd] in E. injection E as -> ->.
  pose proof (group_nonempty _ _ _ _ Hg) as Hlen.
  apply elem_of_group_by in Hg. destruct Hg as [-> _].
  split; [reflexivity|]. unfold count_star. lia.
Qed.

(** X9. The daily trip counts.  The table has one row per pick-up date of
    the view, no date twice; the count of a date is the number of trips
    picked up that day, at least 1; the counts add up to the number of
    rows of the view, so no trip is lost or counted twice (trips without
    a pick-up time are counted in one row without a date); and the dates
    ascend, the row without a date coming last. *)
Theorem daily_trips_table (view : list trip) :
  let table := daily_trips_query view in
  NoDup (map fst table) /\
  (forall d n, (d, n) ∈ table ->
     n = count_star (filter (fun t => option_map date_of (pickup_time t) = d) view) /\
     1 <= n) /\
  fold_right Z.add 0 (map snd table) = count_star view /\
  (forall i j a b, (i <= j)%nat -> table !! i = Some a -> table !! j = Some b ->
     match fst a, fst b with
     | Some x, Some y => date_leb x y = true
     | None, Some _ => False
     | _, None => True
     end).
Proof.
  intros table.
  set (key := fun t : trip => option_map date_of (pickup_time t)).
  set (before := fun a b : option date * Z => asc_nulls_last date_leb (fst a) (fst b)).
  set (counts := map (fun g : option date * list trip => (fst g, count_star (snd g)))
                     (group_by key view)).
  assert (Hb : table = order_by before counts) by reflexivity.
  assert (Htot : forall x y, before x y = false -> before y x = true).
  { intros x y. apply asc_nulls_last_total. intros ? ?. apply date_leb_total. }
  assert (Htr : forall x y z, before x y = true -> before y z = true -> before x z = true).
  { intros x y z. apply asc_nulls_last_trans. intros ? ? ?. apply date_leb_trans. }
  split; [|split; [|split]].
  - apply daily_trips_dates_NoDup.
  - intros d n Hin. apply elem_of_daily_trips_query. exact Hin.
  - rewrite Hb.
    rewrite (sum_counts_perm (map snd (order_by before counts)) (map snd counts)).
    + unfold counts. rewrite map_map. cbn [snd]. apply group_by_counts.
    + change (map snd ?l) with (snd <$> l). apply fmap_Permutation, order_by_perm.
  - intros i j a b Hij Ha Hb'. rewrite Hb in Ha, Hb'.
    pose proof (sorted_lookup before Htot _ i j a b
                  (order_by_sorted before Htot Htr counts) Hij Ha Hb') as H.
    unfold before, asc_nulls_last in H.
    destruct (fst a), (fst b); try exact H; try exact I. discriminate H.
Qed.

(* ===================================================================== *)
(** ** Phase 4: tip economics *)
(* ===================================================================== *)




(* ===================================================================== *)
(** ** Phase 3: a year without trip files, and a failing leakage statement *)
(* ===================================================================== *)

(** The Q1 count of a year one of whose directories has no trip file: the
    statement fails, and the failure is replaced by 0 without a word. *)
Lemma get_q1_count_no_files (y : Z) (w : world) :
  expand_glob (trip_dir y yellow) (files w) = [] \/
  expand_glob (trip_dir y green) (files w) = [] ->
  get_q1_count y w = Ok 0 (set_trace (trace w ++ [Execute (QZone y)]) w).
Proof.
  intros H. unfold get_q1_count, execute, read_parquet.
  mcases; try reflexivity; exfalso;
    cbn [files] in *;
    destruct H as [H|H]; rewrite (scan_no_files _ _ H) in *; congruence.
Qed.

Lemma expand_glob_empty_frame (dir : string) (fs fs' : gmap string file) (q : string) :
  glob_parquet dir q = false ->
  (forall p, p <> q -> fs' !! p = fs !! p) ->
  expand_glob dir fs = [] -> expand_glob dir fs' = [].
Proof.
  intros Hq Hfr He.
  destruct (expand_glob dir fs') as [|[p f] l] eqn:E; [reflexivity|].
  assert (Hin : (p, f) ∈ expand_glob dir fs') by (rewrite E; left).
  apply elem_of_expand_glob in Hin. destruct Hin as [Hp Hg].
  assert (Hne : p <> q) by (intros ->; congruence).
  rewrite (Hfr p Hne) in Hp.
  assert (Hin' : (p, f) ∈ expand_glob dir fs) by (apply elem_of_expand_glob; auto).
  rewrite He in Hin'. inversion Hin'.
Qed.

(** X11. A comparison year without data.  When one of the two 2024
    directories holds no trip file, the Q1 count of 2024 is 0, nothing is
    printed about the failed statement, and the impact analysis, when its
    leakage statement succeeds, writes a summary whose Q1 volume of 2024
    and whose percent change are both 0, whatever the 2025 volume is. *)
Theorem missing_year_zero_change (w : world) (ys gs : list Raw.row)
      (gc : Z) (sv : list (option Z * Z)) :
  connection w = Some true ->
  engine_fault (env w) LeakageCopy = false ->
  scan (trip_dir 2025 yellow) (files w) = inr ys ->
  scan (trip_dir 2025 green) (files w) = inr gs ->
  expand_glob (trip_dir 2024 yellow) (files w) = [] \/
  expand_glob (trip_dir 2024 green) (files w) = [] ->
  get_q1_count 2024 w = Ok 0 (set_trace (trace w ++ [Execute (QZone 2024)]) w) /\
  exists w' s,
    run_impact_analysis gc sv w = Ok tt w' /\
    data <$> (files w' !! stats_file) = Some (StatsJson s) /\
    q1_2024_vol s = 0 /\ stats_q1_pct_change s = 0%Q /\
    Print (MsgQ1 0 (q1_2025_vol s) 0) ∈ trace w'.
Proof.
  intros Hc Hf Hy Hg Hmiss. split; [apply get_q1_count_no_files, Hmiss|].
  unfold run_impact_analysis. mstep.
  match goal with |- context [revenue_job ?w0] =>
    destruct (revenue_job_spec w0) as (rev & w1 & ev1 & R1 & E1 & C1 & F1 & T1 & _)
  end.
  rewrite R1. mstep. cbn [env connection files trace] in E1, C1, F1, T1.
  destruct (leakage_job_run w1 ys gs) as (w2 & R2 & _ & C2 & E2 & F2 & T2);
    [congruence|congruence|congruence|congruence|].
  rewrite R2. mstep.
  assert (Hmiss2 : expand_glob (trip_dir 2024 yellow) (files w2) = [] \/
                   expand_glob (trip_dir 2024 green) (files w2) = []).
  { destruct Hmiss as [H|H]; [left|right];
      (eapply (expand_glob_empty_frame _ (files w) _ leakage_file);
       [vm_compute; reflexivity
       |intros p Hp; rewrite (F2 p Hp), F1; reflexivity
       |exact H]). }
  rewrite get_q1_count_no_files by exact Hmiss2. mstep.
  match goal with |- context [get_q1_count 2025 ?w0] =>
    destruct (get_q1_count_spec 2025 w0) as (n25 & w4 & R4 & E4 & C4 & F4 & T4 & _)
  end.
  rewrite R4. mstep. cbn [env connection files trace] in E4, C4, F4, T4.
  match goal with |- context [export_velocity 2024 ?w0] =>
    destruct (export_velocity_spec 2024 w0) as (w5 & ev5 & R5 & E5 & C5 & F5 & T5 & _)
  end.
  rewrite R5. mstep. cbn [env connection files trace] in E5, C5, F5, T5.
  match goal with |- context [export_velocity 2025 ?w0] =>
    destruct (export_velocity_spec 2025 w0) as (w6 & ev6 & R6 & E6 & C6 & F6 & T6 & _)
  end.
  rewrite R6. mstep. cbn [env connection files trace] in E6, C6, F6, T6.
  match goal with |- context [border_job ?w0] =>
    destruct (border_job_spec w0) as (w7 & ev7 & R7 & E7 & C7 & F7 & T7 & _)
  end.
  rewrite R7. cbn [env connection files trace] in E7, C7, F7, T7.
  assert (N1 : stats_file <> velocity_file 2024) by (vm_compute; discriminate).
  assert (N2 : stats_file <> velocity_file 2025) by (vm_compute; discriminate).
  assert (N3 : stats_file <> border_file) by (vm_compute; discriminate).
  eexists. eexists. split; [reflexivity|].
  split.
  { rewrite (F7 _ N3), (F6 _ N2), (F5 _ N1), lookup_insert_eq. reflexivity. }
  cbn [q1_2024_vol q1_2025_vol stats_q1_pct_change].
  split; [reflexivity|]. split; [reflexivity|].
  rewrite T7, T6, T5. rewrite !elem_of_app, !elem_of_cons.
  clear. naive_solver.
Qed.

Lemma missing_year_zero_change_witness :
  exists w' s,
    run_impact_analysis 0 [] leakage_world = Ok tt w' /\
    data <$> (files w' !! stats_file) = Some (StatsJson s) /\
    q1_2024_vol s = 0 /\ stats_q1_pct_change s = 0%Q.
Proof.
  destruct (missing_year_zero_change leakage_world
              (repeat (paid_row 1 10 0 10 30 5 25) 60
               ++ repeat (sample_row 1 10 0 10 30 5 25) 60)
              sample_green 0 [])
    as (_ & w' & s & R & F & Z1 & Z2 & _).
  - reflexivity.
  - reflexivity.
  - vm_compute. reflexivity.
  - vm_compute. reflexivity.
  - left. vm_compute. reflexivity.
  - exists w', s. auto.
Defined.

(** X12. The leakage statement is not guarded.  When the engine fails on
    it, or the view is not in the catalog, the impact analysis ends there
    with an exception: the revenue and leakage statements are the only
    ones submitted, and the files are as they were, so no summary, no
    velocity table and no border table is written. *)
Theorem leakage_failure_stops_analysis (w : world) (gc : Z) (sv : list (option Z * Z)) :
  engine_fault (env w) LeakageCopy = true \/ connection w <> Some true ->
  exists e w' evs,
    run_impact_analysis gc sv w = Raise e w' /\
    files w' = files w /\
    trace w' = trace w ++ evs /\
    executed evs = [RevQuery; LeakageCopy].
Proof.
  intros H. unfold run_impact_analysis. mstep.
  match goal with |- context [revenue_job ?w0] =>
    destruct (revenue_job_spec w0)
      as (rev & w1 & ev1 & R1 & E1 & C1 & F1 & T1 & X1 & _)
  end.
  rewrite R1. mstep. cbn [env connection files trace] in E1, C1, F1, T1.
  destruct (leakage_job_raises w1) as (e & R2).
  { rewrite E1, C1. exact H. }
  rewrite R2. exists e. eexists. eexists. split; [reflexivity|].
  cbn [files trace set_trace]. split; [exact F1|].
  split; [rewrite T1, <- !app_assoc; reflexivity|].
  rewrite !executed_app, (executed_cons _ ev1), X1. reflexivity.
Qed.

Lemma leakage_failure_stops_analysis_witness :
  exists e w',
    run_impact_analysis 0 [] leakage_fails = Raise e w' /\
    files w' = files leakage_fails.
Proof.
  destruct (leakage_failure_stops_analysis leakage_fails 0 [])
    as (e & w' & evs & R & F & _).
  - left. reflexivity.
  - exists e, w'. auto.
Defined.

(* ===================================================================== *)
(** ** The guarded part of [main] *)
(* ===================================================================== *)

(** The guarded part of [main] never lets an exception out and always
    closes the connection. *)
Lemma main_guarded_total (w : world) :
  exists w', main_guarded w = Ok tt w' /\ connection w' = None.
Proof.
  unfold main_guarded, try_finally, try_except, close.
  destruct (main_stages w) as [[] w1|e w1]; mstep;
    eexists; split; reflexivity.
Qed.

Lemma get_duckdb_conn_ok (w : world) :
  engine_fault (env w) SetMemoryLimit = false ->
  engine_fault (env w) SetThreads = false ->
  get_duckdb_conn w
  = Ok tt (set_trace (trace w ++ [Execute SetMemoryLimit; Execute SetThreads])
             (set_connection (Some false) w)).
Proof.
  intros H1 H2. unfold get_duckdb_conn, execute. mstep. rewrite H1. mstep.
  rewrite H2. mstep. rewrite <- app_assoc. reflexivity.
Qed.

Lemma get_duckdb_conn_fails (w : world) :
  (engine_fault (env w) SetMemoryLimit = true ->
   get_duckdb_conn w
   = Raise (EngineError SetMemoryLimit)
       (set_trace (trace w ++ [Execute SetMemoryLimit]) (set_connection (Some false) w))) /\
  (engine_fault (env w) SetMemoryLimit = false ->
   engine_fault (env w) SetThreads = true ->
   get_duckdb_conn w
   = Raise (EngineError SetThreads)
       (set_trace (trace w ++ [Execute SetMemoryLimit; Execute SetThreads])
          (set_connection (Some false) w))).
Proof.
  unfold get_duckdb_conn, execute. split.
  - intros H1. mstep. rewrite H1. reflexivity.
  - intros H1 H2. mstep. rewrite H1. mstep. rewrite H2. mstep.
    rewrite <- app_assoc. reflexivity.
Qed.

Lemma download_file_executes (url dir name : string) (w w' : world) :
  download_file url dir name w = Ok tt w' ->
  env w' = env w /\ executed (trace w') = executed (trace w).
Proof.
  unfold download_file, path_exists. mstep.
  destruct (files w !! join dir name) as [f|] eqn:Ef;
    [destruct (st_size f >? 1024)|]; mstep;
    try destruct (http_get (env w) url); mstep;
    rewrite ?Ef;
    try match goal with
        | |- context [bool_decide ?P] => destruct (bool_decide P)
        end;
    intros [= <-]; mstep; split; try reflexivity;
    rewrite ?executed_app; cbn [executed omap]; rewrite ?app_nil_r; reflexivity.
Qed.

Lemma downloads_execute (l : list (Z * Z * taxi)) (w w' : world) :
  for_each l download_required w = Ok tt w' ->
  env w' = env w /\ executed (trace w') = executed (trace w).
Proof.
  revert w. induction l as [|[[y m] t] l IH]; intros w.
  - intros [= <-]. split; reflexivity.
  - cbn [for_each download_required]. unfold bind.
    destruct (download_file (join TLC_BASE_URL (trip_file_name t y m))
                (trip_dir y t) (trip_file_name t y m) w) as [[] w1|e w1] eqn:R1;
      [|discriminate].
    intros R2. apply download_file_executes in R1. apply IH in R2.
    destruct R1, R2. split; congruence.
Qed.

(** Phase 1 up to the imputation: it returns, and submits no statement. *)
Lemma phase1_downloads (w : world) :
  exists w1,
    ensure_data_available w = impute_december_data w1 /\
    env w1 = env w /\ executed (trace w1) = executed (trace w).
Proof.
  rewrite ensure_data_available_steps. mstep.
  match goal with |- context [download_file ?u ?d ?n ?w0] =>
    destruct (download_file u d n w0) as [[] w1|e w1] eqn:R1
  end.
  2:{ exfalso. revert R1. unfold download_file, path_exists. mstep.
      repeat match goal with
             | |- context [match files ?w0 !! ?p with _ => _ end] =>
                 destruct (files w0 !! p) as [?|] eqn:?
             | |- context [if ?b then _ else _] => destruct b eqn:?
             | |- context [match http_get ?e ?u with _ => _ end] =>
                 destruct (http_get e u) eqn:?
             | _ => progress mstep
             end; discriminate. }
  apply download_file_executes in R1. destruct R1 as [E1 X1].
  cbn [env trace] in E1, X1.
  destruct (downloads_run required_downloads w1) as (w2 & R2 & _).
  rewrite R2. pose proof (downloads_execute _ _ _ R2) as [E2 X2]. mstep.
  eexists. split; [reflexivity|]. cbn [env trace].
  split; [congruence|].
  rewrite executed_app, X2, X1, executed_app. cbn [executed omap].
  rewrite !app_nil_r. reflexivity.
Qed.

Lemma impute_december_data_ok (w : world) :
  engine_fault (env w) SetMemoryLimit = false ->
  engine_fault (env w) SetThreads = false ->
  exists w', impute_december_data w = Ok tt w' /\ env w' = env w.
Proof.
  intros H1 H2. unfold impute_december_data, bind.
  rewrite (get_duckdb_conn_ok w H1 H2). cbn [for_each TAXI_TYPES]. unfold bind.
  match goal with |- context [impute_taxi yellow ?w0] =>
    destruct (impute_taxi_spec yellow w0) as (w1 & ? & R1 & E1 & _)
  end.
  rewrite R1.
  destruct (impute_taxi_spec green w1) as (w2 & ? & R2 & E2 & _).
  rewrite R2. exists w2. split; [reflexivity|]. rewrite E2, E1. reflexivity.
Qed.

(** X13. How [main] ends.  It raises only when the engine rejects one of
    the two settings of a fresh connection, which happens in phase 1,
    before any other statement is submitted.  Otherwise it returns,
    whatever the network, the disk and the engine did: the connection is
    closed, and the last line shown is the completion message. *)
Theorem main_outcome (w : world) :
  (engine_fault (env w) SetMemoryLimit = true ->
   exists w', main w = Raise (EngineError SetMemoryLimit) w' /\
              executed (trace w') = executed (trace w) ++ [SetMemoryLimit]) /\
  (engine_fault (env w) SetMemoryLimit = false ->
   engine_fault (env w) SetThreads = true ->
   exists w', main w = Raise (EngineError SetThreads) w' /\
              executed (trace w') = executed (trace w) ++ [SetMemoryLimit; SetThreads]) /\
  (engine_fault (env w) SetMemoryLimit = false ->
   engine_fault (env w) SetThreads = false ->
   exists w' t, main w = Ok tt w' /\ connection w' = None /\
                trace w' = t ++ [Print MsgCompleted]).
Proof.
  unfold main. mstep.
  match goal with |- context [ensure_data_available ?w0] =>
    destruct (phase1_downloads w0) as (w1 & R1 & E1 & X1)
  end.
  rewrite R1. cbn [env trace] in E1, X1.
  assert (X1' : executed (trace w1) = executed (trace w)).
  { rewrite X1, !executed_app. cbn [executed omap]. rewrite !app_nil_r. reflexivity. }
  clear X1. split; [|split].
  - intros H1. unfold impute_december_data, bind.
    rewrite (proj1 (get_duckdb_conn_fails w1)) by (rewrite E1; exact H1).
    eexists. split; [reflexivity|]. cbn [trace set_trace].
    rewrite executed_app, X1'. reflexivity.
  - intros H1 H2. unfold impute_december_data, bind.
    rewrite (proj2 (get_duckdb_conn_fails w1)) by (rewrite E1; assumption).
    eexists. split; [reflexivity|]. cbn [trace set_trace].
    rewrite executed_app, X1'. reflexivity.
  - intros H1 H2.
    destruct (impute_december_data_ok w1) as (w2 & R2 & E2);
      [rewrite E1; exact H1|rewrite E1; exact H2|].
    rewrite R2. mstep.
    rewrite get_duckdb_conn_ok by (cbn [env]; rewrite E2, E1; assumption).
    match goal with |- context [main_guarded ?w0] =>
      destruct (main_guarded_total w0) as (w3 & R3 & C3)
    end.
    rewrite R3. mstep. eexists. eexists. split; [reflexivity|].
    split; [exact C3|reflexivity].
Qed.

Lemma main_outcome_witness :
  exists w' t, main bare_world = Ok tt w' /\ connection w' = None /\
               trace w' = t ++ [Print MsgCompleted].
Proof.
  apply (proj2 (proj2 (main_outcome bare_world))); reflexivity.
Defined.

(* ===================================================================== *)
(** ** Phase 4: the weather series and the joined rows *)
(* ===================================================================== *)

(** X14. Fetching the weather series never raises and touches no file but
    the weather cache.  A cached file is never refreshed: nothing is
    requested and nothing changes.  Without a cached file the archive is
    asked once; a request that fails, or with pandas two arrays of
    different lengths, leaves no file behind and is reported; with pandas
    and two arrays of one length the file holds the series, date by
    date. *)
Theorem fetch_weather_outcome (w : world) :
  exists w',
    fetch_weather w = Ok tt w' /\
    env w' = env w /\ connection w' = connection w /\
    (forall p, p <> weather_file -> files w' !! p = files w !! p) /\
    (is_Some (files w !! weather_file) -> w' = w) /\
    (files w !! weather_file = None ->
     requested (trace w') = requested (trace w) ++ [weather_url] /\
     match weather_archive (env w) with
     | None =>
         files w' !! weather_file = None /\
         trace w' = trace w ++ [Request weather_url;
                                Print (MsgWeatherFailed (RequestError weather_url))]
     | Some (time, precipitation_sum) =>
         if PANDAS_AVAILABLE (env w)
         then
           if (length time =? length precipitation_sum)%nat
           then data <$> (files w' !! weather_file)
                = Some (WeatherCsv (weather_rows time precipitation_sum))
           else files w' !! weather_file = None /\
                trace w' = trace w ++ [Request weather_url;
                                       Print (MsgWeatherFailed ValueError)]
         else is_Some (files w' !! weather_file)
     end).
Proof.
  unfold fetch_weather, path_exists. mstep.
  destruct (files w !! weather_file) as [f|] eqn:Ef.
  - rewrite bool_decide_eq_true_2 by eauto. exists w.
    do 4 (split; [reflexivity|]). split; [reflexivity|]. intros H. discriminate H.
  - rewrite bool_decide_eq_false_2 by (intros [? H]; discriminate H). mstep.
    destruct (weather_archive (env w)) as [[time prec]|]; mstep.
    + destruct (PANDAS_AVAILABLE (env w)); mstep.
      * destruct (length time =? length prec)%nat; mstep.
        -- eexists. split; [reflexivity|]. mstep. do 2 (split; [reflexivity|]).
           split; [intros p Hp; rewrite lookup_insert_ne by congruence; reflexivity|].
           split; [intros [? H]; discriminate H|]. intros _.
           split; [rewrite <- !app_assoc, requested_app; reflexivity|].
           rewrite lookup_insert_eq. reflexivity.
        -- eexists. split; [reflexivity|]. mstep. do 2 (split; [reflexivity|]).
           split; [reflexivity|].
           split; [intros [? H]; discriminate H|]. intros _.
           split; [rewrite <- !app_assoc, requested_app; reflexivity|].
           split; [exact Ef|rewrite <- !app_assoc; reflexivity].
      * eexists. split; [reflexivity|]. mstep. do 2 (split; [reflexivity|]).
        split; [intros p Hp; rewrite lookup_insert_ne by congruence; reflexivity|].
        split; [intros [? H]; discriminate H|]. intros _.
        split; [rewrite <- !app_assoc, requested_app; reflexivity|].
        rewrite lookup_insert_eq. eauto.
    + eexists. split; [reflexivity|]. mstep. do 2 (split; [reflexivity|]).
      split; [reflexivity|].
      split; [intros [? H]; discriminate H|]. intros _.
      split; [rewrite <- !app_assoc, requested_app; reflexivity|].
      split; [exact Ef|rewrite <- !app_assoc; reflexivity].
Qed.

Lemma flat_map_length_le {A B} (f : A -> list B) (l : list A) :
  (forall x, x ∈ l -> (length (f x) <= 1)%nat) ->
  (length (flat_map f l) <= length l)%nat.
Proof.
  induction l as [|x l IH]; intros H; [simpl; lia|].
  cbn [flat_map]. rewrite length_app. cbn [length].
  specialize (H x ltac:(left)) as Hx.
  specialize (IH ltac:(intros y Hy; apply H; right; exact Hy)). lia.
Qed.

Lemma filter_key_NoDup_length {A K} `{EqDecision K} (key : A -> K) (k : K) (l : list A) :
  NoDup (map key l) -> (length (filter (fun r => key r = k) l) <= 1)%nat.
Proof.
  induction l as [|x l IH]; intros Hnd; [simpl; lia|].
  cbn [map] in Hnd. apply NoDup_cons in Hnd. destruct Hnd as [Hx Hl].
  rewrite filter_cons. destruct (decide (key x = k)) as [E|E]; [|apply IH, Hl].
  cbn [length].
  assert (Hnone : filter (fun r => key r = k) l = []).
  { apply filter_empty. intros y Hy Ey. apply Hx. rewrite E, <- Ey.
    apply (elem_of_map key). eauto. }
  rewrite Hnone. simpl. lia.
Qed.

Lemma dropna_length (df : list (option date * Z * option Q)) :
  (length (dropna df) <= length df)%nat.
Proof.
  unfold dropna. induction df as [|[[[d|] n] [p|]] df IH]; cbn in *; lia.
Qed.

Lemma elem_of_dropna (df : list (option date * Z * option Q)) (d : date) (n : Z) (p : Q) :
  (d, n, p) ∈ dropna df <-> (Some d, n, Some p) ∈ df.
Proof.
  unfold dropna. rewrite list_elem_of_omap. split.
  - intros ([[[d'|] n'] [p'|]] & Hin & E); try discriminate E.
    injection E as -> -> ->. exact Hin.
  - intros Hin. exists (Some d, n, Some p). split; [exact Hin|reflexivity].
Qed.

Lemma elem_of_merge_on_date (df_trips : list (option date * Z))
      (df_weather : list (option date * option Q)) (d : option date) (n : Z) (p : option Q) :
  (d, n, p) ∈ merge_on_date df_trips df_weather <-> (d, n) ∈ df_trips /\ (d, p) ∈ df_weather.
Proof.
  unfold merge_on_date. rewrite list_elem_of_In, in_flat_map. split.
  - intros ([d' n'] & Hl & Hr). apply list_elem_of_In in Hl, Hr.
    apply elem_of_map in Hr. destruct Hr as ([d'' p'] & E & Hr).
    apply list_elem_of_filter in Hr. destruct Hr as [Hk Hr].
    cbn [fst snd] in *. injection E as -> -> ->. subst d''. auto.
  - intros [Hl Hr]. exists (d, n). split; [apply list_elem_of_In; exact Hl|].
    apply list_elem_of_In, elem_of_map. exists (d, p). split; [reflexivity|].
    apply list_elem_of_filter. split; [reflexivity|exact Hr].
Qed.

Lemma merge_on_date_length (df_trips : list (option date * Z))
      (df_weather : list (option date * option Q)) :
  NoDup (map fst df_trips) ->
  length (merge_on_date df_trips df_weather)
  = length (filter (fun r => fst r ∈ map fst df_trips) df_weather).
Proof.
  unfold merge_on_date. induction df_trips as [|[k n] ts IH]; intros Hnd.
  - simpl. rewrite (filter_empty (fun r => fst r ∈ [])); [reflexivity|].
    intros x _ Hin. inversion Hin.
  - cbn [map fst] in Hnd. apply NoDup_cons in Hnd. destruct Hnd as [Hk Hts].
    cbn [flat_map]. rewrite length_app, length_map, (IH Hts). cbn [fst map].
    apply (filter_key_cons_length fst k (map fst ts) df_weather Hk).
Qed.

(** X15. The rows the correlation is computed from.  Each joined row pairs
    a date with the number of trips of the view picked up that day and a
    precipitation recorded for that date; there are no more joined rows
    than weather rows, and, when no date occurs twice in the weather
    series, no more than dates with a trip. *)
Theorem joined_rows (view : list trip) (df_weather : list (option date * option Q)) :
  let df_trips := daily_trips_query view in
  let joined := dropna (merge_on_date df_trips df_weather) in
  (forall d n p, (d, n, p) ∈ joined <->
     (Some d, n) ∈ df_trips /\ (Some d, Some p) ∈ df_weather) /\
  (forall d n p, (d, n, p) ∈ joined ->
     n = count_star (filter (fun t => option_map date_of (pickup_time t) = Some d) view) /\
     1 <= n) /\
  (length joined <= length df_weather)%nat /\
  (NoDup (map fst df_weather) -> (length joined <= length df_trips)%nat).
Proof.
  intros df_trips joined.
  assert (Hiff : forall d n p, (d, n, p) ∈ joined <->
            (Some d, n) ∈ df_trips /\ (Some d, Some p) ∈ df_weather).
  { intros d n p. unfold joined. rewrite elem_of_dropna. apply elem_of_merge_on_date. }
  split; [exact Hiff|]. split; [|split].
  - intros d n p Hin. apply Hiff in Hin. destruct Hin as [Hin _].
    apply (elem_of_daily_trips_query view (Some d) n Hin).
  - unfold joined, df_trips. etransitivity; [apply dropna_length|].
    rewrite (merge_on_date_length _ df_weather (daily_trips_dates_NoDup view)).
    apply length_filter.
  - intros Hnd. unfold joined. etransitivity; [apply dropna_length|].
    unfold merge_on_date. apply flat_map_length_le. intros l _.
    rewrite length_map. apply (filter_key_NoDup_length fst (fst l) df_weather Hnd).
Qed.

Lemma joined_rows_witness :
  (length (dropna (merge_on_date (daily_trips_query (query_view (trips_on_days 11) []))
                                 march_weather))
   <= length (daily_trips_query (query_view (trips_on_days 11) [])))%nat.
Proof.
  apply (joined_rows (query_view (trips_on_days 11) []) march_weather).
  vm_compute. repeat constructor; rewrite ?elem_of_cons, ?elem_of_nil;
    intros H; repeat (destruct H as [H|H]; [discriminate H|]); exact H.
Defined.

(* ===================================================================== *)
(** ** Phase 3: the border-effect table *)
(* ===================================================================== *)

Lemma q1_dropoffs_count (rows : list Raw.row) (x : option Z * Z) :
  x ∈ q1_dropoffs rows -> 1 <= snd x.
Proof.
  unfold q1_dropoffs. intros H. apply elem_of_map in H.
  destruct H as ([k g] & -> & Hg). cbn [snd].
  pose proof (group_nonempty _ _ _ _ Hg). unfold count_star. lia.
Qed.

Lemma percent_floor (a b p : Q) :
  (0 <= a)%Q -> (0 < b)%Q -> (p * b == (a - b) * 100)%Q ->
  (-100 <= p)%Q /\ ((p == -100)%Q <-> (a == 0)%Q).
Proof.
  intros Ha Hb E. split; [nra|]. split; intros H.
  - rewrite H in E. lra.
  - apply (Qmult_inj_r _ _ b); [lra|]. rewrite E, H. ring.
Qed.

(** X16. The border-effect table.  Every row stands for a drop-off zone
    seen in the first quarter of at least one of the two years: both
    counts are 0 or more and not both 0, and the difference is the later
    count minus the earlier.  The percent change is always defined: it is
    0 when the earlier count is 0, never below -100, and -100 exactly for
    a zone that lost all its drop-offs. *)
Theorem border_table (yellow_2024 yellow_2025 : list Raw.row) (r : border_row) :
  r ∈ border_query yellow_2024 yellow_2025 ->
  0 <= count_2024 r /\ 0 <= count_2025 r /\ 1 <= count_2024 r + count_2025 r /\
  border_diff r = count_2025 r - count_2024 r /\
  exists p, pct_change r = Some p /\
            (count_2024 r = 0 -> p = 0%Q) /\
            (-100 <= p)%Q /\
            ((p == -100)%Q <-> 0 < count_2024 r /\ count_2025 r = 0).
Proof.
  unfold border_query. intros Hr. apply elem_of_map in Hr.
  destruct Hr as (j & -> & Hj).
  assert (Hc : 0 <= count_2024 (border_select j) /\ 0 <= count_2025 (border_select j) /\
               1 <= count_2024 (border_select j) + count_2025 (border_select j)).
  { apply elem_of_full_outer_join in Hj.
    destruct Hj as [(x & y & -> & Hx & Hy & _)|[(x & -> & Hx & _)|(y & -> & Hy & _)]];
      cbn [border_select count_2024 count_2025 fst snd side_cnt option_map Sql.coalesce];
      try pose proof (q1_dropoffs_count _ _ Hx); try pose proof (q1_dropoffs_count _ _ Hy);
      lia. }
  destruct Hc as (H24 & H25 & Hsum).
  split; [exact H24|]. split; [exact H25|]. split; [exact Hsum|].
  split; [reflexivity|].
  pose proof (pct_change_value j) as Hp. cbv zeta in Hp.
  set (r := border_select j) in *.
  destruct (count_2024 r >? 0) eqn:G.
  - apply Z.gtb_lt in G.
    set (a := inject_Z (count_2025 r)). set (b := inject_Z (count_2024 r)) in *.
    set (p := (inject_Z (count_2025 r - count_2024 r) * 100 / b)%Q) in *.
    exists p. split; [exact Hp|]. split; [intros E; lia|].
    assert (Ha : (0 <= a)%Q)
      by (unfold a; change 0%Q with (inject_Z 0); rewrite <- Zle_Qle; exact H25).
    assert (Hb : (0 < b)%Q)
      by (unfold b; change 0%Q with (inject_Z 0); rewrite <- Zlt_Qlt; exact G).
    assert (Ed : (inject_Z (count_2025 r - count_2024 r) == a - b)%Q).
    { unfold Z.sub. rewrite inject_Z_plus, inject_Z_opp. reflexivity. }
    assert (Eq : (p * b == (a - b) * 100)%Q).
    { unfold p. rewrite Ed. field. lra. }
    destruct (percent_floor a b p Ha Hb Eq) as [Hfloor Hiff].
    split; [exact Hfloor|]. rewrite Hiff.
    unfold a, Qeq. cbn. split; [intros E; split; [exact G|lia]|intros [_ E]; lia].
  - exists 0%Q. split; [exact Hp|]. split; [reflexivity|].
    split; [discriminate|].
    assert (count_2024 r = 0)
      by (rewrite Z.gtb_ltb in G; apply Z.ltb_ge in G; lia).
    split; [intros E; discriminate E|intros [? _]; lia].
Qed.

Lemma border_table_witness :
  let r := {| location_id := Some 4; count_2024 := 1; count_2025 := 5;
              border_diff := 4; pct_change := Some 400%Q |} in
  r ∈ border_query border_2024 border_2025 /\
  exists p, pct_change r = Some p /\ (-100 <= p)%Q.
Proof.
  intros r.
  assert (Hr : r ∈ border_query border_2024 border_2025) by (vm_compute; left).
  split; [exact Hr|].
  destruct (border_table border_2024 border_2025 r Hr) as (_ & _ & _ & _ & p & Hp & _ & Hf & _).
  exists p. split; [exact Hp|exact Hf].
Defined.

(* ===================================================================== *)
(** ** What the analysis writes *)
(* ===================================================================== *)

Ltac mbranch :=
  repeat first
    [ progress (mstep; cbn [final])
    | match goal with
      | |- context [match connection ?w with _ => _ end] =>
          destruct (connection w) as [[]|] eqn:?
      | |- context [if engine_fault ?e ?q then _ else _] =>
          destruct (engine_fault e q) eqn:?
      | |- context [match scan ?d ?f with _ => _ end] =>
          destruct (scan d f) eqn:?
      | |- context [<[?p := ?f]> ?m !! ?p] => rewrite (lookup_insert_eq m p f)
      | |- context [match ?m !! ?p with _ => _ end] =>
          destruct (m !! p) as [[? []]|] eqn:?
      | |- context [bool_decide ?P] => destruct (bool_decide P) eqn:?
      | |- context [if ?b then _ else _] => destruct b eqn:?
      end ].

Ltac in_list := first [left | right; in_list].

Lemma final_frame {A B} (m : M A) (k : A -> M B) (S : string -> Prop) (w : world) :
  (forall w0 p, ~ S p -> files (final (m w0)) !! p = files w0 !! p) ->
  (forall a w0 p, ~ S p -> files (final (k a w0)) !! p = files w0 !! p) ->
  forall p, ~ S p -> files (final (bind m k w)) !! p = files w !! p.
Proof.
  intros Hm Hk p Hp. rewrite final_bind. specialize (Hm w p Hp).
  destruct (m w) as [a w'|e w']; cbn [final] in Hm.
  - rewrite (Hk a w' p Hp). exact Hm.
  - exact Hm.
Qed.

Lemma run_ghost_trip_audit_frame (w : world) (p : string) :
  p <> audit_file ->
  files (final (run_ghost_trip_audit w)) !! p = files w !! p.
Proof.
  intros Hp.
  unfold run_ghost_trip_audit, create_view, try_except, execute, all_trips_2025,
    read_parquet, read_audit_file.
  mbranch; cbn [final files]; rewrite ?lookup_insert_ne by congruence; reflexivity.
Qed.

Lemma leakage_job_frame (w : world) (p : string) :
  p <> leakage_file -> files (final (leakage_job w)) !! p = files w !! p.
Proof.
  intros Hp. unfold leakage_job, execute, all_trips_2025, read_parquet.
  mbranch; cbn [final files]; rewrite ?lookup_insert_ne by congruence; reflexivity.
Qed.

Lemma not_output (p q : string) : p ∉ analysis_outputs -> q ∈ analysis_outputs -> p <> q.
Proof. intros Hp Hq ->. contradiction. Qed.

Lemma run_impact_analysis_frame (gc : Z) (sv : list (option Z * Z)) (w : world) (p : string) :
  p ∉ [leakage_file; stats_file; velocity_file 2024; velocity_file 2025; border_file] ->
  files (final (run_impact_analysis gc sv w)) !! p = files w !! p.
Proof.
  intros Hp.
  assert (N1 : p <> leakage_file) by (intros ->; apply Hp; in_list).
  assert (N2 : p <> stats_file) by (intros ->; apply Hp; in_list).
  assert (N3 : p <> velocity_file 2024) by (intros ->; apply Hp; in_list).
  assert (N4 : p <> velocity_file 2025) by (intros ->; apply Hp; in_list).
  assert (N5 : p <> border_file) by (intros ->; apply Hp; in_list).
  unfold run_impact_analysis. mstep.
  match goal with |- context [revenue_job ?w0] =>
    destruct (revenue_job_spec w0) as (rev & w1 & ev1 & R1 & _ & _ & F1 & _)
  end.
  rewrite R1. mstep. cbn [files] in F1.
  pose proof (leakage_job_frame w1 p N1) as F2.
  destruct (leakage_job w1) as [[] w2|e w2]; cbn [final] in F2 |- *;
    [|rewrite F2, F1; reflexivity].
  mstep.
  match goal with |- context [get_q1_count 2024 ?w0] =>
    destruct (get_q1_count_spec 2024 w0) as (n24 & w3 & R3 & _ & _ & F3 & _)
  end.
  rewrite R3. mstep. cbn [files] in F3.
  match goal with |- context [get_q1_count 2025 ?w0] =>
    destruct (get_q1_count_spec 2025 w0) as (n25 & w4 & R4 & _ & _ & F4 & _)
  end.
  rewrite R4. mstep. cbn [files] in F4.
  match goal with |- context [export_velocity 2024 ?w0] =>
    destruct (export_velocity_spec 2024 w0) as (w5 & ev5 & R5 & _ & _ & F5 & _)
  end.
  rewrite R5. mstep. cbn [files] in F5.
  match goal with |- context [export_velocity 2025 ?w0] =>
    destruct (export_velocity_spec 2025 w0) as (w6 & ev6 & R6 & _ & _ & F6 & _)
  end.
  rewrite R6. mstep. cbn [files] in F6.
  match goal with |- context [border_job ?w0] =>
    destruct (border_job_spec w0) as (w7 & ev7 & R7 & _ & _ & F7 & _)
  end.
  rewrite R7. cbn [final files] in F7 |- *.
  rewrite (F7 _ N5), (F6 _ N4), (F5 _ N3), lookup_insert_ne by congruence.
  rewrite F4, F3, F2, F1. reflexivity.
Qed.

Lemma fetch_weather_frame (w : world) (p : string) :
  p <> weather_file -> files (final (fetch_weather w)) !! p = files w !! p.
Proof.
  intros Hp. unfold fetch_weather, path_exists, try_except. mstep.
  destruct (bool_decide (is_Some (files w !! weather_file))); [reflexivity|].
  mstep. destruct (weather_archive (env w)) as [[time prec]|]; [|reflexivity].
  mstep. destruct (PANDAS_AVAILABLE (env w)); mstep.
  - destruct (length time =? length prec)%nat; mstep; cbn [final files];
      rewrite ?lookup_insert_ne by congruence; reflexivity.
  - cbn [final files]. rewrite lookup_insert_ne by congruence. reflexivity.
Qed.

Lemma daily_trips_job_frame (w : world) (p : string) :
  p <> out_trips ->
  files (final (execute DailyTripsCopy
                  (trips <- all_trips_2025 ;;
                   write_content out_trips (DailyTripsCsv (daily_trips_query trips))) w)) !! p
  = files w !! p.
Proof.
  intros Hp. unfold execute, all_trips_2025, read_parquet.
  mbranch; cbn [final files]; rewrite ?lookup_insert_ne by congruence; reflexivity.
Qed.

Lemma tips_job_frame (w : world) (p : string) :
  p <> out_tips ->
  files (final (execute TipsCopy
                  (trips <- all_trips_2025 ;;
                   write_content out_tips (TipsCsv (tips_query trips))) w)) !! p
  = files w !! p.
Proof.
  intros Hp. unfold execute, all_trips_2025, read_parquet.
  mbranch; cbn [final files]; rewrite ?lookup_insert_ne by congruence; reflexivity.
Qed.

Lemma elasticity_frame (w : world) (p : string) :
  p <> elasticity_file -> files (final (elasticity w)) !! p = files w !! p.
Proof.
  intros Hp. unfold elasticity, try_except, read_daily_trips, read_weather. mstep.
  destruct (PANDAS_AVAILABLE (env w) && SCIPY_AVAILABLE (env w)); [|reflexivity].
  mstep.
  destruct (files w !! out_trips) as [[? []]|]; mstep; try reflexivity;
    destruct (files w !! weather_file) as [[? []]|]; mstep; try reflexivity.
  match goal with |- context [if ?b then _ else _] => destruct b end;
    [|reflexivity].
  mstep.
  match goal with |- context [match linregress ?e ?d with _ => _ end] =>
    destruct (linregress e d)
  end; mstep; cbn [final files]; rewrite ?lookup_insert_ne by congruence; reflexivity.
Qed.

Lemma fetch_weather_and_analyze_frame (w : world) (p : string) :
  p ∉ [weather_file; out_trips; out_tips; elasticity_file] ->
  files (final (fetch_weather_and_analyze w)) !! p = files w !! p.
Proof.
  intros Hp.
  assert (N1 : p <> weather_file) by (intros ->; apply Hp; in_list).
  assert (N2 : p <> out_trips) by (intros ->; apply Hp; in_list).
  assert (N3 : p <> out_tips) by (intros ->; apply Hp; in_list).
  assert (N4 : p <> elasticity_file) by (intros ->; apply Hp; in_list).
  unfold fetch_weather_and_analyze.
  revert p Hp N1 N2 N3 N4 w.
  assert (G : forall w p, p <> weather_file -> p <> out_trips -> p <> out_tips ->
                          p <> elasticity_file ->
              files (final
                ((print MsgPhase4 ;;;
                  fetch_weather ;;;
                  execute DailyTripsCopy
                    (trips <- all_trips_2025 ;;
                     write_content out_trips (DailyTripsCsv (daily_trips_query trips))) ;;;
                  execute TipsCopy
                    (trips <- all_trips_2025 ;;
                     write_content out_tips (TipsCsv (tips_query trips))) ;;;
                  elasticity) w)) !! p = files w !! p).
  { intros w p N1 N2 N3 N4.
    rewrite final_bind. cbn [print emit].
    rewrite final_bind.
    pose proof (fetch_weather_frame (set_trace (trace w ++ [Print MsgPhase4]) w) p N1) as F1.
    destruct (fetch_weather _) as [[] w1|e w1]; cbn [final] in F1; [|exact F1].
    rewrite final_bind.
    pose proof (daily_trips_job_frame w1 p N2) as F2.
    destruct (execute DailyTripsCopy _ w1) as [[] w2|e w2]; cbn [final] in F2;
      [|rewrite F2; exact F1].
    rewrite final_bind.
    pose proof (tips_job_frame w2 p N3) as F3.
    destruct (execute TipsCopy _ w2) as [[] w3|e w3]; cbn [final] in F3;
      [|rewrite F3, F2; exact F1].
    rewrite (elasticity_frame w3 p N4), F3, F2. exact F1. }
  intros p _ N1 N2 N3 N4 w. apply G; assumption.
Qed.

(** X17. The analysis never touches its inputs.  Whatever happens in the
    three guarded stages of [main], a file that is not one of their ten
    outputs is left as it was; in particular every file of the data
    directory, so every trip file, and the same holds for each stage
    alone. *)
Theorem analysis_footprint (w : world) :
  (forall p, p <> audit_file ->
             files (final (run_ghost_trip_audit w)) !! p = files w !! p) /\
  (forall gc sv p,
     p ∉ [leakage_file; stats_file; velocity_file 2024; velocity_file 2025; border_file] ->
     files (final (run_impact_analysis gc sv w)) !! p = files w !! p) /\
  (forall p, p ∉ [weather_file; out_trips; out_tips; elasticity_file] ->
             files (final (fetch_weather_and_analyze w)) !! p = files w !! p) /\
  (forall p, p ∉ analysis_outputs ->
             files (final (main_guarded w)) !! p = files w !! p) /\
  (forall name, files (final (main_guarded w)) !! join DATA_DIR name
                = files w !! join DATA_DIR name).
Proof.
  assert (Hmain : forall p, p ∉ analysis_outputs ->
                            files (final (main_guarded w)) !! p = files w !! p).
  { intros p Hp.
    assert (Ha : p <> audit_file) by (apply (not_output p _ Hp); unfold analysis_outputs; in_list).
    assert (Hb : p ∉ [leakage_file; stats_file; velocity_file 2024; velocity_file 2025;
                      border_file]).
    { intros H. apply Hp. unfold analysis_outputs.
      repeat (apply elem_of_cons in H; destruct H as [->|H]; [in_list|]).
      inversion H. }
    assert (Hc : p ∉ [weather_file; out_trips; out_tips; elasticity_file]).
    { intros H. apply Hp. unfold analysis_outputs.
      repeat (apply elem_of_cons in H; destruct H as [->|H]; [in_list|]).
      inversion H. }
    assert (Hstages : files (final (main_stages w)) !! p = files w !! p).
    { unfold main_stages. rewrite final_bind.
      pose proof (run_ghost_trip_audit_frame w p Ha) as F1.
      destruct (run_ghost_trip_audit w) as [audited w1|e w1]; cbn [final] in F1;
        [|exact F1].
      rewrite final_bind.
      pose proof (run_impact_analysis_frame (fst audited) (snd audited) w1 p Hb) as F2.
      destruct (run_impact_analysis _ _ w1) as [[] w2|e w2]; cbn [final] in F2;
        [|rewrite F2; exact F1].
      rewrite (fetch_weather_and_analyze_frame w2 p Hc), F2. exact F1. }
    unfold main_guarded, try_finally, try_except, close.
    destruct (main_stages w) as [[] w1|e w1]; cbn [final] in Hstages; mstep;
      cbn [final files]; exact Hstages. }
  split; [intros p Hp; apply run_ghost_trip_audit_frame, Hp|].
  split; [intros gc sv p Hp; apply run_impact_analysis_frame, Hp|].
  split; [intros p Hp; apply fetch_weather_and_analyze_frame, Hp|].
  split; [exact Hmain|].
  intros name. apply Hmain. unfold analysis_outputs.
  intros H. repeat (apply elem_of_cons in H; destruct H as [H|H];
                    [vm_compute in H; discriminate H|]).
  inversion H.
Qed.
